(** * registry/handlers/app.go: the registry application object

    A shallow embedding of the application constructor [NewApp], of the
    request path ([ServeHTTP], [dispatcher], [authorized]), of the upload
    purger and of the health check registration, followed by the
    properties the design document states about them and by further
    properties read off the code.

    Go values are modelled as follows: [string] as [string], [int64] and
    [time.Duration] as [Z] (nanoseconds), [map[string]T] as [gmap string T],
    slices as lists, [interface{}] configuration values as the tagged union
    [Value], a Go [panic] as the [Panic] outcome of the [Res] monad. *)

From Stdlib Require Import ZArith Ascii String List Lia.
From stdpp Require Import base decidable option list strings gmap.

Open Scope string_scope.
Open Scope Z_scope.
Open Scope list_scope.

(** ** net/http: methods, headers and the response writer *)

Module http.

Definition MethodGet     : string := "GET".
Definition MethodHead    : string := "HEAD".
Definition MethodPost    : string := "POST".
Definition MethodPut     : string := "PUT".
Definition MethodPatch   : string := "PATCH".
Definition MethodDelete  : string := "DELETE".

Definition StatusOK                  : Z := 200.
Definition StatusBadRequest          : Z := 400.
Definition StatusUnauthorized        : Z := 401.
Definition StatusNotFound            : Z := 404.
Definition StatusInternalServerError : Z := 500.

(** textproto.CanonicalMIMEHeaderKey: a key made of token characters only
    has its first letter and every letter after a hyphen upper-cased and
    the others lower-cased; any other key is returned unchanged. *)
Definition isUpper (c : ascii) : bool :=
  let n := nat_of_ascii c in (65 <=? n)%nat && (n <=? 90)%nat.
Definition isLower (c : ascii) : bool :=
  let n := nat_of_ascii c in (97 <=? n)%nat && (n <=? 122)%nat.
Definition isDigit (c : ascii) : bool :=
  let n := nat_of_ascii c in (48 <=? n)%nat && (n <=? 57)%nat.
Definition toUpper (c : ascii) : ascii :=
  if isLower c then ascii_of_nat (nat_of_ascii c - 32) else c.
Definition toLower (c : ascii) : ascii :=
  if isUpper c then ascii_of_nat (nat_of_ascii c + 32) else c.

Definition isTokenChar (c : ascii) : bool :=
  isUpper c || isLower c || isDigit c ||
  existsb (Ascii.eqb c) (list_ascii_of_string "!#$%&'*+-.^_`|~").

Fixpoint canonicalFrom (upper : bool) (s : string) : string :=
  match s with
  | EmptyString => EmptyString
  | String c rest =>
      String (if upper then toUpper c else toLower c)
             (canonicalFrom (Ascii.eqb c "-") rest)
  end.

Definition CanonicalHeaderKey (s : string) : string :=
  if forallb isTokenChar (list_ascii_of_string s)
  then canonicalFrom true s else s.

(** http.Header is [map[string][]string] keyed by canonical names. *)
Abbreviation Header := (gmap string (list string)).

Definition Header_Add (h : Header) (key value : string) : Header :=
  let k := CanonicalHeaderKey key in
  <[k := default [] (h !! k) ++ [value]]> h.

Definition Header_Set (h : Header) (key value : string) : Header :=
  <[CanonicalHeaderKey key := [value]]> h.

Definition Header_Values (h : Header) (key : string) : list string :=
  default [] (h !! CanonicalHeaderKey key).

Definition Header_Get (h : Header) (key : string) : string :=
  match Header_Values h key with
  | v :: _ => v
  | [] => ""
  end.

End http.

(** ** registry/auth: resources, access records, grants *)

Module auth.

Record Resource := { Type_ : string; Name : string }.
Record Access := { Resource_ : Resource; Action : string }.
Record UserInfo := { UserName : string }.
Record Grant := { User : UserInfo; Resources : list Resource }.

#[global] Instance Resource_eq_dec : EqDecision Resource.
Proof. solve_decision. Defined.
#[global] Instance Access_eq_dec : EqDecision Access.
Proof. solve_decision. Defined.

End auth.

(** ** registry/api/errcode *)

Module errcode.

(** Modelled from the spec: the error codes of package errcode that
    app.go names. The package is not part of the sources at hand; the
    design document lists the codes of the error envelope. *)
Inductive ErrorCode :=
| ErrorCodeUnknown
| ErrorCodeUnauthorized
| ErrorCodeNameUnknown
| ErrorCodeNameInvalid.

(** The [detail] member of an error: app.go attaches either the access
    records or an underlying error. *)
Inductive Detail :=
| DetailNone
| DetailAccess (records : list auth.Access)
| DetailError (msg : string).

(** A Go [error] as the handlers see it: a bare [ErrorCode], an
    [errcode.Error] (a code with a detail), or any other error. *)
Inductive Error :=
| OfCode (c : ErrorCode)
| WithDetail (c : ErrorCode) (d : Detail)
| Plain (msg : string).

Abbreviation Errors := (list Error).

(** Modelled from the spec: the identifier of a code in the envelope. *)
Definition Value (c : ErrorCode) : string :=
  match c with
  | ErrorCodeUnknown => "UNKNOWN"
  | ErrorCodeUnauthorized => "UNAUTHORIZED"
  | ErrorCodeNameUnknown => "NAME_UNKNOWN"
  | ErrorCodeNameInvalid => "NAME_INVALID"
  end.

(** Modelled from the spec: the HTTP status of a code's descriptor.
    "challenges produce 401", "not_found (404 with specific code)",
    "client_invalid (... bad name)", "Unrecognized errors map to UNKNOWN +
    500". *)
Definition HTTPStatusCode (c : ErrorCode) : Z :=
  match c with
  | ErrorCodeUnknown => http.StatusInternalServerError
  | ErrorCodeUnauthorized => http.StatusUnauthorized
  | ErrorCodeNameUnknown => http.StatusNotFound
  | ErrorCodeNameInvalid => http.StatusBadRequest
  end.

Definition ErrorCoder (e : Error) : option ErrorCode :=
  match e with
  | OfCode c | WithDetail c _ => Some c
  | Plain _ => None
  end.

End errcode.

(** ** The response writer *)

(** What has been written to the body: raw text, or the JSON encoding of
    an error envelope [{"errors":[...]}]. *)
Inductive Chunk :=
| Text (s : string)
| JSONErrors (errs : errcode.Errors).

(** [http.ResponseWriter]: the header map the handlers mutate, the status
    line once written together with the headers as they were at that
    moment (later changes of the map are not sent), and the body. *)
Record ResponseWriter := {
  Header : http.Header;
  wrote : option (Z * http.Header);
  body : list Chunk
}.

Definition newResponseWriter : ResponseWriter :=
  {| Header := ∅; wrote := None; body := [] |}.

Definition withHeader (f : http.Header -> http.Header) (w : ResponseWriter)
  : ResponseWriter :=
  {| Header := f (Header w); wrote := wrote w; body := body w |}.

(** A second WriteHeader is superfluous and ignored. *)
Definition WriteHeader (code : Z) (w : ResponseWriter) : ResponseWriter :=
  match wrote w with
  | Some _ => w
  | None => {| Header := Header w; wrote := Some (code, Header w); body := body w |}
  end.

(** Write sends the status line with 200 when none was written yet. The
    headers the server adds by itself when it sends the status line (Date,
    Content-Length, and a Content-Type sniffed from the first bytes written
    where the handler has set none) are not modelled: the headers of a
    response are the header map as the handlers made it. *)
Definition Write (c : Chunk) (w : ResponseWriter) : ResponseWriter :=
  let w' := WriteHeader http.StatusOK w in
  {| Header := Header w'; wrote := wrote w'; body := body w' ++ [c] |}.

(** The response the client receives once the handler has returned: the
    server writes the status line with 200 if the handler wrote nothing. *)
Record Response := {
  StatusCode : Z;
  RespHeader : http.Header;
  RespBody : list Chunk
}.

Definition finish (w : ResponseWriter) : Response :=
  match wrote (WriteHeader http.StatusOK w) with
  | Some (code, h) => {| StatusCode := code; RespHeader := h; RespBody := body w |}
  | None => {| StatusCode := http.StatusOK; RespHeader := Header w; RespBody := body w |}
  end.

(** Modelled from the spec: errcode.ServeJSON, which app.go calls and the
    sources at hand do not contain. "All errors bubble to the dispatcher,
    which maps them to the OCI envelope and an HTTP status"; the status is
    the one of the (first) error's code, 500 when the error carries no
    code. The argument is a single error or a list of errors. *)
Definition statusOf (errs : errcode.Errors) : Z :=
  match errs with
  | e :: _ =>
      match errcode.ErrorCoder e with
      | Some c => errcode.HTTPStatusCode c
      | None => http.StatusInternalServerError
      end
  | [] => http.StatusInternalServerError
  end.

Definition ServeJSON (errs : errcode.Errors) (w : ResponseWriter) : ResponseWriter :=
  let w1 := withHeader (fun h => http.Header_Set h "Content-Type" "application/json") w in
  let w2 := WriteHeader (statusOf errs) w1 in
  Write (JSONErrors errs) w2.

(** ** Requests, routes and the request context *)

Module v2.
Definition RouteNameBase            : string := "base".
Definition RouteNameManifest        : string := "manifest".
Definition RouteNameTags            : string := "tags".
Definition RouteNameBlob            : string := "blob".
Definition RouteNameBlobUpload      : string := "blob-upload".
Definition RouteNameBlobUploadChunk : string := "blob-upload-chunk".
Definition RouteNameCatalog         : string := "catalog".
End v2.

(** The parts of [*http.Request] the application reads: the method, the
    path of the URL, the parsed form values (URL query and body), and what
    the router attached when it matched: the route ([mux.CurrentRoute], nil
    when unmatched) and the path variables ([mux.Vars]). *)
Record Request := {
  Method : string;
  Path : string;
  Form : gmap string (list string);
  CurrentRoute : option string;
  Vars : gmap string string
}.

(** r.FormValue(key): the first value of the key, or the empty string. *)
Definition FormValue (r : Request) (key : string) : string :=
  match Form r !! key with
  | Some (v :: _) => v
  | _ => ""
  end.

(** The handlers' [Context]: the request variables, the errors collected
    for the automated error response, and what authorization stored. *)
Record Context := {
  ctxVars : gmap string string;
  Errors : errcode.Errors;
  ctxUser : option auth.UserInfo;
  ctxResources : list auth.Resource;
  Repository : option string
}.

(** getName: the "vars.name" value of the context, empty when unset. *)
Definition getName (ctx : Context) : string :=
  default "" (ctxVars ctx !! "name").

(** ** Access records *)

Definition repositoryAccess (repo action : string) : auth.Access :=
  {| auth.Resource_ := {| auth.Type_ := "repository"; auth.Name := repo |};
     auth.Action := action |}.

(** appendAccessRecords checks the method and adds the appropriate Access
    records to the records list. *)
Definition appendAccessRecords (records : list auth.Access) (method repo : string)
  : list auth.Access :=
  let resource := {| auth.Type_ := "repository"; auth.Name := repo |} in
  if decide (method = http.MethodGet ∨ method = http.MethodHead) then
    records ++ [ {| auth.Resource_ := resource; auth.Action := "pull" |} ]
  else if decide (method = http.MethodPost ∨ method = http.MethodPut
                  ∨ method = http.MethodPatch) then
    records ++ [ {| auth.Resource_ := resource; auth.Action := "pull" |};
                 {| auth.Resource_ := resource; auth.Action := "push" |} ]
  else if decide (method = http.MethodDelete) then
    records ++ [ {| auth.Resource_ := resource; auth.Action := "delete" |} ]
  else records.

(** Add the access record for the catalog if it's our current route. The
    route is dereferenced without a nil check. *)
Definition appendCatalogAccessRecord (accessRecords : list auth.Access) (r : Request)
  : option (list auth.Access) :=
  match CurrentRoute r with
  | None => None
  | Some routeName =>
      if decide (routeName = v2.RouteNameCatalog) then
        Some (accessRecords ++
              [ {| auth.Resource_ := {| auth.Type_ := "registry"; auth.Name := "catalog" |};
                   auth.Action := "*" |} ])
      else Some accessRecords
  end.

(** ** regexp: compiled regular expressions

    The operators of Go's regexp/syntax that a compiled pattern is made of.
    [BeginText] and [EndText] are what [^] and [$] compile to (the patterns
    are compiled without the multi-line flag). *)

Module regexp.

Inductive Regexp :=
| EmptyMatch
| Literal (c : ascii)
| CharClass (p : ascii -> bool)
| AnyChar
| BeginText
| EndText
| Concat (a b : Regexp)
| Alternate (a b : Regexp)
| Star (a : Regexp).

(** Backtracking matcher in continuation-passing style: [atStart] tells
    whether the position is the beginning of the text, [s] is the text
    from the position on, [k] matches what follows the expression. A
    starred expression is iterated only while it consumes input. *)
Fixpoint matchK (re : Regexp) (atStart : bool) (s : list ascii)
         (k : bool -> list ascii -> bool) {struct re} : bool :=
  match re with
  | EmptyMatch => k atStart s
  | Literal c =>
      match s with
      | c' :: s' => if Ascii.eqb c c' then k false s' else false
      | [] => false
      end
  | CharClass p =>
      match s with
      | c' :: s' => if p c' then k false s' else false
      | [] => false
      end
  | AnyChar =>
      match s with
      | c' :: s' => if Ascii.eqb c' "010" then false else k false s'
      | [] => false
      end
  | BeginText => if atStart then k atStart s else false
  | EndText => match s with [] => k atStart s | _ :: _ => false end
  | Concat a b => matchK a atStart s (fun at' s' => matchK b at' s' k)
  | Alternate a b => matchK a atStart s k || matchK b atStart s k
  | Star a =>
      (fix loop (n : nat) (at0 : bool) (s0 : list ascii) {struct n} : bool :=
         k at0 s0 ||
         match n with
         | O => false
         | S n' =>
             matchK a at0 s0
               (fun at' s' =>
                  if (length s' <? length s0)%nat then loop n' at' s' else false)
         end) (length s) atStart s
  end.

(** Does the expression match at some position of the text? *)
Fixpoint searchFrom (re : Regexp) (atStart : bool) (s : list ascii) : bool :=
  matchK re atStart s (fun _ _ => true) ||
  match s with
  | [] => false
  | _ :: s' => searchFrom re false s'
  end.

(** Regexp.MatchString reports whether the string contains any match
    of the regular expression. *)
Definition MatchString (re : Regexp) (s : string) : bool :=
  searchFrom re true (list_ascii_of_string s).

End regexp.

(** ** time: durations are int64 nanoseconds *)

Module time.

Definition Nanosecond  : Z := 1.
Definition Microsecond : Z := 1000 * Nanosecond.
Definition Millisecond : Z := 1000 * Microsecond.
Definition Second      : Z := 1000 * Millisecond.
Definition Minute      : Z := 60 * Second.
Definition Hour        : Z := 60 * Minute.

(** The unit table of ParseDuration; the micro sign and the Greek mu are
    two bytes each in UTF-8. *)
Definition unitMap (u : string) : option Z :=
  if decide (u = "ns") then Some Nanosecond
  else if decide (u = "us") then Some Microsecond
  else if decide (u = String "194" (String "181" "s")) then Some Microsecond
  else if decide (u = String "206" (String "188" "s")) then Some Microsecond
  else if decide (u = "ms") then Some Millisecond
  else if decide (u = "s") then Some Second
  else if decide (u = "m") then Some Minute
  else if decide (u = "h") then Some Hour
  else None.

Definition isDigit (c : ascii) : bool :=
  let n := nat_of_ascii c in (48 <=? n)%nat && (n <=? 57)%nat.

(** leadingInt consumes the leading [0-9]* from s; overflow of the
    accumulator beyond 1<<63 is an error. *)
Fixpoint leadingInt (x : Z) (s : list ascii) : option (Z * list ascii) :=
  match s with
  | c :: s' =>
      if isDigit c then
        if x >? 2 ^ 63 / 10 then None
        else
          let x' := x * 10 + Z.of_nat (nat_of_ascii c) - 48 in
          if x' >? 2 ^ 63 then None else leadingInt x' s'
      else Some (x, s)
  | [] => Some (x, s)
  end.

(** The unit is everything up to the next digit or period. *)
Fixpoint spanUnit (s : list ascii) : list ascii * list ascii :=
  match s with
  | c :: s' =>
      if Ascii.eqb c "." || isDigit c then ([], s)
      else let '(u, rest) := spanUnit s' in (c :: u, rest)
  | [] => ([], [])
  end.

(** The loop of ParseDuration over the terms [digits unit], for a string
    without a decimal point; [d] is the sum so far. *)
Fixpoint parseTerms (fuel : nat) (d : Z) (s : list ascii) : option Z :=
  match s with
  | [] => Some d
  | c :: _ =>
      match fuel with
      | O => None
      | S fuel' =>
          if negb (isDigit c) then None
          else
            match leadingInt 0 s with
            | None => None
            | Some (v, s1) =>
                let '(u, s2) := spanUnit s1 in
                match u with
                | [] => None
                | _ :: _ =>
                    match unitMap (string_of_list_ascii u) with
                    | None => None
                    | Some unit =>
                        if v >? 2 ^ 63 / unit then None
                        else
                          (* the sum is a uint64 *)
                          let d' := (d + v * unit) mod 2 ^ 64 in
                          if d' >? 2 ^ 63 then None else parseTerms fuel' d' s2
                    end
                end
            end
      end
  end.

(** time.ParseDuration on a string without a decimal point: an optional
    sign, then "0" alone or a non-empty sequence of terms. [None] is the
    error result. *)
Definition parseDurationInt (s : string) : option Z :=
  let cs := list_ascii_of_string s in
  let '(neg, cs) :=
    match cs with
    | c :: rest =>
        if Ascii.eqb c "-" then (true, rest)
        else if Ascii.eqb c "+" then (false, rest)
        else (false, cs)
    | [] => (false, cs)
    end in
  if decide (cs = ["0"%char]) then Some 0
  else
    match cs with
    | [] => None
    | _ :: _ =>
        match parseTerms (length cs) 0 cs with
        | None => None
        | Some d =>
            if neg then Some (- d)
            else if d >? 2 ^ 63 - 1 then None else Some d
        end
    end.

End time.

(** ** configuration: the parts of the configuration app.go reads *)

Module configuration.

(** A value of a [Parameters] map ([interface{}]): a scalar or a nested
    map whose values app.go only ever inspects as scalars. *)
Inductive Scalar :=
| SBool (b : bool)
| SString (s : string)
| SInt (n : Z)
| SOther.

#[global] Instance Scalar_eq_dec : EqDecision Scalar.
Proof. solve_decision. Defined.

Inductive Value :=
| VScalar (v : Scalar)
| VMap (m : gmap string Scalar).

Abbreviation Parameters := (gmap string Value).
Abbreviation Storage := (gmap string (gmap string Value)).

Record Middleware := { MwName : string; MwOptions : gmap string Value }.

Record HTTP := {
  Addr : string;
  Prefix : string;
  Host : string;
  Secret : string;
  RelativeURLs : bool;
  (** [http.Header]; the list is the order in which [range] visits it. *)
  Headers : list (string * list string)
}.

Record Proxy := { RemoteURL : string }.

Record Platform := { Architecture : string; OS : string }.

(** [Validation], with the nested [Manifests.URLs] and
    [Manifests.Indexes] structs flattened into the field names. *)
Record Validation := {
  Enabled : bool;
  Disabled : bool;
  ManifestsURLsAllow : list string;
  ManifestsURLsDeny : list string;
  ManifestsIndexesPlatforms : string;
  ManifestsIndexesPlatformList : list Platform
}.

Record Auth := { AuthType : string; AuthParameters : gmap string Value }.

Record Endpoint := { EndpointName : string; EndpointDisabled : bool }.

Record Redis := {
  RedisAddrs : list string;
  RedisTLSCertificate : string;
  RedisTLSKey : string;
  RedisTLSClientCAs : list string
}.

Record LogHook := { HookDisabled : bool; HookType : string }.

Record Configuration := {
  HTTP_ : HTTP;
  Proxy_ : Proxy;
  Storage_ : gmap string (gmap string Value);
  Middleware_ : gmap string (list Middleware);
  Validation_ : Validation;
  Auth_ : Auth;
  NotificationsEndpoints : list Endpoint;
  Redis_ : Redis;
  LogHooks : list LogHook
}.

Definition setSecret (secret : string) (c : Configuration) : Configuration :=
  let h := HTTP_ c in
  {| HTTP_ := {| Addr := Addr h; Prefix := Prefix h; Host := Host h;
                 Secret := secret; RelativeURLs := RelativeURLs h;
                 Headers := Headers h |};
     Proxy_ := Proxy_ c; Storage_ := Storage_ c; Middleware_ := Middleware_ c;
     Validation_ := Validation_ c; Auth_ := Auth_ c;
     NotificationsEndpoints := NotificationsEndpoints c;
     Redis_ := Redis_ c; LogHooks := LogHooks c |}.

Definition setValidation (v : Validation) (c : Configuration) : Configuration :=
  {| HTTP_ := HTTP_ c; Proxy_ := Proxy_ c; Storage_ := Storage_ c;
     Middleware_ := Middleware_ c; Validation_ := v; Auth_ := Auth_ c;
     NotificationsEndpoints := NotificationsEndpoints c;
     Redis_ := Redis_ c; LogHooks := LogHooks c |}.

Definition setEnabled (b : bool) (v : Validation) : Validation :=
  {| Enabled := b; Disabled := Disabled v;
     ManifestsURLsAllow := ManifestsURLsAllow v;
     ManifestsURLsDeny := ManifestsURLsDeny v;
     ManifestsIndexesPlatforms := ManifestsIndexesPlatforms v;
     ManifestsIndexesPlatformList := ManifestsIndexesPlatformList v |}.

Definition setAllow (l : list string) (v : Validation) : Validation :=
  {| Enabled := Enabled v; Disabled := Disabled v;
     ManifestsURLsAllow := l;
     ManifestsURLsDeny := ManifestsURLsDeny v;
     ManifestsIndexesPlatforms := ManifestsIndexesPlatforms v;
     ManifestsIndexesPlatformList := ManifestsIndexesPlatformList v |}.

Definition setDeny (l : list string) (v : Validation) : Validation :=
  {| Enabled := Enabled v; Disabled := Disabled v;
     ManifestsURLsAllow := ManifestsURLsAllow v;
     ManifestsURLsDeny := l;
     ManifestsIndexesPlatforms := ManifestsIndexesPlatforms v;
     ManifestsIndexesPlatformList := ManifestsIndexesPlatformList v |}.

End configuration.

(** ** storage: the registry options app.go assembles *)

Module storage.

Inductive CacheProvider :=
| RedisBlobDescriptorCacheProvider
| InMemoryBlobDescriptorCacheProvider (size : Z).

Inductive RegistryOption :=
| DisableDigestResumption
| EnableDelete
| EnableRedirect
| TagLookupConcurrencyLimit (limit : Z)
| ManifestURLsAllowRegexp (r : regexp.Regexp)
| ManifestURLsDenyRegexp (r : regexp.Regexp)
| EnableValidateImageIndexImagesExist
| AddValidateImageIndexImagesExistPlatform (architecture os : string)
| BlobDescriptorCacheProvider (provider : CacheProvider)
| MiddlewareOption (name : string).








End storage.

(** ** A state and panic monad for the effectful code *)

Inductive Res (A : Type) :=
| Ok (a : A)
| Panic (msg : string).
Arguments Ok {A} a.
Arguments Panic {A} msg.

Record M (S A : Type) := mkM { run : S -> Res (A * S) }.
Arguments mkM {S A} run.
Arguments run {S A} m s.

#[global] Instance M_ret {S} : MRet (M S) :=
  fun A a => mkM (fun s => Ok (a, s)).
#[global] Instance M_bind {S} : MBind (M S) :=
  fun A B f m => mkM (fun s =>
    match run m s with
    | Ok (a, s') => run (f a) s'
    | Panic msg => Panic msg
    end).

Definition panic {S A} (msg : string) : M S A := mkM (fun _ => Panic msg).
Definition gets {S A} (f : S -> A) : M S A := mkM (fun s => Ok (f s, s)).
Definition modify {S} (f : S -> S) : M S unit := mkM (fun s => Ok (tt, f s)).

(** Log levels and entries; the message is the format string of the call. *)
Inductive Level := Debug | Info | Warn | Error.
Record LogEntry := { level : Level; message : string }.

(** ** The application object and what it calls at request time *)

(** auth.Challenge: an authorization error that knows how to prepare the
    challenge headers of the response. *)
Record Challenge := {
  SetHeaders : Request -> http.Header -> http.Header;
  ChallengeError : string
}.

Inductive AuthError :=
| IsChallenge (c : Challenge)
| OtherError (msg : string).

(** AccessController.Authorized returns a grant and an error. *)
Definition AccessController : Type :=
  Request -> list auth.Access -> option auth.Grant * option AuthError.

(** The errors of Namespace.Repository that the dispatcher tells apart. *)
Inductive RepositoryError :=
| ErrRepositoryUnknown
| ErrRepositoryNameInvalid
| ErrErrcode (c : errcode.ErrorCode) (d : errcode.Detail)
| ErrOther (msg : string).

(** distribution.Namespace as built by the constructor: the options the
    registry was created with, the middlewares and the pull-through cache
    wrapped around it, and the outcome of looking up a repository. *)
Record Namespace := {
  regOptions : list storage.RegistryOption;
  regMiddleware : list string;
  regProxy : option string;
  Repository_ : string -> option RepositoryError
}.

(** What happened while a request was served, besides the response. *)
Inductive Event :=
| Logged (e : LogEntry)
| AuthorizedCall (records : list auth.Access)
| RepositoryCall (name : string)
| DispatchCall (routeName : option string).

Record RS := { rw : ResponseWriter; events : list Event }.

Definition onWriter (f : ResponseWriter -> ResponseWriter) : M RS unit :=
  modify (fun s => {| rw := f (rw s); events := events s |}).
Definition emit (e : Event) : M RS unit :=
  modify (fun s => {| rw := rw s; events := events s ++ [e] |}).
Definition logf (l : Level) (msg : string) : M RS unit :=
  emit (Logged {| level := l; message := msg |}).

(** The records of the access controller callouts among the events, and
    the routes of the handler dispatches. *)
Definition callouts (evs : list Event) : list (list auth.Access) :=
  omap (fun e => match e with AuthorizedCall records => Some records | _ => None end) evs.
Definition dispatches (evs : list Event) : list (option string) :=
  omap (fun e => match e with DispatchCall rn => Some rn | _ => None end) evs.
Definition lookups (evs : list Event) : list string :=
  omap (fun e => match e with RepositoryCall name => Some name | _ => None end) evs.

(** A handler built by a dispatch function: it writes the response and
    may append to the errors of the context. *)
Definition dispatchFunc : Type :=
  Context -> Request -> ResponseWriter -> Context * ResponseWriter.

(** What the router does with a request: it runs the handler of the route
    it matched, after attaching the route and the path variables to the
    request, or answers by itself (not found, method not allowed,
    redirect to the cleaned path). *)
Inductive RouteMatch :=
| Matched (routeName : string) (vars : gmap string string)
| Unmatched (answer : ResponseWriter -> ResponseWriter).

(** The storage driver: its type, its parameters and the middlewares
    wrapped around it. *)
Record StorageDriver := {
  driverType : string;
  driverParameters : gmap string configuration.Value;
  driverMiddleware : list string
}.

Record App := {
  Config : configuration.Configuration;
  router : Request -> RouteMatch;
  handlers : gmap string dispatchFunc;
  driver : StorageDriver;
  registry : Namespace;
  repoRemover : bool;
  accessController : option AccessController;
  httpHost : string * string;
  eventsSink : list string;
  eventsSource : string;
  redis : bool;
  isCache : bool;
  readOnly : bool
}.

(** nameRequired returns true if the route requires a name. *)
Definition nameRequired (r : Request) : bool :=
  match CurrentRoute r with
  | None => true
  | Some routeName =>
      bool_decide (routeName ≠ v2.RouteNameBase)
      && bool_decide (routeName ≠ v2.RouteNameCatalog)
  end.

(** apiBase implements a simple yes-man for doing overall checks against
    the api. *)
Definition apiBase (w : ResponseWriter) : ResponseWriter :=
  let w1 := withHeader (fun h => http.Header_Set h "Content-Type" "application/json") w in
  let w2 := withHeader (fun h => http.Header_Set h "Content-Length" "2") w1 in
  Write (Text "{}") w2.

Definition setGrant (g : auth.Grant) (c : Context) : Context :=
  {| ctxVars := ctxVars c; Errors := Errors c;
     ctxUser := Some (auth.User g); ctxResources := auth.Resources g;
     Repository := Repository c |}.

Definition appendErrors (e : errcode.Error) (c : Context) : Context :=
  {| ctxVars := ctxVars c; Errors := Errors c ++ [e];
     ctxUser := ctxUser c; ctxResources := ctxResources c;
     Repository := Repository c |}.

Definition setRepository (name : string) (c : Context) : Context :=
  {| ctxVars := ctxVars c; Errors := Errors c;
     ctxUser := ctxUser c; ctxResources := ctxResources c;
     Repository := Some name |}.

(** authorized checks if the request can proceed with access to the
    requested repository. The result is the context, updated with the
    grant on success, and the error returned. *)
Definition authorized (app : App) (r : Request) (context : Context)
  : M RS (Context * option string) :=
  _ ← logf Debug "authorizing request";
  let repo := getName context in
  match accessController app with
  | None => mret (context, None)
  | Some controller =>
      assembled ←
        (if decide (repo ≠ "") then
           let accessRecords := appendAccessRecords [] (Method r) repo in
           let fromRepo := FormValue r "from" in
           if decide (fromRepo ≠ "") then
             mret (Some (appendAccessRecords accessRecords http.MethodGet fromRepo))
           else mret (Some accessRecords)
         else if nameRequired r then
           _ ← onWriter (ServeJSON [errcode.OfCode errcode.ErrorCodeUnauthorized]);
           mret None
         else
           match appendCatalogAccessRecord [] r with
           | Some accessRecords => mret (Some accessRecords)
           | None => panic "invalid memory address or nil pointer dereference"
           end);
      match assembled with
      | None => mret (context, Some "forbidden: no repository name")
      | Some accessRecords =>
          _ ← emit (AuthorizedCall accessRecords);
          match controller r accessRecords with
          | (_, Some (IsChallenge c)) =>
              _ ← onWriter (withHeader (SetHeaders c r));
              _ ← onWriter (ServeJSON
                     [errcode.WithDetail errcode.ErrorCodeUnauthorized
                        (errcode.DetailAccess accessRecords)]);
              mret (context, Some (ChallengeError c))
          | (_, Some (OtherError msg)) =>
              _ ← logf Error "error checking authorization: %v";
              _ ← onWriter (WriteHeader http.StatusBadRequest);
              mret (context, Some msg)
          | (None, None) =>
              mret (context,
                    Some "access controller returned neither an access grant nor an error")
          | (Some grant, None) =>
              _ ← logf Info "authorized request";
              mret (setGrant grant context, None)
          end
      end
  end.

Section Dispatch.

(** reference.WithName and repositorymiddleware.Get are library calls;
    each yields the error it returns, if any. *)
Variable reference_WithName : string -> option string.
Variable repositorymiddleware_Get : configuration.Middleware -> option string.

(** applyRepoMiddleware wraps a repository with the configured
    middlewares; the first failing middleware ends the loop. *)
Fixpoint applyRepoMiddleware (middlewares : list configuration.Middleware)
  : option string :=
  match middlewares with
  | [] => None
  | mw :: rest =>
      match repositorymiddleware_Get mw with
      | Some err => Some err
      | None => applyRepoMiddleware rest
      end
  end.

(** context constructs the context object for the application. *)
Definition context (app : App) (r : Request) : Context :=
  {| ctxVars := Vars r; Errors := []; ctxUser := None; ctxResources := [];
     Repository := None |}.

Fixpoint addHeaders (hs : list (string * list string)) (h : http.Header)
  : http.Header :=
  match hs with
  | [] => h
  | (headerName, headerValues) :: rest =>
      addHeaders rest
        (fold_left (fun h value => http.Header_Add h headerName value) headerValues h)
  end.

Definition logError (errors : errcode.Errors) : M RS unit :=
  fold_right (fun _ (k : M RS unit) =>
                _ ← logf Error "response completed with error"; k)
             (mret tt) errors.

(** The body of the handler the dispatcher returns, up to the deferred
    function; it yields the context as the handler leaves it. *)
Definition dispatcherBody (app : App) (dispatch : dispatchFunc)
           (context0 : Context) (r : Request) : M RS Context :=
  '(context, err) ← authorized app r context0;
  match err with
  | Some _ =>
      _ ← logf Warn "error authorizing context: %v";
      mret context
  | None =>
      named ←
        (if nameRequired r then
           match reference_WithName (getName context) with
           | Some reason =>
               _ ← logf Error "error parsing reference from context: %v";
               let context := appendErrors (errcode.Plain reason) context in
               _ ← onWriter (ServeJSON (Errors context));
               mret (inl context)
           | None =>
               _ ← emit (RepositoryCall (getName context));
               match Repository_ (registry app) (getName context) with
               | Some err =>
                   _ ← logf Error "error resolving repository: %v";
                   let context :=
                     match err with
                     | ErrRepositoryUnknown =>
                         appendErrors (errcode.WithDetail errcode.ErrorCodeNameUnknown
                                         (errcode.DetailError "repository unknown")) context
                     | ErrRepositoryNameInvalid =>
                         appendErrors (errcode.WithDetail errcode.ErrorCodeNameInvalid
                                         (errcode.DetailError "repository name invalid")) context
                     | ErrErrcode c d => appendErrors (errcode.WithDetail c d) context
                     | ErrOther _ => context
                     end in
                   _ ← onWriter (ServeJSON (Errors context));
                   mret (inl context)
               | None =>
                   let context := setRepository (getName context) context in
                   match applyRepoMiddleware
                           (default [] (configuration.Middleware_ (Config app) !! "repository")) with
                   | Some err =>
                       _ ← logf Error "error initializing repository middleware: %v";
                       let context :=
                         appendErrors (errcode.WithDetail errcode.ErrorCodeUnknown
                                         (errcode.DetailError err)) context in
                       _ ← onWriter (ServeJSON (Errors context));
                       mret (inl context)
                   | None => mret (inr context)
                   end
               end
           end
         else mret (inr context));
      match named with
      | inl context => mret context
      | inr context =>
          _ ← emit (DispatchCall (CurrentRoute r));
          w ← gets rw;
          let '(context, w') := dispatch context r w in
          _ ← onWriter (fun _ => w');
          mret context
      end
  end.

(** dispatcher returns a handler that constructs a request specific
    context and handler, using the dispatch factory function. The
    deferred function serves the collected errors. *)
Definition dispatcher (app : App) (dispatch : dispatchFunc) (r : Request)
  : M RS unit :=
  _ ← onWriter (withHeader (addHeaders (configuration.Headers (configuration.HTTP_ (Config app)))));
  context ← dispatcherBody app dispatch (context app r) r;
  if (0 <? length (Errors context))%nat then
    _ ← onWriter (ServeJSON (Errors context));
    logError (Errors context)
  else
    w ← gets rw;
    match wrote w with
    | Some (status, _) =>
        if (200 <=? status) && (status <=? 399)
        then logf Info "response completed" else mret tt
    | None => mret tt
    end.

(** http.NotFound, the answer for a route without a handler. *)
Definition NotFound (w : ResponseWriter) : ResponseWriter :=
  let w1 := withHeader (fun h => http.Header_Set h "Content-Type" "text/plain; charset=utf-8") w in
  let w2 := withHeader (fun h => http.Header_Set h "X-Content-Type-Options" "nosniff") w1 in
  Write (Text ("404 page not found" +:+ String "010" "")) (WriteHeader http.StatusNotFound w2).

Definition withRoute (routeName : string) (vars : gmap string string) (r : Request)
  : Request :=
  {| Method := Method r; Path := Path r; Form := Form r;
     CurrentRoute := Some routeName; Vars := vars |}.

Definition routerServeHTTP (app : App) (r : Request) : M RS unit :=
  match router app r with
  | Matched routeName vars =>
      match handlers app !! routeName with
      | Some dispatch => dispatcher app dispatch (withRoute routeName vars r)
      | None => onWriter NotFound
      end
  | Unmatched answer => onWriter answer
  end.

Definition ServeHTTP (app : App) (r : Request) : M RS unit :=
  (* Set a header with the Docker Distribution API Version for all responses. *)
  _ ← onWriter (withHeader (fun h =>
         http.Header_Add h "Docker-Distribution-API-Version" "registry/2.0"));
  routerServeHTTP app r.

(** Serving a request on a fresh response writer: the response sent and
    the events, or a panic. *)
Definition serve (app : App) (r : Request) : Res (Response * list Event) :=
  match run (ServeHTTP app r) {| rw := newResponseWriter; events := [] |} with
  | Ok (_, s) => Ok (finish (rw s), events s)
  | Panic msg => Panic msg
  end.

End Dispatch.

(** ** Construction of the application *)

(** randomSecretSize is the number of random bytes to generate if no
    secret was specified. *)
Definition randomSecretSize : nat := 32.

(** The upload purger goroutine once scheduled. *)
Record Purger := {
  purgeAgeDuration : Z;
  intervalDuration : Z;
  dryRunBool : bool
}.

(** What construction changes besides the application object: the
    configuration it was given (a pointer, written to in place), the log,
    and the goroutines it starts. *)
Record Boot := {
  cfg : configuration.Configuration;
  logs : list LogEntry;
  goroutines : list Purger
}.

Definition logB (l : Level) (msg : string) : M Boot unit :=
  modify (fun s => {| cfg := cfg s;
                      logs := logs s ++ [ {| level := l; message := msg |} ];
                      goroutines := goroutines s |}).
Definition spawn (g : Purger) : M Boot unit :=
  modify (fun s => {| cfg := cfg s; logs := logs s;
                      goroutines := goroutines s ++ [g] |}).
Definition updateConfig (f : configuration.Configuration -> configuration.Configuration)
  : M Boot unit :=
  modify (fun s => {| cfg := f (cfg s); logs := logs s; goroutines := goroutines s |}).

(** The outcome of loading one client CA for redis. *)
Inductive CAResult := CAReadError | CANotAdded | CAAdded.

(** The libraries and the rest of the repository that construction calls
    into; an [option string] result is the error returned, if any. *)
Record Env := {
  RouterWithPrefix : string -> Request -> RouteMatch;
  manifestDispatcher : dispatchFunc;
  catalogDispatcher : dispatchFunc;
  tagsDispatcher : dispatchFunc;
  blobDispatcher : dispatchFunc;
  blobUploadDispatcher : dispatchFunc;
  userAgent : string;
  Storage_Type : gmap string (gmap string configuration.Value) -> string;
  Storage_Parameters : gmap string (gmap string configuration.Value)
                       -> option (gmap string configuration.Value);
  Storage_TagParameters : gmap string (gmap string configuration.Value)
                          -> option (gmap string configuration.Value);
  factory_Create : string -> gmap string configuration.Value -> option string;
  storagemiddleware_Get : configuration.Middleware -> option string;
  rand_Read : nat -> list Byte.byte * option string;
  os_Hostname : string * option string;
  net_SplitHostPort : string -> option string;
  tls_LoadX509KeyPair : string -> string -> option string;
  loadClientCA : string -> CAResult;
  redisotel_InstrumentMetrics : option string;
  url_Parse : string -> (string * string) + string;
  regexp_Compile : string -> option regexp.Regexp;
  GetRegistryOptions : list storage.RegistryOption;
  memorycache_DefaultSize : Z;
  parseSize : configuration.Value -> option Z;
  storage_NewRegistry : list storage.RegistryOption -> option string;
  namespace_Repository : string -> option RepositoryError;
  registrymiddleware_Get : configuration.Middleware -> option string;
  auth_GetAccessController : string -> gmap string configuration.Value
                             -> AccessController + string;
  proxy_NewRegistryPullThroughCache : option string;
  implementsRepositoryRemover : bool;
  time_ParseDurationFraction : string -> option Z
}.

(** uploadPurgeDefaultConfig provides a default configuration for upload
    purging to be used in the absence of configuration in the
    configuration file. *)
Definition uploadPurgeDefaultConfig : gmap string configuration.Scalar :=
  <["dryrun" := configuration.SBool false]>
    (<["interval" := configuration.SString "24h"]>
       (<["age" := configuration.SString "168h"]>
          (<["enabled" := configuration.SBool true]> ∅))).

Definition badPurgeUploadConfig {A} (reason : string) : M Boot A :=
  panic ("Unable to parse upload purge configuration: " +:+ reason).

Fixpoint join (sep : string) (l : list string) : string :=
  match l with
  | [] => ""
  | [x] => x
  | x :: rest => x +:+ sep +:+ join sep rest
  end.

(** strings.EqualFold against a lower-case ASCII word none of whose
    letters has a fold outside ASCII. *)
Definition EqualFold (s t : string) : bool :=
  bool_decide (string_of_list_ascii (map http.toLower (list_ascii_of_string s)) = t).

Section Construction.

Variable env : Env.

(** time.ParseDuration: exact on strings without a decimal point; the
    fractional case, computed in floating point, is left to the
    library. *)
Definition ParseDuration (s : string) : option Z :=
  if existsb (Ascii.eqb ".") (list_ascii_of_string s)
  then time_ParseDurationFraction env s
  else time.parseDurationInt s.

(** startUploadPurger schedules a goroutine which will periodically
    check upload directories for old files and delete them. *)
Definition startUploadPurger (config : gmap string configuration.Scalar)
  : M Boot unit :=
  if decide (config !! "enabled" = Some (configuration.SBool false)) then mret tt
  else
    purgeAge ←
      match config !! "age" with
      | Some (configuration.SString ageStr) =>
          match ParseDuration ageStr with
          | Some d => mret d
          | None => badPurgeUploadConfig "Cannot parse duration: %s"
          end
      | Some _ => badPurgeUploadConfig "age is not a string"
      | None => badPurgeUploadConfig "age missing"
      end;
    interval ←
      match config !! "interval" with
      | Some (configuration.SString intervalStr) =>
          match ParseDuration intervalStr with
          | Some d => mret d
          | None => badPurgeUploadConfig "Cannot parse interval: %s"
          end
      | Some _ => badPurgeUploadConfig "interval is not a string"
      | None => badPurgeUploadConfig "interval missing"
      end;
    dryRun ←
      match config !! "dryrun" with
      | Some (configuration.SBool b) => mret b
      | Some _ => badPurgeUploadConfig "cannot parse dryrun"
      | None => badPurgeUploadConfig "dryrun missing"
      end;
    spawn {| purgeAgeDuration := purgeAge; intervalDuration := interval;
             dryRunBool := dryRun |}.

(** The maintenance section: the purge configuration (the defaults,
    replaced as a whole by an uploadpurging section) and the read-only
    flag. *)
Definition maintenanceConfig (st : gmap string (gmap string configuration.Value))
  : M Boot (gmap string configuration.Scalar * bool) :=
  match st !! "maintenance" with
  | None => mret (uploadPurgeDefaultConfig, false)
  | Some mc =>
      purgeConfig ←
        match mc !! "uploadpurging" with
        | None => mret uploadPurgeDefaultConfig
        | Some (configuration.VMap m) => mret m
        | Some (configuration.VScalar _) =>
            panic "uploadpurging config key must contain additional keys"
        end;
      readOnly ←
        match mc !! "readonly" with
        | None => mret false
        | Some (configuration.VMap m) =>
            match m !! "enabled" with
            | None => mret false
            | Some (configuration.SBool b) => mret b
            | Some _ => panic "readonly's enabled config key must have a boolean value"
            end
        | Some (configuration.VScalar _) =>
            panic "readonly config key must contain additional keys"
        end;
      mret (purgeConfig, readOnly)
  end.

(** applyStorageMiddleware wraps a storage driver with the configured
    middlewares. *)
Fixpoint applyStorageMiddleware (d : StorageDriver)
         (middlewares : list configuration.Middleware) : StorageDriver + string :=
  match middlewares with
  | [] => inl d
  | mw :: rest =>
      match storagemiddleware_Get env mw with
      | Some err => inr ("unable to configure storage middleware: " +:+ err)
      | None =>
          applyStorageMiddleware
            {| driverType := driverType d; driverParameters := driverParameters d;
               driverMiddleware := driverMiddleware d ++ [configuration.MwName mw] |}
            rest
      end
  end.

(** applyRegistryMiddleware wraps a registry instance with the
    configured middlewares. *)
Fixpoint applyRegistryMiddleware (n : Namespace)
         (middlewares : list configuration.Middleware) : Namespace + string :=
  match middlewares with
  | [] => inl n
  | mw :: rest =>
      match registrymiddleware_Get env mw with
      | Some err => inr ("unable to configure registry middleware: " +:+ err)
      | None =>
          applyRegistryMiddleware
            {| regOptions := regOptions n;
               regMiddleware := regMiddleware n ++ [configuration.MwName mw];
               regProxy := regProxy n; Repository_ := Repository_ n |}
            rest
      end
  end.

(** rand.Read fills the slice it is given; the array keeps its size. *)
Definition fill (buf read : list Byte.byte) : list Byte.byte :=
  take (length buf) (read ++ drop (length read) buf).

(** configureSecret creates a random secret if a secret wasn't included
    in the configuration. *)
Definition configureSecret : M Boot unit :=
  c ← gets cfg;
  if decide (configuration.Secret (configuration.HTTP_ c) = "") then
    let secretBytes := repeat Byte.x00 randomSecretSize in
    let '(read, err) := rand_Read env (length secretBytes) in
    match err with
    | Some _ => panic "could not generate random bytes for HTTP secret: %v"
    | None =>
        let secretBytes := fill secretBytes read in
        _ ← updateConfig (configuration.setSecret (string_of_list_byte secretBytes));
        logB Warn "No HTTP secret provided - generated random secret. This may cause problems with uploads if multiple registries are behind a load-balancer. To provide a shared secret, fill in http.secret in the configuration file or set the REGISTRY_HTTP_SECRET environment variable."
    end
  else mret tt.

(** configureEvents prepares the event sink for action: the sinks of the
    endpoints that are not disabled, and the source address. *)
Fixpoint endpointSinks (endpoints : list configuration.Endpoint)
  : M Boot (list string) :=
  match endpoints with
  | [] => mret []
  | endpoint :: rest =>
      if configuration.EndpointDisabled endpoint then
        _ ← logB Info "endpoint %s disabled, skipping";
        endpointSinks rest
      else
        _ ← logB Info "configuring endpoint %v (%v), timeout=%s, headers=%v";
        sinks ← endpointSinks rest;
        mret (configuration.EndpointName endpoint :: sinks)
  end.

Definition configureEvents : M Boot (list string * string) :=
  c ← gets cfg;
  sinks ← endpointSinks (configuration.NotificationsEndpoints c);
  let addr := configuration.Addr (configuration.HTTP_ c) in
  let hostname :=
    match os_Hostname env with
    | (_, Some _) => addr
    | (hostname, None) =>
        match net_SplitHostPort env addr with
        | Some port => hostname +:+ ":" +:+ port
        | None => hostname
        end
    end in
  mret (sinks, hostname).

(** The loop over the client CAs of configureRedis: [false] when the
    function returns early. *)
Fixpoint loadClientCAs (cas : list string) : M Boot bool :=
  match cas with
  | [] => mret true
  | ca :: rest =>
      match loadClientCA env ca with
      | CAReadError => _ ← logB Error "failed reading redis client CA: %v"; mret false
      | CANotAdded => _ ← logB Error "could not add CA to pool"; mret false
      | CAAdded => loadClientCAs rest
      end
  end.

(** configureRedis: the result tells whether app.redis was set. *)
Definition configureRedis : M Boot bool :=
  c ← gets cfg;
  let rc := configuration.Redis_ c in
  if (length (configuration.RedisAddrs rc) =? 0)%nat then
    _ ← logB Info "redis not configured"; mret false
  else
    tlsOk ←
      (if negb (bool_decide (configuration.RedisTLSCertificate rc = ""))
          || negb (bool_decide (configuration.RedisTLSKey rc = "")) then
         match tls_LoadX509KeyPair env (configuration.RedisTLSCertificate rc)
                                   (configuration.RedisTLSKey rc) with
         | Some err => panic err
         | None =>
             if negb (length (configuration.RedisTLSClientCAs rc) =? 0)%nat
             then loadClientCAs (configuration.RedisTLSClientCAs rc)
             else mret true
         end
       else (mret true : M Boot bool));
    if (tlsOk : bool) then
      _ ← match redisotel_InstrumentMetrics env with
          | Some _ => logB Error "failed to instrument metrics on redis: %v"
          | None => mret tt
          end;
      mret true
    else mret false.

(** The loop over an allow or deny list: each pattern is validated via
    compilation and wrapped with a non-capturing group. *)
Fixpoint wrapPatterns (field : string) (patterns : list string)
  : M Boot (list string) :=
  match patterns with
  | [] => mret []
  | s :: rest =>
      match regexp_Compile env s with
      | None => panic (field +:+ ": error parsing regexp")
      | Some _ =>
          wrapped ← wrapPatterns field rest;
          mret (("(?:" +:+ s +:+ ")") :: wrapped)
      end
  end.

Definition MustCompile (pattern : string) : M Boot regexp.Regexp :=
  match regexp_Compile env pattern with
  | Some re => mret re
  | None => panic ("regexp: Compile(" +:+ pattern +:+ "): error parsing regexp")
  end.

(** The validation part of NewApp: the enabled flag, the URL policy and
    the image index options. *)
Definition configureValidation (options : list storage.RegistryOption)
  : M Boot (list storage.RegistryOption) :=
  c ← gets cfg;
  let v := configuration.Validation_ c in
  _ ← (if negb (configuration.Enabled v) then
         updateConfig (configuration.setValidation
                         (configuration.setEnabled (negb (configuration.Disabled v)) v))
       else mret tt);
  c ← gets cfg;
  let v := configuration.Validation_ c in
  if configuration.Enabled v then
    options ←
      (if (length (configuration.ManifestsURLsAllow v) =? 0)%nat
          && (length (configuration.ManifestsURLsDeny v) =? 0)%nat then
         (* If Allow and Deny are empty, allow nothing: MustCompile("^$"). *)
         mret (options ++ [storage.ManifestURLsAllowRegexp
                             (regexp.Concat regexp.BeginText regexp.EndText)])
       else
         options ←
           (if (0 <? length (configuration.ManifestsURLsAllow v))%nat then
              wrapped ← wrapPatterns "validation.manifests.urls.allow"
                                     (configuration.ManifestsURLsAllow v);
              _ ← updateConfig (fun c => configuration.setValidation
                     (configuration.setAllow wrapped (configuration.Validation_ c)) c);
              re ← MustCompile (join "|" wrapped);
              mret (options ++ [storage.ManifestURLsAllowRegexp re])
            else mret options);
         if (0 <? length (configuration.ManifestsURLsDeny v))%nat then
           wrapped ← wrapPatterns "validation.manifests.urls.deny"
                                  (configuration.ManifestsURLsDeny v);
           _ ← updateConfig (fun c => configuration.setValidation
                  (configuration.setDeny wrapped (configuration.Validation_ c)) c);
           re ← MustCompile (join "|" wrapped);
           mret (options ++ [storage.ManifestURLsDenyRegexp re])
         else mret options);
    let platforms := configuration.ManifestsIndexesPlatforms v in
    let warning := "Image index completeness validation has been disabled, which is an experimental option because other container tooling might expect all image indexes to be complete" in
    if decide (platforms = "list") then
      _ ← logB Warn warning;
      mret (options ++ [storage.EnableValidateImageIndexImagesExist]
              ++ map (fun platform =>
                        storage.AddValidateImageIndexImagesExistPlatform
                          (configuration.Architecture platform) (configuration.OS platform))
                     (configuration.ManifestsIndexesPlatformList v))
    else if decide (platforms = "none") then
      _ ← logB Warn warning;
      mret options
    else
      mret (options ++ [storage.EnableValidateImageIndexImagesExist])
  else mret options.

Definition NewRegistry (options : list storage.RegistryOption) : M Boot Namespace :=
  match storage_NewRegistry env options with
  | Some err => panic ("could not create registry: " +:+ err)
  | None =>
      mret {| regOptions := options; regMiddleware := []; regProxy := None;
              Repository_ := namespace_Repository env |}
  end.

(** The storage cache part of NewApp: the registry it creates, if any. *)
Definition configureCache (st : gmap string (gmap string configuration.Value))
           (hasRedis : bool) (options : list storage.RegistryOption)
  : M Boot (option Namespace) :=
  match st !! "cache" with
  | None => mret None
  | Some cc =>
      let v := match cc !! "blobdescriptor" with
               | Some v => Some v
               | None => cc !! "layerinfo"   (* Backwards compatible *)
               end in
      match v with
      | Some (configuration.VScalar (configuration.SString kind)) =>
          if decide (kind = "redis") then
            if negb hasRedis then
              panic "redis configuration required to use for layerinfo cache"
            else
              _ ← match cc !! "blobdescriptorsize" with
                  | Some _ => logB Warn "blobdescriptorsize parameter is not supported with redis cache"
                  | None => mret tt
                  end;
              let localOptions :=
                options ++ [storage.BlobDescriptorCacheProvider
                              storage.RedisBlobDescriptorCacheProvider] in
              n ← NewRegistry localOptions;
              _ ← logB Info "using redis blob descriptor cache";
              mret (Some n)
          else if decide (kind = "inmemory") then
            blobDescriptorSize ←
              match cc !! "blobdescriptorsize" with
              | Some configuredSize =>
                  match parseSize env configuredSize with
                  | Some n => mret n
                  | None => panic "invalid blobdescriptorsize value"
                  end
              | None => mret (memorycache_DefaultSize env)
              end;
            let localOptions :=
              options ++ [storage.BlobDescriptorCacheProvider
                            (storage.InMemoryBlobDescriptorCacheProvider blobDescriptorSize)] in
            n ← NewRegistry localOptions;
            _ ← logB Info "using inmemory blob descriptor cache";
            mret (Some n)
          else if decide (kind = "") then mret None
          else
            _ ← logB Warn "unknown cache type %q, caching disabled";
            mret None
      | _ =>
          _ ← logB Warn "unknown cache type %q, caching disabled";
          mret None
      end
  end.

(** The handlers NewApp registers, by route name. *)
Definition registered : gmap string dispatchFunc :=
  <[v2.RouteNameBlobUploadChunk := blobUploadDispatcher env]>
    (<[v2.RouteNameBlobUpload := blobUploadDispatcher env]>
       (<[v2.RouteNameBlob := blobDispatcher env]>
          (<[v2.RouteNameTags := tagsDispatcher env]>
             (<[v2.RouteNameCatalog := catalogDispatcher env]>
                (<[v2.RouteNameManifest := manifestDispatcher env]>
                   (<[v2.RouteNameBase := (fun ctx _ w => (ctx, apiBase w))]> ∅)))))).

(** The storage driver of NewApp; the user agent of the registry
    replaces an empty useragent parameter. *)
Definition createDriver (st : gmap string (gmap string configuration.Value))
  : M Boot StorageDriver :=
  let storageParams := default ∅ (Storage_Parameters env st) in
  let storageParams :=
    match storageParams !! "useragent" with
    | Some (configuration.VScalar (configuration.SString "")) =>
        <["useragent" := configuration.VScalar (configuration.SString (userAgent env))]> storageParams
    | _ => storageParams
    end in
  match factory_Create env (Storage_Type env st) storageParams with
  | Some err => panic err
  | None => mret {| driverType := Storage_Type env st;
                    driverParameters := storageParams;
                    driverMiddleware := [] |}
  end.

(** The http.host parameter of NewApp: scheme and host of the parsed
    URL. *)
Definition parseHost (host : string) : M Boot (string * string) :=
  if negb (bool_decide (host = "")) then
    match url_Parse env host with
    | inr _ => panic "could not parse http host parameter: %v"
    | inl u => mret u
    end
  else mret (EmptyString, EmptyString).

(** The first options of NewApp: those of the registry middleware, no
    digest resumption for a pull through cache, deletion if enabled. *)
Definition baseOptions (isCache : bool)
           (st : gmap string (gmap string configuration.Value))
  : list storage.RegistryOption :=
  let options := GetRegistryOptions env in
  let options := if isCache then options ++ [storage.DisableDigestResumption] else options in
  (* configure deletion *)
  match st !! "delete" with
  | Some d =>
      match d !! "enabled" with
      | Some (configuration.VScalar (configuration.SBool true)) =>
          options ++ [storage.EnableDelete]
      | _ => options
      end
  | None => options
  end.

(** configure tag lookup concurrency limit *)
Definition tagOptions (st : gmap string (gmap string configuration.Value))
           (options : list storage.RegistryOption)
  : M Boot (list storage.RegistryOption) :=
  match Storage_TagParameters env st with
  | Some p =>
      match p !! "concurrencylimit" with
      | Some (configuration.VScalar (configuration.SInt limit)) =>
          if limit <? 0 then
            panic "tag lookup concurrency limit should be a non-negative integer value"
          else mret (options ++ [storage.TagLookupConcurrencyLimit limit])
      | Some _ => panic "tag lookup concurrency limit config key must have a integer value"
      | None => mret options
      end
  | None => mret options
  end.

(** configure redirects *)
Definition redirectOptions (st : gmap string (gmap string configuration.Value))
           (options : list storage.RegistryOption)
  : M Boot (list storage.RegistryOption) :=
  redirectDisabled ←
    match st !! "redirect" with
    | Some redirectConfig =>
        match redirectConfig !! "disable" with
        | Some (configuration.VScalar (configuration.SBool v)) => mret v
        | _ => panic "invalid type for redirect config: %#v"
        end
    | None => mret false
    end;
  if (redirectDisabled : bool) then
    _ ← logB Info "backend redirection disabled"; mret options
  else mret (options ++ [storage.EnableRedirect]).

(** The registry of NewApp: the one created with the cache provider, or
    else the one created from the options alone; then the registry
    middlewares. *)
Definition createRegistry (config : configuration.Configuration) (hasRedis : bool)
           (options : list storage.RegistryOption) : M Boot Namespace :=
  cached ← configureCache (configuration.Storage_ config) hasRedis options;
  n ← match cached with
      | Some n => mret n
      | None => NewRegistry options
      end;
  match applyRegistryMiddleware n
          (default [] (configuration.Middleware_ config !! "registry")) with
  | inr err => panic err
  | inl n => mret n
  end.

(** The access controller of NewApp, unless the type is empty or none. *)
Definition configureAuth (config : configuration.Configuration)
  : M Boot (option AccessController) :=
  let authType := configuration.AuthType (configuration.Auth_ config) in
  if negb (bool_decide (authType = "")) && negb (EqualFold authType "none") then
    match auth_GetAccessController env authType
            (configuration.AuthParameters (configuration.Auth_ config)) with
    | inr _ => panic "unable to configure authorization (%s): %v"
    | inl controller =>
        _ ← logB Debug "configured %q access controller";
        mret (Some controller)
    end
  else mret None.

(** configure as a pull through cache *)
Definition configureProxy (config : configuration.Configuration) (n : Namespace)
  : M Boot Namespace :=
  if negb (bool_decide (configuration.RemoteURL (configuration.Proxy_ config) = "")) then
    match proxy_NewRegistryPullThroughCache env with
    | Some err => panic err
    | None =>
        _ ← logB Info "Registry configured as a proxy cache to ";
        mret {| regOptions := regOptions n; regMiddleware := regMiddleware n;
                regProxy := Some (configuration.RemoteURL (configuration.Proxy_ config));
                Repository_ := Repository_ n |}
    end
  else mret n.

(** NewApp takes a configuration and returns a configured app, ready to
    serve requests. The handlers are registered without the optional
    metrics instrumentation, and the mail hooks of configureLogHook are
    left out: neither is observable in this model. *)
Definition NewApp : M Boot App :=
  config ← gets cfg;
  let st := configuration.Storage_ config in
  let isCache := negb (bool_decide (configuration.RemoteURL (configuration.Proxy_ config) = "")) in
  d ← createDriver st;
  '(purgeConfig, appReadOnly) ← maintenanceConfig st;
  _ ← startUploadPurger purgeConfig;
  d ← match applyStorageMiddleware d (default [] (configuration.Middleware_ config !! "storage")) with
      | inr err => panic err
      | inl d => mret d
      end;
  (* Do not configure HTTP secret for a proxy registry as HTTP secret
     is only used for blob uploads and a proxy registry does not support
     blob uploads. *)
  _ ← (if negb isCache then configureSecret else mret tt);
  '(sinks, source) ← configureEvents;
  hasRedis ← configureRedis;
  host ← parseHost (configuration.Host (configuration.HTTP_ config));
  options ← tagOptions st (baseOptions isCache st);
  options ← redirectOptions st options;
  options ← configureValidation options;
  n ← createRegistry config hasRedis options;
  controller ← configureAuth config;
  n ← configureProxy config n;
  _ ← (if implementsRepositoryRemover env then mret tt
       else logB Warn "Registry does not implement RepositoryRemover. Will not be able to delete repos and tags");
  final ← gets cfg;
  mret {| Config := final;
          router := RouterWithPrefix env (configuration.Prefix (configuration.HTTP_ config));
          handlers := registered;
          driver := d; registry := n;
          repoRemover := implementsRepositoryRemover env;
          accessController := controller; httpHost := host;
          eventsSink := sinks; eventsSource := source;
          redis := hasRedis; isCache := isCache; readOnly := appReadOnly |}.

End Construction.

(** ** The upload purger goroutine *)

(** What the goroutine does, in order. *)
Inductive Action :=
| LogInfo (msg : string)
| Sleep (d : Z)
| PurgeUploads (olderThan : Z) (actuallyDelete : bool).



Section PurgerRun.

(** rand.Int(rand.Reader, max): the value and the error returned. *)
Variable rand_Int : Z -> Z * option string.
(** time.Now() at the k-th pass of the loop, in nanoseconds. *)
Variable now : nat -> Z.





End PurgerRun.

(** ** Health checks *)

(** defaultCheckInterval is the default time in between health checks *)
Definition defaultCheckInterval : Z := 10 * time.Second.

(** The health section of the configuration (app.Config.Health). *)
Module healthcfg.

Record StorageDriver := {
  SDEnabled : bool;
  SDInterval : Z;
  SDThreshold : Z
}.

Record FileChecker := { FileInterval : Z; File : string }.

Record HTTPChecker := {
  HTTPTimeout : Z;
  HTTPStatusCode : Z;
  HTTPInterval : Z;
  URI : string;
  HTTPHeaders : list (string * list string);
  HTTPThreshold : Z
}.

Record TCPChecker := {
  TCPTimeout : Z;
  TCPInterval : Z;
  TCPAddr : string;
  TCPThreshold : Z
}.

Record Health := {
  StorageDriver_ : StorageDriver;
  FileCheckers : list FileChecker;
  HTTPCheckers : list HTTPChecker;
  TCPCheckers : list TCPChecker
}.

End healthcfg.

(** The registry the checks are registered with. *)
Inductive HealthRegistry :=
| DefaultRegistry
| GivenRegistry (id : nat).

(** health.NewStatusUpdater and health.NewThresholdStatusUpdater. *)
Inductive Updater :=
| NewStatusUpdater
| NewThresholdStatusUpdater (threshold : Z).

(** The checks: the storage driver check of RegisterHealthChecks and
    those of package checks. *)
Inductive Checker :=
| storageDriverCheck
| FileChecker (file : string)
| HTTPChecker (uri : string) (statusCode : Z) (timeout : Z)
              (headers : list (string * list string))
| TCPChecker (addr : string) (timeout : Z).

(** A goroutine started with [go health.Poll(app, updater, checker, interval)]. *)
Record Poll := {
  pollUpdater : Updater;
  pollChecker : Checker;
  pollInterval : Z
}.

Record HS := {
  registrations : list (HealthRegistry * string * Updater);
  polls : list Poll;
  healthLogs : list LogEntry
}.

(** The error of driver.Stat as the storage driver check tells them
    apart. *)
Inductive StatError :=
| PathNotFoundError
| OtherStatError (msg : string).

(** The storage driver check: a missing path passes, the backend is
    responding; any other error is logged and returned. *)
Definition runStorageDriverCheck (stat : option StatError) : option string * list LogEntry :=
  match stat with
  | None => (None, [])
  | Some PathNotFoundError => (None, [])
  | Some (OtherStatError msg) =>
      (Some msg, [ {| level := Error; message := "storage driver health check: %v" |} ])
  end.

Fixpoint forEach {S A} (l : list A) (body : A -> M S unit) : M S unit :=
  match l with
  | [] => mret tt
  | x :: rest => _ ← body x; forEach rest body
  end.

Section Health.

Variable env : Env.

(** The Register method of health.Registry is not part of the sources at hand; it
    may panic, depending on what is registered already. *)
Variable Register_panics :
  list (HealthRegistry * string * Updater) -> HealthRegistry -> string -> option string.

Definition Register (healthRegistry : HealthRegistry) (name : string) (updater : Updater)
  : M HS unit :=
  registered ← gets registrations;
  match Register_panics registered healthRegistry name with
  | Some msg => panic msg
  | None =>
      modify (fun s => {| registrations := registrations s ++ [(healthRegistry, name, updater)];
                          polls := polls s; healthLogs := healthLogs s |})
  end.

Definition goPoll (updater : Updater) (checker : Checker) (interval : Z) : M HS unit :=
  modify (fun s => {| registrations := registrations s;
                      polls := polls s ++ [ {| pollUpdater := updater; pollChecker := checker;
                                               pollInterval := interval |} ];
                      healthLogs := healthLogs s |}).

Definition logH (l : Level) (msg : string) : M HS unit :=
  modify (fun s => {| registrations := registrations s; polls := polls s;
                      healthLogs := healthLogs s ++ [ {| level := l; message := msg |} ] |}).

(** RegisterHealthChecks registers the health checks of the
    configuration and starts their pollers. *)
Definition RegisterHealthChecks (health : healthcfg.Health) (app : App)
           (healthRegistries : list HealthRegistry) : M HS unit :=
  if (1 <? length healthRegistries)%nat then
    panic "RegisterHealthChecks called with more than one registry"
  else
    let healthRegistry :=
      match healthRegistries with
      | [r] => r
      | _ => DefaultRegistry
      end in
    _ ← (let sd := healthcfg.StorageDriver_ health in
         if healthcfg.SDEnabled sd then
           let interval := healthcfg.SDInterval sd in
           let interval := if decide (interval = 0) then defaultCheckInterval else interval in
           let updater := NewThresholdStatusUpdater (healthcfg.SDThreshold sd) in
           _ ← Register healthRegistry
                 ("storagedriver_" +:+ Storage_Type env (configuration.Storage_ (Config app)))
                 updater;
           goPoll updater storageDriverCheck interval
         else mret tt);
    _ ← forEach (healthcfg.FileCheckers health) (fun fileChecker =>
           let interval := healthcfg.FileInterval fileChecker in
           let interval := if decide (interval = 0) then defaultCheckInterval else interval in
           _ ← logH Info "configuring file health check path=%s, interval=%d";
           let u := NewStatusUpdater in
           _ ← Register healthRegistry (healthcfg.File fileChecker) u;
           goPoll u (FileChecker (healthcfg.File fileChecker)) interval);
    _ ← forEach (healthcfg.HTTPCheckers health) (fun httpChecker =>
           let interval := healthcfg.HTTPInterval httpChecker in
           let interval := if decide (interval = 0) then defaultCheckInterval else interval in
           let statusCode := healthcfg.HTTPStatusCode httpChecker in
           let statusCode := if decide (statusCode = 0) then 200 else statusCode in
           let checker := HTTPChecker (healthcfg.URI httpChecker) statusCode
                                      (healthcfg.HTTPTimeout httpChecker)
                                      (healthcfg.HTTPHeaders httpChecker) in
           _ ← logH Info "configuring HTTP health check uri=%s, interval=%d, threshold=%d";
           let updater := NewThresholdStatusUpdater (healthcfg.HTTPThreshold httpChecker) in
           _ ← Register healthRegistry (healthcfg.URI httpChecker) updater;
           goPoll updater checker interval);
    forEach (healthcfg.TCPCheckers health) (fun tcpChecker =>
      let interval := healthcfg.TCPInterval tcpChecker in
      let interval := if decide (interval = 0) then defaultCheckInterval else interval in
      let checker := TCPChecker (healthcfg.TCPAddr tcpChecker)
                                (healthcfg.TCPTimeout tcpChecker) in
      _ ← logH Info "configuring TCP health check addr=%s, interval=%d, threshold=%d";
      let updater := NewThresholdStatusUpdater (healthcfg.TCPThreshold tcpChecker) in
      _ ← Register healthRegistry (healthcfg.TCPAddr tcpChecker) updater;
      goPoll updater checker interval).

End Health.

(** * Vocabulary of the properties *)

(** Partial correctness: the postcondition holds of the result whenever the
    computation does not panic. Total correctness: it does not panic
    either. *)
Definition wp {S A} (m : M S A) (Q : A -> S -> Prop) (s : S) : Prop :=
  match run m s with
  | Ok (a, s') => Q a s'
  | Panic _ => True
  end.

Definition twp {S A} (m : M S A) (Q : A -> S -> Prop) (s : S) : Prop :=
  match run m s with
  | Ok (a, s') => Q a s'
  | Panic _ => False
  end.

Definition isOk {A} (r : Res A) : bool :=
  match r with Ok _ => true | Panic _ => false end.

(** The headers of a response before the handler chain touches them: the
    API version, then the headers of the configuration. *)
Definition initialHeader (app : App) : http.Header :=
  addHeaders (configuration.Headers (configuration.HTTP_ (Config app)))
    (http.Header_Add ∅ "Docker-Distribution-API-Version" "registry/2.0").

Definition carriesAPIVersion (h : http.Header) : Prop :=
  http.Header_Get h "Docker-Distribution-API-Version" = "registry/2.0".

(** The header map carries the API version, and so do the headers already
    sent, if any. *)
Definition keepsAPIVersion (w : ResponseWriter) : Prop :=
  carriesAPIVersion (Header w)
  /\ forall code h, wrote w = Some (code, h) -> carriesAPIVersion h.

(** Code outside app.go that gets hold of the response: the handlers of
    the routes and the challenges of the access controller. *)
Definition handlerKeeps (d : dispatchFunc) : Prop :=
  forall ctx r w, keepsAPIVersion w -> keepsAPIVersion (d ctx r w).2.

Definition challengesKeep (app : App) : Prop :=
  forall controller r recs g c,
    accessController app = Some controller ->
    controller r recs = (g, Some (IsChallenge c)) ->
    forall h, carriesAPIVersion h -> carriesAPIVersion (SetHeaders c r h).

(** The compiled form of the pattern [^$]. *)
Definition emptyOnly : regexp.Regexp := regexp.Concat regexp.BeginText regexp.EndText.

Definition isURLOption (o : storage.RegistryOption) : bool :=
  match o with
  | storage.ManifestURLsAllowRegexp _ | storage.ManifestURLsDenyRegexp _ => true
  | _ => false
  end.

Definition pureOptions (o : list storage.RegistryOption) : Prop :=
  forallb (fun o => negb (isURLOption o)) o = true.

(** The validation flag as NewApp recomputes it. *)
Definition effective (v : configuration.Validation) : bool :=
  configuration.Enabled v || negb (configuration.Disabled v).

Definition secretWarning : LogEntry :=
  {| level := Warn;
     message := "No HTTP secret provided - generated random secret. This may cause problems with uploads if multiple registries are behind a load-balancer. To provide a shared secret, fill in http.secret in the configuration file or set the REGISTRY_HTTP_SECRET environment variable." |}.

(** The secret made of the bytes that rand.Read delivered. *)
Definition generatedSecret (read : list Byte.byte) : string :=
  string_of_list_byte (fill (repeat Byte.x00 randomSecretSize) read).


(** The state changes only by log entries. *)
Definition logsOnly (s s' : Boot) : Prop :=
  cfg s' = cfg s /\ goroutines s' = goroutines s /\ exists l, logs s' = logs s ++ l.

(** What startUploadPurger does to the goroutines, by the purge
    configuration. *)
Definition startedPurger (env : Env) (purgeConfig : gmap string configuration.Scalar)
           (before after : list Purger) : Prop :=
  (purgeConfig !! "enabled" = Some (configuration.SBool false) -> after = before)
  /\ (purgeConfig !! "enabled" <> Some (configuration.SBool false) ->
      exists ageStr intervalStr age interval dryRun,
        purgeConfig !! "age" = Some (configuration.SString ageStr)
        /\ ParseDuration env ageStr = Some age
        /\ purgeConfig !! "interval" = Some (configuration.SString intervalStr)
        /\ ParseDuration env intervalStr = Some interval
        /\ purgeConfig !! "dryrun" = Some (configuration.SBool dryRun)
        /\ after = before ++ [ {| purgeAgeDuration := age;
                                  intervalDuration := interval;
                                  dryRunBool := dryRun |} ]).

(** The purge configuration NewApp hands to startUploadPurger: the
    uploadpurging section of storage.maintenance, which has to be a map,
    and the defaults where there is none. *)
Definition purgeConfigured (st : gmap string (gmap string configuration.Value))
           (purgeConfig : gmap string configuration.Scalar) : Prop :=
  match st !! "maintenance" with
  | Some mc =>
      match mc !! "uploadpurging" with
      | Some v => v = configuration.VMap purgeConfig
      | None => purgeConfig = uploadPurgeDefaultConfig
      end
  | None => purgeConfig = uploadPurgeDefaultConfig
  end.

(** What a successful NewApp establishes, from the state it started in. *)
Definition NewApp_post (env : Env) (s : Boot) (app : App) (s' : Boot) : Prop :=
  let c := cfg s in
  let v := configuration.Validation_ c in
  let proxy := negb (bool_decide (configuration.RemoteURL (configuration.Proxy_ c) = "")) in
  Config app = cfg s'
  /\ isCache app = proxy
  /\ configuration.Enabled (configuration.Validation_ (cfg s')) = effective v
  /\ configuration.Disabled (configuration.Validation_ (cfg s')) = configuration.Disabled v
  /\ (if proxy then configuration.HTTP_ (cfg s') = configuration.HTTP_ c
      else if decide (configuration.Secret (configuration.HTTP_ c) = "") then
             exists read,
               rand_Read env randomSecretSize = (read, None)
               /\ configuration.HTTP_ (cfg s')
                  = configuration.HTTP_ (configuration.setSecret (generatedSecret read) c)
               /\ In secretWarning (logs s')
           else configuration.HTTP_ (cfg s') = configuration.HTTP_ c)
  /\ (exists pre post,
         regOptions (registry app) = pre ++ post
         /\ (proxy = true -> In storage.DisableDigestResumption pre)
         /\ (effective v = true ->
             configuration.ManifestsURLsAllow v = [] ->
             configuration.ManifestsURLsDeny v = [] ->
             exists post',
               post = storage.ManifestURLsAllowRegexp emptyOnly :: post'
               /\ pureOptions post'))
  /\ (exists purgeConfig,
         purgeConfigured (configuration.Storage_ c) purgeConfig
         /\ startedPurger env purgeConfig (goroutines s) (goroutines s')).

(** ** Vocabulary of the request path *)

(** The access records authorized assembles for a request on the
    repository [name]; without a name, those of the base or catalog
    route. *)
Definition requestRecords (r : Request) (name : string) : list auth.Access :=
  if decide (name <> "") then
    let accessRecords := appendAccessRecords [] (Method r) name in
    if decide (FormValue r "from" <> "") then
      appendAccessRecords accessRecords http.MethodGet (FormValue r "from")
    else accessRecords
  else default [] (appendCatalogAccessRecord [] r).

(** The request passes authorization: there is no access controller, or
    the controller grants the records of the request. *)
Definition passes (app : App) (r : Request) (name : string) : Prop :=
  match accessController app with
  | None => True
  | Some controller =>
      exists grant, controller r (requestRecords r name) = (Some grant, None)
  end.

(** The context as a passed authorization leaves it. *)
Definition authorizedContext (app : App) (r : Request) (ctx : Context) : Context :=
  match accessController app with
  | None => ctx
  | Some controller =>
      match controller r (requestRecords r (getName ctx)) with
      | (Some grant, None) => setGrant grant ctx
      | _ => ctx
      end
  end.

(** The callouts of a request that reached the access controller. *)
Definition consulted (app : App) (r : Request) (name : string)
  : list (list auth.Access) :=
  match accessController app with
  | None => []
  | Some _ => [requestRecords r name]
  end.

(** The writer the dispatcher starts from. *)
Definition initialWriter (app : App) : ResponseWriter :=
  {| Header := initialHeader app; wrote := None; body := [] |}.

(** What the deferred function of the dispatcher makes of the response:
    the errors of the context, if any, are served. *)
Definition deferred (ctx : Context) (w : ResponseWriter) : ResponseWriter :=
  match Errors ctx with
  | [] => w
  | _ :: _ => ServeJSON (Errors ctx) w
  end.

(** Events that are log entries only. *)
Definition quiet (evs : list Event) : Prop :=
  callouts evs = [] /\ dispatches evs = [] /\ lookups evs = [].

(** ** Vocabulary of the construction *)

(** The purge configuration NewApp passes to startUploadPurger. *)
Definition purgeSection (st : gmap string (gmap string configuration.Value))
  : gmap string configuration.Scalar :=
  match st !! "maintenance" with
  | Some mc =>
      match mc !! "uploadpurging" with
      | Some (configuration.VMap m) => m
      | _ => uploadPurgeDefaultConfig
      end
  | None => uploadPurgeDefaultConfig
  end.

(** storage.maintenance.readonly.enabled is the boolean true. *)
Definition readOnlyEnabled (st : gmap string (gmap string configuration.Value)) : Prop :=
  exists mc m,
    st !! "maintenance" = Some mc
    /\ mc !! "readonly" = Some (configuration.VMap m)
    /\ m !! "enabled" = Some (configuration.SBool true).

(** A pattern wrapped with a non-capturing group. *)
Definition wrapPattern (s : string) : string := "(?:" +:+ s +:+ ")".

(** The value that selects the blob descriptor cache. *)
Definition cacheKind (st : gmap string (gmap string configuration.Value))
  : option configuration.Value :=
  match st !! "cache" with
  | Some cc =>
      match cc !! "blobdescriptor" with
      | Some v => Some v
      | None => cc !! "layerinfo"
      end
  | None => None
  end.

(** The parts of the configuration that construction never writes. The
    storage section is left out: its parameters map is the one the user
    agent is written into. *)
Definition configFrame (c c' : configuration.Configuration) : Prop :=
  configuration.Proxy_ c' = configuration.Proxy_ c
  /\ configuration.Middleware_ c' = configuration.Middleware_ c
  /\ configuration.Auth_ c' = configuration.Auth_ c
  /\ configuration.NotificationsEndpoints c' = configuration.NotificationsEndpoints c
  /\ configuration.Redis_ c' = configuration.Redis_ c
  /\ configuration.LogHooks c' = configuration.LogHooks c
  /\ configuration.Addr (configuration.HTTP_ c') = configuration.Addr (configuration.HTTP_ c)
  /\ configuration.Prefix (configuration.HTTP_ c') = configuration.Prefix (configuration.HTTP_ c)
  /\ configuration.Host (configuration.HTTP_ c') = configuration.Host (configuration.HTTP_ c)
  /\ configuration.RelativeURLs (configuration.HTTP_ c')
     = configuration.RelativeURLs (configuration.HTTP_ c)
  /\ configuration.Headers (configuration.HTTP_ c') = configuration.Headers (configuration.HTTP_ c)
  /\ configuration.Disabled (configuration.Validation_ c')
     = configuration.Disabled (configuration.Validation_ c)
  /\ configuration.ManifestsIndexesPlatforms (configuration.Validation_ c')
     = configuration.ManifestsIndexesPlatforms (configuration.Validation_ c)
  /\ configuration.ManifestsIndexesPlatformList (configuration.Validation_ c')
     = configuration.ManifestsIndexesPlatformList (configuration.Validation_ c).

(** app.redis is set: there are addresses, and the client CAs, read only
    when a certificate or a key is configured, were all added. *)
Definition redisConfigured (env : Env) (rc : configuration.Redis) : Prop :=
  configuration.RedisAddrs rc <> []
  /\ ((configuration.RedisTLSCertificate rc = "" /\ configuration.RedisTLSKey rc = "")
      \/ Forall (fun ca => loadClientCA env ca = CAAdded) (configuration.RedisTLSClientCAs rc)).

(** The option of a non-empty allow or deny list: every pattern compiles
    and the option holds the alternation of the wrapped patterns. *)
Definition urlOption (env : Env) (patterns : list string)
           (mk : regexp.Regexp -> storage.RegistryOption)
           (opts : list storage.RegistryOption) : Prop :=
  match patterns with
  | [] => opts = []
  | _ :: _ =>
      Forall (fun p => regexp_Compile env p <> None) patterns
      /\ exists re,
          regexp_Compile env (join "|" (map wrapPattern patterns)) = Some re
          /\ opts = [mk re]
  end.

Definition urlOptions (env : Env) (v : configuration.Validation)
           (opts : list storage.RegistryOption) : Prop :=
  match configuration.ManifestsURLsAllow v, configuration.ManifestsURLsDeny v with
  | [], [] => opts = [storage.ManifestURLsAllowRegexp emptyOnly]
  | allow, deny =>
      exists a d,
        opts = a ++ d
        /\ urlOption env allow storage.ManifestURLsAllowRegexp a
        /\ urlOption env deny storage.ManifestURLsDenyRegexp d
  end.

(** The image index options, by validation.manifests.indexes.platforms. *)
Definition indexOptions (v : configuration.Validation) : list storage.RegistryOption :=
  if decide (configuration.ManifestsIndexesPlatforms v = "list") then
    storage.EnableValidateImageIndexImagesExist
    :: map (fun platform =>
              storage.AddValidateImageIndexImagesExistPlatform
                (configuration.Architecture platform) (configuration.OS platform))
           (configuration.ManifestsIndexesPlatformList v)
  else if decide (configuration.ManifestsIndexesPlatforms v = "none") then []
  else [storage.EnableValidateImageIndexImagesExist].

(** The options of the validation section. *)
Definition validationOptions (env : Env) (v : configuration.Validation)
           (opts : list storage.RegistryOption) : Prop :=
  if effective v then exists urls, opts = urls ++ indexOptions v /\ urlOptions env v urls
  else opts = [].

(** The option of storage.tag.concurrencylimit. *)
Definition tagOption (env : Env) (st : gmap string (gmap string configuration.Value))
           (opts : list storage.RegistryOption) : Prop :=
  (opts = []
   /\ forall p, Storage_TagParameters env st = Some p -> p !! "concurrencylimit" = None)
  \/ exists p limit,
      Storage_TagParameters env st = Some p
      /\ p !! "concurrencylimit" = Some (configuration.VScalar (configuration.SInt limit))
      /\ 0 <= limit
      /\ opts = [storage.TagLookupConcurrencyLimit limit].

(** storage.redirect.disable is the boolean true. *)
Definition redirectDisabled (st : gmap string (gmap string configuration.Value)) : Prop :=
  exists rc, st !! "redirect" = Some rc
             /\ rc !! "disable" = Some (configuration.VScalar (configuration.SBool true)).

Definition redirectOption (st : gmap string (gmap string configuration.Value))
           (opts : list storage.RegistryOption) : Prop :=
  (opts = [] /\ redirectDisabled st)
  \/ (opts = [storage.EnableRedirect]
      /\ (st !! "redirect" = None
          \/ exists rc, st !! "redirect" = Some rc
                        /\ rc !! "disable"
                           = Some (configuration.VScalar (configuration.SBool false)))).

(** The cache provider option, by the kind of cache. *)
Definition cacheOption (env : Env) (st : gmap string (gmap string configuration.Value))
           (hasRedis : bool) (opts : list storage.RegistryOption) : Prop :=
  let kind := cacheKind st in
  (kind = Some (configuration.VScalar (configuration.SString "redis")) ->
   hasRedis = true
   /\ opts = [storage.BlobDescriptorCacheProvider storage.RedisBlobDescriptorCacheProvider])
  /\ (kind = Some (configuration.VScalar (configuration.SString "inmemory")) ->
      exists size,
        opts = [storage.BlobDescriptorCacheProvider
                  (storage.InMemoryBlobDescriptorCacheProvider size)]
        /\ forall cc, st !! "cache" = Some cc ->
                      match cc !! "blobdescriptorsize" with
                      | Some configuredSize => parseSize env configuredSize = Some size
                      | None => size = memorycache_DefaultSize env
                      end)
  /\ (kind <> Some (configuration.VScalar (configuration.SString "redis")) ->
      kind <> Some (configuration.VScalar (configuration.SString "inmemory")) ->
      opts = []).

(** The storage driver as NewApp leaves it. *)
Definition builtDriver (env : Env) (c : configuration.Configuration) (d : StorageDriver)
  : Prop :=
  let st := configuration.Storage_ c in
  let p := default ∅ (Storage_Parameters env st) in
  let empty := configuration.VScalar (configuration.SString "") in
  let middlewares := default [] (configuration.Middleware_ c !! "storage") in
  driverType d = Storage_Type env st
  /\ factory_Create env (Storage_Type env st) (driverParameters d) = None
  /\ (p !! "useragent" = Some empty ->
      driverParameters d
      = <["useragent" := configuration.VScalar (configuration.SString (userAgent env))]> p)
  /\ (p !! "useragent" <> Some empty -> driverParameters d = p)
  /\ driverMiddleware d = map configuration.MwName middlewares
  /\ Forall (fun mw => storagemiddleware_Get env mw = None) middlewares.

(** storage.delete.enabled is the boolean true. *)
Definition deleteEnabled (st : gmap string (gmap string configuration.Value)) : Prop :=
  exists d, st !! "delete" = Some d
            /\ d !! "enabled" = Some (configuration.VScalar (configuration.SBool true)).

(** The options of the validation section: the URL policy and the image
    index checks. *)
Definition isValidationOption (o : storage.RegistryOption) : bool :=
  match o with
  | storage.ManifestURLsAllowRegexp _ | storage.ManifestURLsDenyRegexp _
  | storage.EnableValidateImageIndexImagesExist
  | storage.AddValidateImageIndexImagesExistPlatform _ _ => true
  | _ => false
  end.

(** What a successful NewApp establishes about the application it
    returns, field by field, from the state it started in. *)
Record NewApp_facts (env : Env) (s : Boot) (app : App) (s' : Boot) : Prop := {
  facts_Config : Config app = cfg s';
  facts_router :
    router app
    = RouterWithPrefix env (configuration.Prefix (configuration.HTTP_ (cfg s)));
  facts_handlers : handlers app = registered env;
  facts_frame : configFrame (cfg s) (cfg s');
  facts_logs : exists l, logs s' = logs s ++ l;
  facts_driver : builtDriver env (cfg s) (driver app);
  facts_readOnly :
    readOnly app = true <-> readOnlyEnabled (configuration.Storage_ (cfg s));
  facts_purger :
    startedPurger env (purgeSection (configuration.Storage_ (cfg s)))
                  (goroutines s) (goroutines s');
  facts_sinks :
    eventsSink app
    = map configuration.EndpointName
          (List.filter (fun e => negb (configuration.EndpointDisabled e))
                       (configuration.NotificationsEndpoints (cfg s)));
  facts_source :
    let addr := configuration.Addr (configuration.HTTP_ (cfg s)) in
    (forall h e, os_Hostname env = (h, Some e) -> eventsSource app = addr)
    /\ (forall h, os_Hostname env = (h, None) ->
                  eventsSource app = match net_SplitHostPort env addr with
                                     | Some port => h +:+ ":" +:+ port
                                     | None => h
                                     end);
  facts_redis :
    redis app = true <-> redisConfigured env (configuration.Redis_ (cfg s));
  facts_host :
    let host := configuration.Host (configuration.HTTP_ (cfg s)) in
    (host = "" -> httpHost app = ("", ""))
    /\ (host <> "" -> url_Parse env host = inl (httpHost app));
  facts_validation :
    let v := configuration.Validation_ (cfg s) in
    let v' := configuration.Validation_ (cfg s') in
    configuration.Enabled v' = effective v
    /\ configuration.ManifestsURLsAllow v'
       = (if effective v then map wrapPattern (configuration.ManifestsURLsAllow v)
          else configuration.ManifestsURLsAllow v)
    /\ configuration.ManifestsURLsDeny v'
       = (if effective v then map wrapPattern (configuration.ManifestsURLsDeny v)
          else configuration.ManifestsURLsDeny v);
  facts_options :
    let st := configuration.Storage_ (cfg s) in
    exists tag redirect validation cache,
      regOptions (registry app)
      = baseOptions env (isCache app) st ++ tag ++ redirect ++ validation ++ cache
      /\ tagOption env st tag
      /\ redirectOption st redirect
      /\ validationOptions env (configuration.Validation_ (cfg s)) validation
      /\ cacheOption env st (redis app) cache;
  facts_registry :
    let middlewares := default [] (configuration.Middleware_ (cfg s) !! "registry") in
    let url := configuration.RemoteURL (configuration.Proxy_ (cfg s)) in
    regMiddleware (registry app) = map configuration.MwName middlewares
    /\ Forall (fun mw => registrymiddleware_Get env mw = None) middlewares
    /\ Repository_ (registry app) = namespace_Repository env
    /\ regProxy (registry app) = (if decide (url = "") then None else Some url)
    /\ isCache app = (if decide (url = "") then false else true);
  facts_controller :
    let authType := configuration.AuthType (configuration.Auth_ (cfg s)) in
    (accessController app = None <-> authType = "" \/ EqualFold authType "none" = true)
    /\ (forall c, accessController app = Some c ->
                  auth_GetAccessController env authType
                    (configuration.AuthParameters (configuration.Auth_ (cfg s))) = inl c)
}.

(** ** Vocabulary of the health checks *)

(** The interval and the expected status in force: 10 seconds and 200
    where the configuration says 0. *)
Definition intervalInForce (interval : Z) : Z :=
  if decide (interval = 0) then 10 * time.Second else interval.

Definition statusInForce (statusCode : Z) : Z :=
  if decide (statusCode = 0) then 200 else statusCode.

(** The checks of the configuration, each with the name it is registered
    under and its poller: the storage driver check, if enabled, with a
    threshold updater; a file check per file checker, with a plain
    updater; an HTTP and a TCP check per such checker, with a threshold
    updater. *)
Definition storageDriverEntries (env : Env) (health : healthcfg.Health) (app : App)
  : list (string * Poll) :=
  let sd := healthcfg.StorageDriver_ health in
  if healthcfg.SDEnabled sd then
    [ ("storagedriver_" +:+ Storage_Type env (configuration.Storage_ (Config app)),
       {| pollUpdater := NewThresholdStatusUpdater (healthcfg.SDThreshold sd);
          pollChecker := storageDriverCheck;
          pollInterval := intervalInForce (healthcfg.SDInterval sd) |}) ]
  else [].

Definition fileEntry (c : healthcfg.FileChecker) : string * Poll :=
  (healthcfg.File c,
   {| pollUpdater := NewStatusUpdater;
      pollChecker := FileChecker (healthcfg.File c);
      pollInterval := intervalInForce (healthcfg.FileInterval c) |}).

Definition httpEntry (c : healthcfg.HTTPChecker) : string * Poll :=
  (healthcfg.URI c,
   {| pollUpdater := NewThresholdStatusUpdater (healthcfg.HTTPThreshold c);
      pollChecker := HTTPChecker (healthcfg.URI c) (statusInForce (healthcfg.HTTPStatusCode c))
                                 (healthcfg.HTTPTimeout c) (healthcfg.HTTPHeaders c);
      pollInterval := intervalInForce (healthcfg.HTTPInterval c) |}).

Definition tcpEntry (c : healthcfg.TCPChecker) : string * Poll :=
  (healthcfg.TCPAddr c,
   {| pollUpdater := NewThresholdStatusUpdater (healthcfg.TCPThreshold c);
      pollChecker := TCPChecker (healthcfg.TCPAddr c) (healthcfg.TCPTimeout c);
      pollInterval := intervalInForce (healthcfg.TCPInterval c) |}).

Definition healthEntries (env : Env) (health : healthcfg.Health) (app : App)
  : list (string * Poll) :=
  storageDriverEntries env health app
  ++ map fileEntry (healthcfg.FileCheckers health)
  ++ map httpEntry (healthcfg.HTTPCheckers health)
  ++ map tcpEntry (healthcfg.TCPCheckers health).

(** The registration of a check with the registry [target]. *)
Definition registration (target : HealthRegistry) (e : string * Poll)
  : HealthRegistry * string * Updater :=
  (target, e.1, pollUpdater e.2).

(** The log entries of the configured checks. *)
Definition healthEntriesLogged (health : healthcfg.Health) : list LogEntry :=
  map (fun _ => {| level := Info;
                   message := "configuring file health check path=%s, interval=%d" |})
      (healthcfg.FileCheckers health)
  ++ map (fun _ => {| level := Info;
                      message := "configuring HTTP health check uri=%s, interval=%d, threshold=%d" |})
         (healthcfg.HTTPCheckers health)
  ++ map (fun _ => {| level := Info;
                      message := "configuring TCP health check addr=%s, interval=%d, threshold=%d" |})
         (healthcfg.TCPCheckers health).

(** What a run of registrations adds: the checks [entries], registered
    with [target] in this order and each with its poller started, and the
    log entries [logged]. *)
Definition added (target : HealthRegistry) (entries : list (string * Poll))
           (logged : list LogEntry) (s s' : HS) : Prop :=
  registrations s' = registrations s ++ map (registration target) entries
  /\ polls s' = polls s ++ map snd entries
  /\ healthLogs s' = healthLogs s ++ logged.

(** ** A concrete registry, for the examples *)

Module demo.

(** A router for a handful of paths; the last one stands for a route
    that needs a name and carries none. *)
Definition mux (r : Request) : RouteMatch :=
  if decide (Path r = "/v2/") then Matched v2.RouteNameBase ∅
  else if decide (Path r = "/v2/_catalog") then Matched v2.RouteNameCatalog ∅
  else if decide (Path r = "/v2/alice/app/tags/list") then
    Matched v2.RouteNameTags {[ "name" := "alice/app" ]}
  else if decide (Path r = "/v2/bob/app/blobs/uploads/") then
    Matched v2.RouteNameBlobUpload {[ "name" := "bob/app" ]}
  else if decide (Path r = "/v2/tags/list") then Matched v2.RouteNameTags ∅
  else Unmatched NotFound.

Definition dispatch : dispatchFunc :=
  fun ctx _ w => (ctx, Write (Text "ok") w).

Definition challenge : Challenge :=
  {| SetHeaders := fun _ h => http.Header_Add h "WWW-Authenticate" "Bearer realm=demo";
     ChallengeError := "authentication required" |}.

(** Grants alice, fails on a request marked broken, challenges the
    rest. *)
Definition controller : AccessController :=
  fun r records =>
    if decide (FormValue r "user" = "alice") then
      (Some {| auth.User := {| auth.UserName := "alice" |};
               auth.Resources := map auth.Resource_ records |}, None)
    else if decide (FormValue r "user" = "broken") then
      (None, Some (OtherError "backend unavailable"))
    else (None, Some (IsChallenge challenge)).

Definition env : Env :=
  {| RouterWithPrefix := fun _ => mux;
     manifestDispatcher := dispatch;
     catalogDispatcher := dispatch;
     tagsDispatcher := dispatch;
     blobDispatcher := dispatch;
     blobUploadDispatcher := dispatch;
     userAgent := "distribution/v3 go1.22";
     Storage_Type := fun _ => "inmemory";
     Storage_Parameters := fun _ => None;
     Storage_TagParameters := fun st => st !! "tag";
     factory_Create := fun _ _ => None;
     storagemiddleware_Get := fun _ => None;
     rand_Read := fun n => (repeat Byte.x2a n, None);
     os_Hostname := ("registry-0", None);
     net_SplitHostPort := fun _ => Some "5000";
     tls_LoadX509KeyPair := fun _ _ => None;
     loadClientCA := fun _ => CAAdded;
     redisotel_InstrumentMetrics := None;
     url_Parse := fun h => inl ("https", h);
     regexp_Compile := fun p => if decide (p = "^$") then Some emptyOnly else None;
     GetRegistryOptions := [];
     memorycache_DefaultSize := 10000;
     parseSize := fun _ => None;
     storage_NewRegistry := fun _ => None;
     namespace_Repository := fun _ => None;
     registrymiddleware_Get := fun _ => None;
     auth_GetAccessController := fun _ _ => inl controller;
     proxy_NewRegistryPullThroughCache := None;
     implementsRepositoryRemover := true;
     time_ParseDurationFraction := fun _ => None |}.

Definition validation : configuration.Validation :=
  {| configuration.Enabled := false; configuration.Disabled := false;
     configuration.ManifestsURLsAllow := [];
     configuration.ManifestsURLsDeny := [];
     configuration.ManifestsIndexesPlatforms := "";
     configuration.ManifestsIndexesPlatformList := [] |}.

(** No secret, no maintenance section, validation left unset; the
    remote URL makes the registry a pull-through cache. *)
Definition config (remoteURL : string) : configuration.Configuration :=
  {| configuration.HTTP_ :=
       {| configuration.Addr := ":5000"; configuration.Prefix := "";
          configuration.Host := ""; configuration.Secret := "";
          configuration.RelativeURLs := false;
          configuration.Headers := [("X-Content-Type-Options", ["nosniff"])] |};
     configuration.Proxy_ := {| configuration.RemoteURL := remoteURL |};
     configuration.Storage_ := ∅;
     configuration.Middleware_ := ∅;
     configuration.Validation_ := validation;
     configuration.Auth_ := {| configuration.AuthType := "token";
                               configuration.AuthParameters := ∅ |};
     configuration.NotificationsEndpoints := [];
     configuration.Redis_ := {| configuration.RedisAddrs := [];
                                configuration.RedisTLSCertificate := "";
                                configuration.RedisTLSKey := "";
                                configuration.RedisTLSClientCAs := [] |};
     configuration.LogHooks := [] |}.

Definition boot (remoteURL : string) : Boot :=
  {| cfg := config remoteURL; logs := []; goroutines := [] |}.

(** The application of a plain registry, written out. *)
Definition app : App :=
  {| Config := config "";
     router := mux;
     handlers := registered env;
     driver := {| driverType := "inmemory"; driverParameters := ∅;
                  driverMiddleware := [] |};
     registry := {| regOptions := []; regMiddleware := []; regProxy := None;
                    Repository_ := fun _ => None |};
     repoRemover := true;
     accessController := Some controller;
     httpHost := ("", "");
     eventsSink := [];
     eventsSource := "registry-0:5000";
     redis := false; isCache := false; readOnly := false |}.

Definition request (method path : string) (form : gmap string (list string)) : Request :=
  {| Method := method; Path := path; Form := form;
     CurrentRoute := None; Vars := ∅ |}.





End demo.

(** ** More registries and configurations, for the examples *)

Module sample.

(** The registry of the examples with another access controller,
    repository lookup and set of handlers. *)
Definition appWith (config : configuration.Configuration)
           (controller : option AccessController)
           (repository : string -> option RepositoryError)
           (hs : gmap string dispatchFunc) : App :=
  {| Config := config;
     router := demo.mux;
     handlers := hs;
     driver := driver demo.app;
     registry := {| regOptions := []; regMiddleware := []; regProxy := None;
                    Repository_ := repository |};
     repoRemover := true;
     accessController := controller;
     httpHost := ("", "");
     eventsSink := [];
     eventsSource := "registry-0:5000";
     redis := false; isCache := false; readOnly := false |}.

(** A controller that returns neither a grant nor an error. *)
Definition silent : AccessController := fun _ _ => (None, None).

(** reference.WithName on the names of the examples. *)
Definition WithName (name : string) : option string :=
  if decide (name = "alice/app") then None else Some "invalid reference format".

Definition alice : gmap string (list string) := {[ "user" := ["alice"] ]}.

(** The configuration of the examples with one repository middleware. *)
Definition withRepositoryMiddleware : configuration.Configuration :=
  let c := demo.config "" in
  {| configuration.HTTP_ := configuration.HTTP_ c;
     configuration.Proxy_ := configuration.Proxy_ c;
     configuration.Storage_ := configuration.Storage_ c;
     configuration.Middleware_ :=
       {[ "repository" := [ {| configuration.MwName := "cloudfront";
                               configuration.MwOptions := ∅ |} ] ]};
     configuration.Validation_ := configuration.Validation_ c;
     configuration.Auth_ := configuration.Auth_ c;
     configuration.NotificationsEndpoints := configuration.NotificationsEndpoints c;
     configuration.Redis_ := configuration.Redis_ c;
     configuration.LogHooks := configuration.LogHooks c |}.

(** The configuration of the examples with another storage section. *)
Definition withStorage (st : gmap string (gmap string configuration.Value))
  : configuration.Configuration :=
  let c := demo.config "" in
  {| configuration.HTTP_ := configuration.HTTP_ c;
     configuration.Proxy_ := configuration.Proxy_ c;
     configuration.Storage_ := st;
     configuration.Middleware_ := configuration.Middleware_ c;
     configuration.Validation_ := configuration.Validation_ c;
     configuration.Auth_ := configuration.Auth_ c;
     configuration.NotificationsEndpoints := configuration.NotificationsEndpoints c;
     configuration.Redis_ := configuration.Redis_ c;
     configuration.LogHooks := configuration.LogHooks c |}.

Definition bootOf (c : configuration.Configuration) : Boot :=
  {| cfg := c; logs := []; goroutines := [] |}.

Definition flag (key : string) (b : bool) : gmap string configuration.Value :=
  {[ key := configuration.VScalar (configuration.SBool b) ]}.

(** maintenance: read-only mode on, upload purging off. *)
Definition maintenance : gmap string (gmap string configuration.Value) :=
  {[ "maintenance" :=
       {[ "readonly" := configuration.VMap {[ "enabled" := configuration.SBool true ]};
          "uploadpurging" := configuration.VMap {[ "enabled" := configuration.SBool false ]} ]} ]}.

(** maintenance: an uploadpurging section that only sets the age. *)
Definition onlyAge : gmap string (gmap string configuration.Value) :=
  {[ "maintenance" :=
       {[ "uploadpurging" := configuration.VMap {[ "age" := configuration.SString "72h" ]} ]} ]}.

Definition redirectOff : gmap string (gmap string configuration.Value) :=
  {[ "redirect" := flag "disable" true ]}.

Definition deleteOn : gmap string (gmap string configuration.Value) :=
  {[ "delete" := flag "enabled" true ]}.

Definition deleteAs (v : configuration.Scalar)
  : gmap string (gmap string configuration.Value) :=
  {[ "delete" := {[ "enabled" := configuration.VScalar v ]} ]}.

Definition tagLimit (v : configuration.Scalar) : gmap string (gmap string configuration.Value) :=
  {[ "tag" := {[ "concurrencylimit" := configuration.VScalar v ]} ]}.

Definition cacheOf (key kind : string) : gmap string (gmap string configuration.Value) :=
  {[ "cache" := {[ key := configuration.VScalar (configuration.SString kind) ]} ]}.

(** The libraries of the examples with a regexp package that compiles
    every pattern. *)
Definition env : Env :=
  {| RouterWithPrefix := RouterWithPrefix demo.env;
     manifestDispatcher := manifestDispatcher demo.env;
     catalogDispatcher := catalogDispatcher demo.env;
     tagsDispatcher := tagsDispatcher demo.env;
     blobDispatcher := blobDispatcher demo.env;
     blobUploadDispatcher := blobUploadDispatcher demo.env;
     userAgent := userAgent demo.env;
     Storage_Type := Storage_Type demo.env;
     Storage_Parameters := fun st => st !! "inmemory";
     Storage_TagParameters := Storage_TagParameters demo.env;
     factory_Create := factory_Create demo.env;
     storagemiddleware_Get := storagemiddleware_Get demo.env;
     rand_Read := rand_Read demo.env;
     os_Hostname := os_Hostname demo.env;
     net_SplitHostPort := net_SplitHostPort demo.env;
     tls_LoadX509KeyPair := tls_LoadX509KeyPair demo.env;
     loadClientCA := loadClientCA demo.env;
     redisotel_InstrumentMetrics := redisotel_InstrumentMetrics demo.env;
     url_Parse := url_Parse demo.env;
     regexp_Compile := fun _ => Some regexp.AnyChar;
     GetRegistryOptions := GetRegistryOptions demo.env;
     memorycache_DefaultSize := memorycache_DefaultSize demo.env;
     parseSize := parseSize demo.env;
     storage_NewRegistry := storage_NewRegistry demo.env;
     namespace_Repository := namespace_Repository demo.env;
     registrymiddleware_Get := registrymiddleware_Get demo.env;
     auth_GetAccessController := auth_GetAccessController demo.env;
     proxy_NewRegistryPullThroughCache := proxy_NewRegistryPullThroughCache demo.env;
     implementsRepositoryRemover := implementsRepositoryRemover demo.env;
     time_ParseDurationFraction := time_ParseDurationFraction demo.env |}.

(** A configuration for the sections the other examples leave empty:
    validation, authorization, notifications, redis and middleware. *)
Definition configOf (v : configuration.Validation) (authType : string)
           (endpoints : list configuration.Endpoint) (addrs : list string)
           (middleware : gmap string (list configuration.Middleware))
           (st : gmap string (gmap string configuration.Value))
  : configuration.Configuration :=
  let c := demo.config "" in
  {| configuration.HTTP_ := configuration.HTTP_ c;
     configuration.Proxy_ := configuration.Proxy_ c;
     configuration.Storage_ := st;
     configuration.Middleware_ := middleware;
     configuration.Validation_ := v;
     configuration.Auth_ := {| configuration.AuthType := authType;
                               configuration.AuthParameters := ∅ |};
     configuration.NotificationsEndpoints := endpoints;
     configuration.Redis_ := {| configuration.RedisAddrs := addrs;
                                configuration.RedisTLSCertificate := "";
                                configuration.RedisTLSKey := "";
                                configuration.RedisTLSClientCAs := [] |};
     configuration.LogHooks := [] |}.

Definition validationOf (enabled disabled : bool) (allow deny : list string)
           (platforms : string) : configuration.Validation :=
  {| configuration.Enabled := enabled; configuration.Disabled := disabled;
     configuration.ManifestsURLsAllow := allow;
     configuration.ManifestsURLsDeny := deny;
     configuration.ManifestsIndexesPlatforms := platforms;
     configuration.ManifestsIndexesPlatformList :=
       [ {| configuration.Architecture := "amd64"; configuration.OS := "linux" |} ] |}.

Definition endpoints : list configuration.Endpoint :=
  [ {| configuration.EndpointName := "audit"; configuration.EndpointDisabled := false |};
    {| configuration.EndpointName := "legacy"; configuration.EndpointDisabled := true |};
    {| configuration.EndpointName := "mirror"; configuration.EndpointDisabled := false |} ].

Definition middlewares : gmap string (list configuration.Middleware) :=
  {[ "storage" := [ {| configuration.MwName := "cloudfront"; configuration.MwOptions := ∅ |};
                    {| configuration.MwName := "redirect"; configuration.MwOptions := ∅ |} ];
     "registry" := [ {| configuration.MwName := "audit"; configuration.MwOptions := ∅ |} ] ]}.

Definition health : healthcfg.Health :=
  {| healthcfg.StorageDriver_ :=
       {| healthcfg.SDEnabled := true; healthcfg.SDInterval := 0;
          healthcfg.SDThreshold := 3 |};
     healthcfg.FileCheckers :=
       [ {| healthcfg.FileInterval := 5 * time.Second; healthcfg.File := "/etc/maintenance" |} ];
     healthcfg.HTTPCheckers :=
       [ {| healthcfg.HTTPTimeout := 3 * time.Second; healthcfg.HTTPStatusCode := 0;
            healthcfg.HTTPInterval := 0; healthcfg.URI := "https://auth.example.com/healthz";
            healthcfg.HTTPHeaders := []; healthcfg.HTTPThreshold := 2 |} ];
     healthcfg.TCPCheckers :=
       [ {| healthcfg.TCPTimeout := 2 * time.Second; healthcfg.TCPInterval := 30 * time.Second;
            healthcfg.TCPAddr := "redis:6379"; healthcfg.TCPThreshold := 5 |} ] |}.

(** A registry that refuses a name registered before. *)
Definition Register_panics (registered : list (HealthRegistry * string * Updater))
           (_ : HealthRegistry) (name : string) : option string :=
  if existsb (fun e => if decide (e.1.2 = name) then true else false) registered
  then Some "Check already exists" else None.

Definition fresh : HS := {| registrations := []; polls := []; healthLogs := [] |}.

End sample.

(** * Properties *)

(** ** The library models on a few inputs *)

Example canonical_api_version_key :
  http.CanonicalHeaderKey "Docker-Distribution-API-Version"
  = "Docker-Distribution-Api-Version".
Proof. vm_compute. reflexivity. Qed.

Example parse_default_age : time.parseDurationInt "168h" = Some (168 * time.Hour).
Proof. vm_compute. reflexivity. Qed.

Example parse_compound : time.parseDurationInt "1h30m" = Some (90 * time.Minute).
Proof. vm_compute. reflexivity. Qed.

Example parse_missing_unit : time.parseDurationInt "90" = None.
Proof. vm_compute. reflexivity. Qed.

Example parse_uint64_wrap :
  time.parseDurationInt "9223372036854775808ns9223372036854775808ns" = Some 0.
Proof. vm_compute. reflexivity. Qed.

Example match_star :
  regexp.MatchString
    (regexp.Concat (regexp.Star (regexp.Literal "a")) (regexp.Literal "b")) "xaab" = true.
Proof. vm_compute. reflexivity. Qed.

Example api_base_response :
  finish (apiBase newResponseWriter)
  = {| StatusCode := 200;
       RespHeader := {[ "Content-Type" := ["application/json"];
                        "Content-Length" := ["2"] ]};
       RespBody := [Text "{}"] |}.
Proof. vm_compute. reflexivity. Qed.

(** ** Reasoning about the monad *)

Lemma run_bind {S A B} (m : M S A) (f : A -> M S B) (s : S) :
  run (m ≫= f) s =
  match run m s with
  | Ok (a, s') => run (f a) s'
  | Panic msg => Panic msg
  end.
Proof. reflexivity. Qed.

Lemma run_ret {S A} (a : A) (s : S) : run (mret a) s = Ok (a, s).
Proof. reflexivity. Qed.

Lemma run_gets {S A} (f : S -> A) (s : S) : run (gets f) s = Ok (f s, s).
Proof. reflexivity. Qed.

Lemma run_modify {S} (f : S -> S) (s : S) : run (modify f) s = Ok (tt, f s).
Proof. reflexivity. Qed.

Lemma run_panic {S A} msg (s : S) : run (panic msg : M S A) s = Panic msg.
Proof. reflexivity. Qed.

Lemma run_onWriter f s :
  run (onWriter f) s = Ok (tt, {| rw := f (rw s); events := events s |}).
Proof. reflexivity. Qed.

Lemma run_emit e s :
  run (emit e) s = Ok (tt, {| rw := rw s; events := events s ++ [e] |}).
Proof. reflexivity. Qed.

Lemma run_logf l msg s :
  run (logf l msg) s
  = Ok (tt, {| rw := rw s;
               events := events s ++ [Logged {| level := l; message := msg |}] |}).
Proof. reflexivity. Qed.

(** Symbolic execution of the request path. *)
Ltac mstep :=
  repeat (rewrite ?run_bind, ?run_ret, ?run_gets, ?run_onWriter, ?run_emit,
            ?run_logf, ?run_panic;
          cbn beta iota).

Lemma wp_run {S A} (m : M S A) Q s a s' :
  wp m Q s -> run m s = Ok (a, s') -> Q a s'.
Proof. unfold wp. intros H E. rewrite E in H. exact H. Qed.

Lemma wp_bind {S A B} (m : M S A) (f : A -> M S B) Q s :
  wp m (fun a s' => wp (f a) Q s') s -> wp (m ≫= f) Q s.
Proof.
  unfold wp. rewrite run_bind. destruct (run m s) as [[a s']|]; auto.
Qed.

Lemma wp_conseq {S A} (m : M S A) (Q Q' : A -> S -> Prop) s :
  wp m Q s -> (forall a s', Q a s' -> Q' a s') -> wp m Q' s.
Proof. unfold wp. destruct (run m s) as [[a s']|]; auto. Qed.

Lemma wp_ret {S A} (a : A) (Q : A -> S -> Prop) s : Q a s -> wp (mret a) Q s.
Proof. auto. Qed.

Lemma wp_panic {S A} msg (Q : A -> S -> Prop) s : wp (panic msg) Q s.
Proof. exact I. Qed.

Lemma wp_gets {S A} (f : S -> A) (Q : A -> S -> Prop) s : Q (f s) s -> wp (gets f) Q s.
Proof. auto. Qed.

Lemma wp_modify {S} (f : S -> S) (Q : unit -> S -> Prop) s :
  Q tt (f s) -> wp (modify f) Q s.
Proof. auto. Qed.

Lemma twp_run {S A} (m : M S A) Q s :
  twp m Q s -> exists a s', run m s = Ok (a, s') /\ Q a s'.
Proof. unfold twp. destruct (run m s) as [[a s']|]; [eauto | tauto]. Qed.

Lemma twp_bind {S A B} (m : M S A) (f : A -> M S B) Q s :
  twp m (fun a s' => twp (f a) Q s') s -> twp (m ≫= f) Q s.
Proof.
  unfold twp. rewrite run_bind. destruct (run m s) as [[a s']|]; auto.
Qed.

Lemma twp_conseq {S A} (m : M S A) (Q Q' : A -> S -> Prop) s :
  twp m Q s -> (forall a s', Q a s' -> Q' a s') -> twp m Q' s.
Proof. unfold twp. destruct (run m s) as [[a s']|]; auto. Qed.

Lemma twp_ret {S A} (a : A) (Q : A -> S -> Prop) s : Q a s -> twp (mret a) Q s.
Proof. auto. Qed.

Lemma twp_gets {S A} (f : S -> A) (Q : A -> S -> Prop) s : Q (f s) s -> twp (gets f) Q s.
Proof. auto. Qed.

Lemma twp_modify {S} (f : S -> S) (Q : unit -> S -> Prop) s :
  Q tt (f s) -> twp (modify f) Q s.
Proof. auto. Qed.

(** ** Access records by method *)

Lemma callouts_app evs evs' : callouts (evs ++ evs') = callouts evs ++ callouts evs'.
Proof. apply omap_app. Qed.

(** The records appendAccessRecords adds to the records it is given, method
    by method; method names are compared exactly. *)
Lemma appendAccessRecords_table (records : list auth.Access) (method repo : string) :
  (method = "GET" \/ method = "HEAD" ->
   appendAccessRecords records method repo
   = records ++ [repositoryAccess repo "pull"])
  /\ (method = "POST" \/ method = "PUT" \/ method = "PATCH" ->
      appendAccessRecords records method repo
      = records ++ [repositoryAccess repo "pull"; repositoryAccess repo "push"])
  /\ (method = "DELETE" ->
      appendAccessRecords records method repo
      = records ++ [repositoryAccess repo "delete"])
  /\ (~ In method ["GET"; "HEAD"; "POST"; "PUT"; "PATCH"; "DELETE"] ->
      appendAccessRecords records method repo = records).
Proof.
  unfold appendAccessRecords, repositoryAccess, http.MethodGet, http.MethodHead,
    http.MethodPost, http.MethodPut, http.MethodPatch, http.MethodDelete.
  repeat split.
  - intros H. rewrite decide_True by exact H. reflexivity.
  - intros H.
    rewrite decide_False by (destruct H as [->| [->| ->]]; intros [E|E]; discriminate E).
    rewrite decide_True by exact H. reflexivity.
  - intros ->. rewrite decide_False by (intros [E|E]; discriminate E).
    rewrite decide_False by (intros [E|[E|E]]; discriminate E).
    rewrite decide_True by reflexivity. reflexivity.
  - intros H. simpl in H.
    rewrite decide_False by (intros [E|E]; apply H; auto).
    rewrite decide_False by (intros [E|[E|E]]; apply H; auto 10).
    rewrite decide_False by (intros E; apply H; auto 10).
    reflexivity.
Qed.

(** C1 as stated does not hold: the records of a request on a named
    repository depend on its form value [from] as well. Two POST requests
    on the repository bob/app that differ in [from] alone make
    authorization ask the access controller about different records, and
    the one that carries [from] asks about three records, the third of
    them on another repository, not about exactly pull and push on
    bob/app. *)
Lemma records_depend_on_from :
  let plain := demo.request "POST" "/v2/bob/app/blobs/uploads/" ∅ in
  let mount := demo.request "POST" "/v2/bob/app/blobs/uploads/"
                 {[ "from" := ["alice/app"] ]} in
  let ctxOf r :=
    context demo.app (withRoute v2.RouteNameBlobUpload {[ "name" := "bob/app" ]} r) in
  let asked r :=
    match run (authorized demo.app r (ctxOf r)) {| rw := newResponseWriter; events := [] |} with
    | Ok (_, s') => Some (callouts (events s'))
    | Panic _ => None
    end in
  Method plain = Method mount
  /\ getName (ctxOf plain) = "bob/app"
  /\ getName (ctxOf mount) = "bob/app"
  /\ asked plain
     = Some [[repositoryAccess "bob/app" "pull"; repositoryAccess "bob/app" "push"]]
  /\ asked mount
     = Some [[repositoryAccess "bob/app" "pull"; repositoryAccess "bob/app" "push";
              repositoryAccess "alice/app" "pull"]]
  /\ asked mount <> asked plain.
Proof.
  cbv zeta. repeat split; try (vm_compute; reflexivity). vm_compute. discriminate.
Qed.

(** C1, amended. For a request on a named repository whose form value
    [from] is empty, authorization calls the access controller once, with
    records that the method alone determines: exactly the pull record on
    the repository for GET and HEAD, exactly pull then push for POST, PUT
    and PATCH, exactly the delete record for DELETE, and no record for any
    other method. They are what appendAccessRecords makes of the empty
    list. *)
Theorem records_by_method_without_from
        (app : App) (controller : AccessController) (r : Request)
        (ctx : Context) (s : RS) :
  accessController app = Some controller ->
  getName ctx <> "" ->
  FormValue r "from" = "" ->
  exists res s' recs,
    run (authorized app r ctx) s = Ok (res, s')
    /\ callouts (events s') = callouts (events s) ++ [recs]
    /\ recs = appendAccessRecords [] (Method r) (getName ctx)
    /\ (Method r = "GET" \/ Method r = "HEAD" ->
        recs = [repositoryAccess (getName ctx) "pull"])
    /\ (Method r = "POST" \/ Method r = "PUT" \/ Method r = "PATCH" ->
        recs = [repositoryAccess (getName ctx) "pull";
                repositoryAccess (getName ctx) "push"])
    /\ (Method r = "DELETE" -> recs = [repositoryAccess (getName ctx) "delete"])
    /\ (~ In (Method r) ["GET"; "HEAD"; "POST"; "PUT"; "PATCH"; "DELETE"] -> recs = []).
Proof.
  intros Hac Hname Hfrom.
  destruct (appendAccessRecords_table [] (Method r) (getName ctx))
    as (Hget & Hpost & Hdelete & Hother).
  assert (Hrun : exists res s',
             run (authorized app r ctx) s = Ok (res, s')
             /\ callouts (events s')
                = callouts (events s) ++ [appendAccessRecords [] (Method r) (getName ctx)]).
  { unfold authorized. rewrite Hac.
    rewrite (decide_True (P := getName ctx <> "")) by exact Hname.
    rewrite (decide_False (P := FormValue r "from" <> "")) by (rewrite Hfrom; auto).
    mstep.
    destruct (controller r _) as [[g|] [[c|msg]|]]; mstep;
      (do 2 eexists; split; [reflexivity|]);
      cbn [events]; rewrite !callouts_app;
      cbn -[appendAccessRecords repositoryAccess];
      rewrite ?app_nil_r; auto. }
  destruct Hrun as (res & s' & Hrun & Hcalls).
  exists res, s', (appendAccessRecords [] (Method r) (getName ctx)).
  split; [exact Hrun|]. split; [exact Hcalls|]. split; [reflexivity|].
  split; [exact Hget|]. split; [exact Hpost|]. split; [exact Hdelete|exact Hother].
Qed.

Lemma records_by_method_without_from_witness :
  let r := demo.request "HEAD" "/v2/alice/app/tags/list" ∅ in
  let ctx := context demo.app (withRoute v2.RouteNameTags {[ "name" := "alice/app" ]} r) in
  exists res s',
    run (authorized demo.app r ctx) {| rw := newResponseWriter; events := [] |} = Ok (res, s')
    /\ callouts (events s') = [[repositoryAccess "alice/app" "pull"]].
Proof.
  intros r ctx.
  destruct (records_by_method_without_from demo.app demo.controller r ctx
              {| rw := newResponseWriter; events := [] |})
    as (res & s' & recs & Hrun & Hcalls & _ & Hhead & _).
  - reflexivity.
  - vm_compute. discriminate.
  - vm_compute. reflexivity.
  - exists res, s'. split; [exact Hrun|]. rewrite Hcalls, Hhead; [reflexivity|].
    right. reflexivity.
Defined.

(** ** Authorization *)

Lemma appendAccessRecords_MethodGet recs repo :
  appendAccessRecords recs http.MethodGet repo = recs ++ [repositoryAccess repo "pull"].
Proof. reflexivity. Qed.

(** C2. On a named repository, a non-empty form value [from] adds to the
    records of the request the pull record on the source repository, which
    is what the GET case of appendAccessRecords yields; the access
    controller is called once, with these records. *)
Theorem mount_requires_pull_on_source
        (app : App) (controller : AccessController) (r : Request)
        (ctx : Context) (s : RS) :
  accessController app = Some controller ->
  getName ctx <> "" ->
  FormValue r "from" <> "" ->
  exists res s',
    run (authorized app r ctx) s = Ok (res, s')
    /\ callouts (events s')
       = callouts (events s)
         ++ [appendAccessRecords [] (Method r) (getName ctx)
             ++ [repositoryAccess (FormValue r "from") "pull"]]
    /\ appendAccessRecords (appendAccessRecords [] (Method r) (getName ctx))
                           http.MethodGet (FormValue r "from")
       = appendAccessRecords [] (Method r) (getName ctx)
         ++ [repositoryAccess (FormValue r "from") "pull"].
Proof.
  intros Hac Hname Hfrom.
  unfold authorized. rewrite Hac.
  rewrite (decide_True (P := getName ctx <> "")) by exact Hname.
  rewrite (decide_True (P := FormValue r "from" <> "")) by exact Hfrom.
  rewrite appendAccessRecords_MethodGet.
  mstep.
  destruct (controller r _) as [[g|] [[c|msg]|]]; mstep;
    (do 2 eexists; split; [reflexivity|]);
    cbn [events]; rewrite !callouts_app;
    cbn -[appendAccessRecords repositoryAccess];
    rewrite ?app_nil_r; auto.
Qed.

Lemma mount_requires_pull_on_source_witness :
  let r := demo.request "POST" "/v2/bob/app/blobs/uploads/"
             {[ "mount" := ["sha256:e3b0c44"]; "from" := ["alice/app"] ]} in
  let ctx := context demo.app (withRoute v2.RouteNameBlobUpload {[ "name" := "bob/app" ]} r) in
  exists res s',
    run (authorized demo.app r ctx) {| rw := newResponseWriter; events := [] |} = Ok (res, s')
    /\ callouts (events s')
       = [[repositoryAccess "bob/app" "pull"; repositoryAccess "bob/app" "push";
           repositoryAccess "alice/app" "pull"]].
Proof.
  intros r ctx.
  destruct (mount_requires_pull_on_source demo.app demo.controller r ctx
              {| rw := newResponseWriter; events := [] |})
    as (res & s' & Hrun & Hcalls & _).
  - reflexivity.
  - vm_compute. discriminate.
  - vm_compute. discriminate.
  - exists res, s'. split; [exact Hrun|]. rewrite Hcalls. reflexivity.
Defined.

Lemma nameRequired_false r :
  nameRequired r = false ->
  exists rn, CurrentRoute r = Some rn /\ (rn = v2.RouteNameBase \/ rn = v2.RouteNameCatalog).
Proof.
  unfold nameRequired. destruct (CurrentRoute r) as [rn|]; [|discriminate].
  intros H. exists rn. split; [reflexivity|].
  apply andb_false_iff in H as [H|H]; apply bool_decide_eq_false in H;
    [left | right]; destruct (decide (rn = v2.RouteNameBase));
    destruct (decide (rn = v2.RouteNameCatalog)); tauto.
Qed.

(** When the records get assembled, authorized calls the controller once
    and its result decides the outcome. *)
Lemma authorized_outcome app controller r ctx s :
  accessController app = Some controller ->
  getName ctx <> "" \/ nameRequired r = false ->
  exists recs,
    let evs := events s ++ [Logged {| level := Debug; message := "authorizing request" |};
                            AuthorizedCall recs] in
    run (authorized app r ctx) s =
    match controller r recs with
    | (_, Some (IsChallenge c)) =>
        Ok ((ctx, Some (ChallengeError c)),
            {| rw := ServeJSON [errcode.WithDetail errcode.ErrorCodeUnauthorized
                                  (errcode.DetailAccess recs)]
                               (withHeader (SetHeaders c r) (rw s));
               events := evs |})
    | (_, Some (OtherError msg)) =>
        Ok ((ctx, Some msg),
            {| rw := WriteHeader http.StatusBadRequest (rw s);
               events := evs ++ [Logged {| level := Error;
                                           message := "error checking authorization: %v" |}] |})
    | (None, None) =>
        Ok ((ctx, Some "access controller returned neither an access grant nor an error"),
            {| rw := rw s; events := evs |})
    | (Some grant, None) =>
        Ok ((setGrant grant ctx, None),
            {| rw := rw s;
               events := evs ++ [Logged {| level := Info; message := "authorized request" |}] |})
    end.
Proof.
  intros Hac Hcase. unfold authorized. rewrite Hac.
  destruct (decide (getName ctx <> "")) as [Hn|Hn].
  - destruct (decide (FormValue r "from" <> "")) as [Hf|Hf];
      [exists (appendAccessRecords (appendAccessRecords [] (Method r) (getName ctx))
                                   http.MethodGet (FormValue r "from"))
      |exists (appendAccessRecords [] (Method r) (getName ctx))]; mstep;
      destruct (controller r _) as [[g|] [[c|msg]|]]; mstep; cbn [rw events];
      rewrite <- ?app_assoc; reflexivity.
  - destruct Hcase as [Hc|Hc]; [contradiction|]. rewrite Hc.
    apply nameRequired_false in Hc as (rn & Hrn & Hbc).
    unfold appendCatalogAccessRecord. rewrite Hrn.
    destruct (decide (rn = v2.RouteNameCatalog));
      [exists [ {| auth.Resource_ := {| auth.Type_ := "registry"; auth.Name := "catalog" |};
                   auth.Action := "*" |} ] | exists []]; mstep;
      destruct (controller r _) as [[g|] [[c|msg]|]]; mstep; cbn [rw events];
      rewrite <- ?app_assoc; reflexivity.
Qed.

(** authorized with the records written out. *)
Lemma authorized_records app controller r ctx s :
  accessController app = Some controller ->
  getName ctx <> "" \/ nameRequired r = false ->
  let recs := requestRecords r (getName ctx) in
  let evs := events s ++ [Logged {| level := Debug; message := "authorizing request" |};
                          AuthorizedCall recs] in
  run (authorized app r ctx) s =
  match controller r recs with
  | (_, Some (IsChallenge c)) =>
      Ok ((ctx, Some (ChallengeError c)),
          {| rw := ServeJSON [errcode.WithDetail errcode.ErrorCodeUnauthorized
                                (errcode.DetailAccess recs)]
                             (withHeader (SetHeaders c r) (rw s));
             events := evs |})
  | (_, Some (OtherError msg)) =>
      Ok ((ctx, Some msg),
          {| rw := WriteHeader http.StatusBadRequest (rw s);
             events := evs ++ [Logged {| level := Error;
                                         message := "error checking authorization: %v" |}] |})
  | (None, None) =>
      Ok ((ctx, Some "access controller returned neither an access grant nor an error"),
          {| rw := rw s; events := evs |})
  | (Some grant, None) =>
      Ok ((setGrant grant ctx, None),
          {| rw := rw s;
             events := evs ++ [Logged {| level := Info; message := "authorized request" |}] |})
  end.
Proof.
  intros Hac Hcase. unfold authorized, requestRecords. rewrite Hac.
  destruct (decide (getName ctx <> "")) as [Hn|Hn].
  - destruct (decide (FormValue r "from" <> "")) as [Hf|Hf]; mstep;
      destruct (controller r _) as [[g|] [[c|msg]|]]; mstep; cbn [rw events];
      rewrite <- ?app_assoc; reflexivity.
  - destruct Hcase as [Hc|Hc]; [contradiction|]. rewrite Hc.
    apply nameRequired_false in Hc as (rn & Hrn & Hbc).
    unfold appendCatalogAccessRecord. rewrite Hrn.
    destruct (decide (rn = v2.RouteNameCatalog)); mstep; cbn [default];
      destruct (controller r _) as [[g|] [[c|msg]|]]; mstep; cbn [rw events];
      rewrite <- ?app_assoc; reflexivity.
Qed.

Lemma Header_Values_Set_ne (h : http.Header) k v k' :
  http.CanonicalHeaderKey k <> http.CanonicalHeaderKey k' ->
  http.Header_Values (http.Header_Set h k v) k' = http.Header_Values h k'.
Proof.
  intros Hne. unfold http.Header_Values, http.Header_Set.
  rewrite lookup_insert_ne by exact Hne. reflexivity.
Qed.

Section DispatchProperties.

Variable reference_WithName : string -> option string.
Variable repositorymiddleware_Get : configuration.Middleware -> option string.

(** C3. When the access controller answers the records of a request
    with an error: a challenge yields status 401, the headers as the
    challenge set them (so its WWW-Authenticate values) with the JSON
    content type, and as body the error envelope with code UNAUTHORIZED
    and the access records as detail; any other error yields status 400
    and no body. In both cases the controller was asked once, about the
    records of the request, and no handler is dispatched. *)
Theorem controller_error_response
        (app : App) (r : Request) (routeName : string) (vars : gmap string string)
        (dispatch : dispatchFunc) (controller : AccessController) :
  router app r = Matched routeName vars ->
  handlers app !! routeName = Some dispatch ->
  accessController app = Some controller ->
  default "" (vars !! "name") <> ""
  \/ routeName = v2.RouteNameBase \/ routeName = v2.RouteNameCatalog ->
  let r' := withRoute routeName vars r in
  let recs := requestRecords r' (default "" (vars !! "name")) in
  (forall g c,
      controller r' recs = (g, Some (IsChallenge c)) ->
      exists resp evs,
        serve reference_WithName repositorymiddleware_Get app r = Ok (resp, evs)
        /\ callouts evs = [recs]
        /\ dispatches evs = []
        /\ StatusCode resp = 401
        /\ RespHeader resp
           = http.Header_Set (SetHeaders c r' (initialHeader app))
                             "Content-Type" "application/json"
        /\ http.Header_Values (RespHeader resp) "WWW-Authenticate"
           = http.Header_Values (SetHeaders c r' (initialHeader app)) "WWW-Authenticate"
        /\ RespBody resp
           = [JSONErrors [errcode.WithDetail errcode.ErrorCodeUnauthorized
                            (errcode.DetailAccess recs)]])
  /\ (forall g msg,
        controller r' recs = (g, Some (OtherError msg)) ->
        exists resp evs,
          serve reference_WithName repositorymiddleware_Get app r = Ok (resp, evs)
          /\ callouts evs = [recs]
          /\ dispatches evs = []
          /\ StatusCode resp = 400
          /\ RespHeader resp = initialHeader app
          /\ RespBody resp = []).
Proof.
  intros Hrouter Hhandler Hac Hcase r' recs.
  assert (Hcase' : getName (context app r') <> "" \/ nameRequired r' = false).
  { destruct Hcase as [H|[->| ->]]; [left; exact H | right; reflexivity ..]. }
  unfold serve, ServeHTTP, routerServeHTTP. mstep.
  rewrite Hrouter, Hhandler.
  unfold dispatcher, dispatcherBody. mstep. cbn [rw events]. fold r'.
  match goal with
  | |- context [run (authorized app r' ?c) ?s] =>
      pose proof (authorized_records app controller r' c s Hac Hcase') as Hrun
  end.
  cbv zeta in Hrun. change (getName (context app r')) with (default "" (vars !! "name")) in Hrun.
  fold recs in Hrun. rewrite Hrun. clear Hrun.
  split; intros g0 x Hctl; rewrite Hctl; destruct g0; mstep;
    cbn -[http.Header_Set http.Header_Add addHeaders http.Header_Values];
    (do 2 eexists; split; [reflexivity|]);
    cbn -[http.Header_Set http.Header_Add addHeaders http.Header_Values];
    repeat split; try reflexivity;
    apply Header_Values_Set_ne; vm_compute; discriminate.
Qed.

(** C9. With an access controller configured, a request matched to a
    route other than base and catalog whose name variable is empty is
    answered with the UNAUTHORIZED error envelope, and neither the
    access controller nor the repository lookup nor a handler is called;
    a route is exempt from the name exactly when it is the base or the
    catalog route. *)
Theorem nameless_request_rejected
        (app : App) (r : Request) (routeName : string) (vars : gmap string string)
        (dispatch : dispatchFunc) (controller : AccessController) :
  router app r = Matched routeName vars ->
  handlers app !! routeName = Some dispatch ->
  accessController app = Some controller ->
  default "" (vars !! "name") = "" ->
  routeName <> v2.RouteNameBase ->
  routeName <> v2.RouteNameCatalog ->
  (exists resp evs,
      serve reference_WithName repositorymiddleware_Get app r = Ok (resp, evs)
      /\ callouts evs = [] /\ dispatches evs = [] /\ lookups evs = []
      /\ StatusCode resp = 401
      /\ RespBody resp = [JSONErrors [errcode.OfCode errcode.ErrorCodeUnauthorized]])
  /\ (forall r0 : Request,
         nameRequired r0 = false
         <-> CurrentRoute r0 = Some v2.RouteNameBase
             \/ CurrentRoute r0 = Some v2.RouteNameCatalog).
Proof.
  intros Hrouter Hhandler Hac Hname Hb Hc. split.
  - unfold serve, ServeHTTP, routerServeHTTP. mstep.
    rewrite Hrouter, Hhandler.
    unfold dispatcher, dispatcherBody, authorized. rewrite Hac.
    assert (Hn : getName (context app (withRoute routeName vars r)) = "") by exact Hname.
    rewrite (decide_False (P := getName _ <> "")) by (rewrite Hn; auto).
    assert (Hreq : nameRequired (withRoute routeName vars r) = true).
    { unfold nameRequired. cbn [CurrentRoute withRoute].
      rewrite !bool_decide_eq_true_2 by assumption. reflexivity. }
    rewrite Hreq. mstep.
    cbn -[http.Header_Set http.Header_Add addHeaders].
    do 2 eexists. split; [reflexivity|]. cbn -[http.Header_Set http.Header_Add addHeaders].
    repeat split.
  - intros r0. unfold nameRequired. destruct (CurrentRoute r0) as [rn|].
    + rewrite andb_false_iff, !bool_decide_eq_false. split.
      * intros [H|H]; [left|right]; f_equal;
          [destruct (decide (rn = v2.RouteNameBase))
          |destruct (decide (rn = v2.RouteNameCatalog))]; tauto.
      * intros [[= ->]|[= ->]]; [left|right]; auto.
    + split; [discriminate | intros [H|H]; discriminate H].
Qed.

(** *** The API version header *)

Lemma carries_Set_ne h k v :
  http.CanonicalHeaderKey k <> "Docker-Distribution-Api-Version" ->
  carriesAPIVersion h -> carriesAPIVersion (http.Header_Set h k v).
Proof.
  unfold carriesAPIVersion, http.Header_Get. intros Hne H.
  rewrite Header_Values_Set_ne; [exact H|].
  intros E. apply Hne. rewrite E. vm_compute. reflexivity.
Qed.

(** Add appends, so the first value of the header stays. *)
Lemma carries_Add h k v :
  carriesAPIVersion h -> carriesAPIVersion (http.Header_Add h k v).
Proof.
  unfold carriesAPIVersion, http.Header_Get, http.Header_Values, http.Header_Add.
  intros H.
  destruct (decide (http.CanonicalHeaderKey k
                    = http.CanonicalHeaderKey "Docker-Distribution-API-Version")) as [E|E].
  - rewrite E, lookup_insert_eq. cbn [default].
    destruct (h !! _) as [[|x l]|]; cbn in *; try discriminate H; exact H.
  - rewrite lookup_insert_ne by exact E. exact H.
Qed.

Lemma carries_addHeaders hs h :
  carriesAPIVersion h -> carriesAPIVersion (addHeaders hs h).
Proof.
  revert h. induction hs as [|[k vs] hs IH]; intros h H; cbn [addHeaders]; [exact H|].
  apply IH. revert h H. induction vs as [|v vs IHv]; intros h H; cbn [fold_left]; [exact H|].
  apply IHv, carries_Add, H.
Qed.

Lemma keeps_withHeader f w :
  (forall h, carriesAPIVersion h -> carriesAPIVersion (f h)) ->
  keepsAPIVersion w -> keepsAPIVersion (withHeader f w).
Proof. intros Hf [H1 H2]. split; cbn; auto. Qed.

Lemma keeps_WriteHeader code w : keepsAPIVersion w -> keepsAPIVersion (WriteHeader code w).
Proof.
  intros [H1 H2]. unfold WriteHeader. destruct (wrote w) eqn:E.
  - split; [exact H1|]. intros c h Hw. apply (H2 c h). congruence.
  - split; cbn; [exact H1|]. intros c h [= _ <-]. exact H1.
Qed.

Lemma keeps_Write c w : keepsAPIVersion w -> keepsAPIVersion (Write c w).
Proof.
  intros H. apply (keeps_WriteHeader http.StatusOK) in H. destruct H as [H1 H2].
  unfold Write. split; cbn; auto.
Qed.

Lemma keeps_ServeJSON errs w : keepsAPIVersion w -> keepsAPIVersion (ServeJSON errs w).
Proof.
  intros H. unfold ServeJSON. apply keeps_Write, keeps_WriteHeader, keeps_withHeader; [|exact H].
  intros h. apply carries_Set_ne. vm_compute. discriminate.
Qed.

Lemma keeps_NotFound w : keepsAPIVersion w -> keepsAPIVersion (NotFound w).
Proof.
  intros H. unfold NotFound.
  apply keeps_Write, keeps_WriteHeader, keeps_withHeader;
    [intros h; apply carries_Set_ne; vm_compute; discriminate|].
  apply keeps_withHeader; [|exact H].
  intros h; apply carries_Set_ne; vm_compute; discriminate.
Qed.

Lemma keeps_apiBase w : keepsAPIVersion w -> keepsAPIVersion (apiBase w).
Proof.
  intros H. unfold apiBase.
  apply keeps_Write, keeps_withHeader;
    [intros h; apply carries_Set_ne; vm_compute; discriminate|].
  apply keeps_withHeader; [|exact H].
  intros h; apply carries_Set_ne; vm_compute; discriminate.
Qed.

Lemma finish_carries w : keepsAPIVersion w -> carriesAPIVersion (RespHeader (finish w)).
Proof.
  intros H. apply (keeps_WriteHeader http.StatusOK) in H. destruct H as [H1 H2].
  unfold finish. destruct (wrote (WriteHeader http.StatusOK w)) as [[code h]|] eqn:E; cbn.
  - eapply H2. reflexivity.
  - unfold WriteHeader in E.
    destruct (wrote w) eqn:E'; [rewrite E' in E | cbn in E]; discriminate E.
Qed.

(** authorized never panics: the route is dereferenced only where
    nameRequired has seen it. *)
Lemma authorized_keeps app r ctx s :
  challengesKeep app ->
  keepsAPIVersion (rw s) ->
  twp (authorized app r ctx) (fun _ s' => keepsAPIVersion (rw s')) s.
Proof.
  intros Hch Hk. unfold twp.
  destruct (accessController app) as [controller|] eqn:Hac.
  - destruct (decide (getName ctx <> "")) as [Hn|Hn];
      [|destruct (nameRequired r) eqn:Hreq].
    + destruct (authorized_outcome app controller r ctx s Hac (or_introl Hn)) as [recs ->].
      cbv zeta. destruct (controller r recs) as [[g|] [[c|msg]|]] eqn:Hctl; cbn [rw];
        auto using keeps_ServeJSON, keeps_withHeader, keeps_WriteHeader;
        apply keeps_ServeJSON, keeps_withHeader; eauto.
    + unfold authorized. rewrite Hac, Hreq.
      rewrite (decide_False (P := getName ctx <> "")) by exact Hn.
      mstep. cbn [rw]. apply keeps_ServeJSON, Hk.
    + destruct (authorized_outcome app controller r ctx s Hac (or_intror Hreq)) as [recs ->].
      cbv zeta. destruct (controller r recs) as [[g|] [[c|msg]|]] eqn:Hctl; cbn [rw];
        auto using keeps_ServeJSON, keeps_withHeader, keeps_WriteHeader;
        apply keeps_ServeJSON, keeps_withHeader; eauto.
  - unfold authorized. rewrite Hac. mstep. exact Hk.
Qed.

Lemma dispatcherBody_keeps app dispatch ctx r s :
  challengesKeep app -> handlerKeeps dispatch ->
  keepsAPIVersion (rw s) ->
  twp (dispatcherBody reference_WithName repositorymiddleware_Get app dispatch ctx r)
      (fun _ s' => keepsAPIVersion (rw s')) s.
Proof.
  intros Hch Hd Hk. unfold dispatcherBody. apply twp_bind.
  eapply twp_conseq; [apply authorized_keeps; assumption|].
  intros [ctx' err] s1 Hk1. unfold twp. destruct err as [e|]; mstep; [exact Hk1|].
  destruct (nameRequired r).
  - destruct (reference_WithName (getName ctx')); mstep;
      [cbn [rw]; apply keeps_ServeJSON, Hk1|].
    destruct (Repository_ (registry app) (getName ctx')) as [[]|]; mstep;
      try (cbn [rw]; apply keeps_ServeJSON, Hk1).
    destruct (applyRepoMiddleware _ _); mstep;
      [cbn [rw]; apply keeps_ServeJSON, Hk1|].
    cbn [rw]. specialize (Hd (setRepository (getName ctx') ctx') r (rw s1) Hk1).
    destruct (dispatch _ r (rw s1)) as [c w']. mstep. exact Hd.
  - mstep. cbn [rw]. specialize (Hd ctx' r (rw s1) Hk1).
    destruct (dispatch _ r (rw s1)) as [c w']. mstep. exact Hd.
Qed.

Lemma logError_keeps errs s :
  keepsAPIVersion (rw s) -> twp (logError errs) (fun _ s' => keepsAPIVersion (rw s')) s.
Proof.
  revert s. induction errs as [|e errs IH]; intros s Hk; cbn [logError fold_right].
  - exact Hk.
  - apply twp_bind. unfold twp at 1. mstep. apply IH. exact Hk.
Qed.

Lemma dispatcher_keeps app dispatch r s :
  challengesKeep app -> handlerKeeps dispatch ->
  keepsAPIVersion (rw s) ->
  twp (dispatcher reference_WithName repositorymiddleware_Get app dispatch r)
      (fun _ s' => keepsAPIVersion (rw s')) s.
Proof.
  intros Hch Hd Hk. unfold dispatcher. apply twp_bind. unfold twp at 1. mstep.
  apply twp_bind. eapply twp_conseq.
  { apply dispatcherBody_keeps; [assumption..|]. cbn [rw].
    apply keeps_withHeader; [apply carries_addHeaders|exact Hk]. }
  intros ctx' s1 Hk1. destruct (0 <? length (Errors ctx'))%nat.
  - apply twp_bind. unfold twp at 1. mstep. apply logError_keeps. cbn [rw].
    apply keeps_ServeJSON, Hk1.
  - unfold twp. mstep. destruct (wrote (rw s1)) as [[status h]|]; [|exact Hk1].
    destruct ((200 <=? status) && (status <=? 399)); mstep; exact Hk1.
Qed.

(** C8. Every request is answered, and the response carries the header
    Docker-Distribution-API-Version with value registry/2.0, whatever the
    route and the outcome (unmatched, rejected by authorization, error or
    handled), provided the code outside app.go that gets hold of the
    response (the router's own answers, the handlers of the routes, the
    challenges) leaves that header in place. *)
Theorem api_version_on_every_response (app : App) (r : Request) :
  (forall answer, router app r = Unmatched answer ->
                  forall w, keepsAPIVersion w -> keepsAPIVersion (answer w)) ->
  (forall routeName dispatch, handlers app !! routeName = Some dispatch ->
                              handlerKeeps dispatch) ->
  challengesKeep app ->
  exists resp evs,
    serve reference_WithName repositorymiddleware_Get app r = Ok (resp, evs)
    /\ http.Header_Get (RespHeader resp) "Docker-Distribution-API-Version" = "registry/2.0".
Proof.
  intros Hun Hh Hch.
  assert (Hk0 : keepsAPIVersion
                  (withHeader (fun h => http.Header_Add h "Docker-Distribution-API-Version"
                                                        "registry/2.0") newResponseWriter)).
  { split; [reflexivity | intros c h E; discriminate E]. }
  assert (T : twp (ServeHTTP reference_WithName repositorymiddleware_Get app r)
                  (fun _ s' => keepsAPIVersion (rw s'))
                  {| rw := newResponseWriter; events := [] |}).
  { unfold ServeHTTP. apply twp_bind. unfold twp at 1. mstep. cbn [rw events].
    unfold routerServeHTTP. destruct (router app r) as [routeName vars|answer] eqn:Hr.
    - destruct (handlers app !! routeName) as [dispatch|] eqn:Hd.
      + apply dispatcher_keeps; eauto.
      + unfold twp. mstep. apply keeps_NotFound, Hk0.
    - unfold twp. mstep. cbn [rw]. apply (Hun answer eq_refl), Hk0. }
  apply twp_run in T as (a & s' & Hrun & Hk).
  unfold serve. rewrite Hrun. do 2 eexists. split; [reflexivity|].
  apply finish_carries, Hk.
Qed.

End DispatchProperties.

(** The handlers NewApp registers are apiBase and the dispatchers. *)
Lemma registered_handlers env routeName d :
  registered env !! routeName = Some d ->
  In d [ (fun ctx _ w => (ctx, apiBase w)); manifestDispatcher env; catalogDispatcher env;
         tagsDispatcher env; blobDispatcher env; blobUploadDispatcher env ].
Proof.
  unfold registered. intros H.
  repeat (apply lookup_insert_Some in H as [[_ <-]|[_ H]]; [cbn; auto 10|]).
  rewrite lookup_empty in H. discriminate H.
Qed.

Lemma controller_error_response_witness :
  (exists resp evs,
      serve (fun _ => None) (fun _ => None) demo.app
            (demo.request "GET" "/v2/alice/app/tags/list" ∅) = Ok (resp, evs)
      /\ StatusCode resp = 401
      /\ http.Header_Values (RespHeader resp) "WWW-Authenticate" = ["Bearer realm=demo"]
      /\ RespBody resp
         = [JSONErrors [errcode.WithDetail errcode.ErrorCodeUnauthorized
                          (errcode.DetailAccess [repositoryAccess "alice/app" "pull"])]])
  /\ (exists resp evs,
         serve (fun _ => None) (fun _ => None) demo.app
               (demo.request "GET" "/v2/alice/app/tags/list" {[ "user" := ["broken"] ]})
         = Ok (resp, evs)
         /\ StatusCode resp = 400 /\ RespBody resp = []).
Proof.
  split.
  - destruct (controller_error_response (fun _ => None) (fun _ => None) demo.app
                (demo.request "GET" "/v2/alice/app/tags/list" ∅)
                v2.RouteNameTags {[ "name" := "alice/app" ]} demo.dispatch demo.controller)
      as [Hch _].
    + vm_compute. reflexivity.
    + vm_compute. reflexivity.
    + reflexivity.
    + left. vm_compute. discriminate.
    + destruct (Hch None demo.challenge) as (resp & evs & Hs & Hcalls & _ & Hst & _ & Hw & Hb).
      * vm_compute. reflexivity.
      * exists resp, evs. split; [exact Hs|]. split; [exact Hst|].
        split; [rewrite Hw; vm_compute; reflexivity|].
        vm_compute in Hs. injection Hs as <- _. vm_compute. reflexivity.
  - destruct (controller_error_response (fun _ => None) (fun _ => None) demo.app
                (demo.request "GET" "/v2/alice/app/tags/list" {[ "user" := ["broken"] ]})
                v2.RouteNameTags {[ "name" := "alice/app" ]} demo.dispatch demo.controller)
      as [_ Hot].
    + vm_compute. reflexivity.
    + vm_compute. reflexivity.
    + reflexivity.
    + left. vm_compute. discriminate.
    + destruct (Hot None "backend unavailable") as (resp & evs & Hs & _ & _ & Hst & _ & Hb).
      * vm_compute. reflexivity.
      * exists resp, evs. auto.
Defined.

Lemma nameless_request_rejected_witness :
  exists resp evs,
    serve (fun _ => None) (fun _ => None) demo.app
          (demo.request "GET" "/v2/tags/list" ∅) = Ok (resp, evs)
    /\ callouts evs = [] /\ dispatches evs = [] /\ lookups evs = []
    /\ StatusCode resp = 401
    /\ RespBody resp = [JSONErrors [errcode.OfCode errcode.ErrorCodeUnauthorized]].
Proof.
  apply (nameless_request_rejected (fun _ => None) (fun _ => None) demo.app
           (demo.request "GET" "/v2/tags/list" ∅) v2.RouteNameTags ∅
           demo.dispatch demo.controller).
  - vm_compute. reflexivity.
  - vm_compute. reflexivity.
  - reflexivity.
  - reflexivity.
  - vm_compute. discriminate.
  - vm_compute. discriminate.
Defined.

Lemma demo_handlers_keep routeName d :
  handlers demo.app !! routeName = Some d -> handlerKeeps d.
Proof.
  intros H. apply registered_handlers in H. cbn in H.
  assert (Hd : handlerKeeps demo.dispatch).
  { intros ctx r w Hk. cbn. apply keeps_Write, Hk. }
  destruct H as [<-|H]; [intros ctx r w Hk; cbn; apply keeps_apiBase, Hk|].
  repeat (destruct H as [<-|H]; [exact Hd|]). destruct H.
Qed.

Lemma demo_challenges_keep : challengesKeep demo.app.
Proof.
  intros controller r recs g c [= <-] Hc h Hh. unfold demo.controller in Hc.
  repeat destruct (decide _) in Hc; try discriminate Hc.
  injection Hc as _ <-. cbn. apply carries_Add, Hh.
Qed.

Lemma api_version_on_every_response_witness :
  exists resp evs,
    serve (fun _ => None) (fun _ => None) demo.app (demo.request "GET" "/v2/" ∅)
    = Ok (resp, evs)
    /\ http.Header_Get (RespHeader resp) "Docker-Distribution-API-Version" = "registry/2.0".
Proof.
  apply (api_version_on_every_response (fun _ => None) (fun _ => None) demo.app
           (demo.request "GET" "/v2/" ∅)).
  - vm_compute. discriminate.
  - exact demo_handlers_keep.
  - exact demo_challenges_keep.
Defined.

(** ** Construction *)

(** *** The pattern of the empty policy *)





(** *** Rules of the predicate transformer on the construction state *)

Lemma wp_logB l msg (Q : unit -> Boot -> Prop) s :
  Q tt {| cfg := cfg s; logs := logs s ++ [ {| level := l; message := msg |} ];
          goroutines := goroutines s |} -> wp (logB l msg) Q s.
Proof. auto. Qed.

Lemma wp_updateConfig f (Q : unit -> Boot -> Prop) s :
  Q tt {| cfg := f (cfg s); logs := logs s; goroutines := goroutines s |} ->
  wp (updateConfig f) Q s.
Proof. auto. Qed.

Lemma wp_spawn g (Q : unit -> Boot -> Prop) s :
  Q tt {| cfg := cfg s; logs := logs s; goroutines := goroutines s ++ [g] |} ->
  wp (spawn g) Q s.
Proof. auto. Qed.

Ltac wp_step :=
  lazymatch goal with
  | |- wp (_ ≫= _) _ _ => apply wp_bind
  | |- wp (mret _) _ _ => apply wp_ret
  | |- wp (panic _) _ _ => apply wp_panic
  | |- wp (badPurgeUploadConfig _) _ _ => apply wp_panic
  | |- wp (gets _) _ _ => apply wp_gets
  | |- wp (logB _ _) _ _ => apply wp_logB
  | |- wp (updateConfig _) _ _ => apply wp_updateConfig
  | |- wp (spawn _) _ _ => apply wp_spawn
  | |- wp (match ?x with _ => _ end) _ _ => destruct x eqn:?
  | |- wp (if ?b then _ else _) _ _ => destruct b eqn:?
  end.

Lemma logsOnly_refl s : logsOnly s s.
Proof. repeat split. exists []. symmetry. apply app_nil_r. Qed.

Lemma logsOnly_trans s1 s2 s3 : logsOnly s1 s2 -> logsOnly s2 s3 -> logsOnly s1 s3.
Proof.
  intros (H1 & H2 & l & H3) (H4 & H5 & l' & H6). repeat split; try congruence.
  exists (l ++ l'). rewrite H6, H3, app_assoc. reflexivity.
Qed.

Lemma logsOnly_log s l msg :
  logsOnly s {| cfg := cfg s; logs := logs s ++ [ {| level := l; message := msg |} ];
                goroutines := goroutines s |}.
Proof. repeat split. eexists. reflexivity. Qed.

#[local] Hint Resolve logsOnly_refl logsOnly_log : core.

Ltac solve_logsOnly :=
  unfold logsOnly; cbn [cfg logs goroutines]; repeat split; rewrite <- ?app_assoc;
  first [eexists; reflexivity | exists []; symmetry; apply app_nil_r].

(** *** The phases of NewApp *)

Section ConstructionProperties.

Variable env : Env.

Lemma maintenanceConfig_spec st s :
  wp (maintenanceConfig st) (fun pr s' => s' = s /\ purgeConfigured st pr.1) s.
Proof.
  unfold maintenanceConfig, purgeConfigured.
  destruct (st !! "maintenance") as [mc|]; [|wp_step; split; reflexivity].
  destruct (mc !! "uploadpurging") as [[v|m]|]; repeat wp_step; split; reflexivity.
Qed.

Lemma startUploadPurger_spec config s :
  wp (startUploadPurger env config)
     (fun _ s' =>
        cfg s' = cfg s /\ logs s' = logs s
        /\ startedPurger env config (goroutines s) (goroutines s')) s.
Proof.
  unfold startUploadPurger, startedPurger. repeat wp_step; cbn [cfg logs goroutines].
  - repeat split; auto. contradiction.
  - repeat split; auto; [congruence|]. intros _. eauto 12.
Qed.

Lemma configureSecret_spec s :
  wp (configureSecret env)
     (fun _ s' =>
        goroutines s' = goroutines s
        /\ if decide (configuration.Secret (configuration.HTTP_ (cfg s)) = "") then
             exists read,
               rand_Read env randomSecretSize = (read, None)
               /\ cfg s' = configuration.setSecret (generatedSecret read) (cfg s)
               /\ logs s' = logs s ++ [secretWarning]
           else s' = s) s.
Proof.
  unfold configureSecret. wp_step. wp_step. cbn [cfg].
  destruct (decide (configuration.Secret (configuration.HTTP_ (cfg s)) = "")) as [E|E].
  - rewrite repeat_length.
    destruct (rand_Read env randomSecretSize) as [read [err|]] eqn:Hr; repeat wp_step.
    cbn [cfg logs goroutines]. split; [reflexivity|]. exists read. auto.
  - wp_step. auto.
Qed.

Lemma endpointSinks_spec endpoints s :
  wp (endpointSinks endpoints) (fun _ s' => logsOnly s s') s.
Proof.
  revert s. induction endpoints as [|e rest IH]; intros s; cbn [endpointSinks].
  - wp_step. auto.
  - repeat wp_step; eapply wp_conseq; try apply IH; cbn beta; intros a s' H.
    + eapply logsOnly_trans; [|exact H]. auto.
    + wp_step. eapply logsOnly_trans; [|exact H]. auto.
Qed.

Lemma configureEvents_spec s :
  wp (configureEvents env) (fun _ s' => logsOnly s s') s.
Proof.
  unfold configureEvents. wp_step. wp_step. wp_step.
  eapply wp_conseq; [apply endpointSinks_spec|]. cbn beta. intros a s' H. wp_step. exact H.
Qed.

Lemma loadClientCAs_spec cas s :
  wp (loadClientCAs env cas) (fun _ s' => logsOnly s s') s.
Proof.
  revert s. induction cas as [|ca rest IH]; intros s; cbn [loadClientCAs];
    repeat wp_step; auto.
Qed.

Lemma configureRedis_spec s :
  wp (configureRedis env) (fun _ s' => logsOnly s s') s.
Proof.
  unfold configureRedis. wp_step. wp_step.
  wp_step; [repeat wp_step; auto|].
  wp_step. repeat wp_step; auto.
  eapply wp_conseq; [apply loadClientCAs_spec|]. cbn beta. intros a s' H.
  repeat wp_step; auto. eapply logsOnly_trans; [exact H|]. auto.
Qed.

Lemma wrapPatterns_spec field patterns s :
  wp (wrapPatterns env field patterns) (fun _ s' => s' = s) s.
Proof.
  revert s. induction patterns as [|p rest IH]; intros s; cbn [wrapPatterns];
    repeat wp_step; auto.
  eapply wp_conseq; [apply IH|]. cbn beta. intros a s' ->. wp_step. reflexivity.
Qed.

Lemma MustCompile_spec pattern s :
  wp (MustCompile env pattern) (fun _ s' => s' = s) s.
Proof. unfold MustCompile. repeat wp_step. reflexivity. Qed.

Ltac wp_val :=
  lazymatch goal with
  | |- wp (wrapPatterns _ _ _) _ _ =>
      eapply wp_conseq; [apply wrapPatterns_spec | cbn beta; intros ? ? ->]
  | |- wp (MustCompile _ _) _ _ =>
      eapply wp_conseq; [apply MustCompile_spec | cbn beta; intros ? ? ->]
  | _ => wp_step
  end.

(** The validation part: the flag becomes [enabled || !disabled]; with
    the flag on and both lists empty the options gain the allow
    expression for the empty string, followed by no other URL option. *)
Lemma configureValidation_spec options s :
  wp (configureValidation env options)
     (fun options' s' =>
        let v := configuration.Validation_ (cfg s) in
        let v' := configuration.Validation_ (cfg s') in
        goroutines s' = goroutines s
        /\ (exists l, logs s' = logs s ++ l)
        /\ configuration.HTTP_ (cfg s') = configuration.HTTP_ (cfg s)
        /\ configuration.Enabled v' = effective v
        /\ configuration.Disabled v' = configuration.Disabled v
        /\ exists post,
            options' = options ++ post
            /\ (effective v = true ->
                configuration.ManifestsURLsAllow v = [] ->
                configuration.ManifestsURLsDeny v = [] ->
                exists post',
                  post = storage.ManifestURLsAllowRegexp emptyOnly :: post'
                  /\ pureOptions post')) s.
Proof.
  unfold configureValidation, effective, pureOptions.
  repeat wp_val; cbn [cfg logs goroutines configuration.Validation_ configuration.setValidation
                      configuration.setEnabled configuration.Enabled configuration.Disabled
                      configuration.HTTP_ configuration.setAllow configuration.setDeny
                      configuration.ManifestsURLsAllow configuration.ManifestsURLsDeny
                      configuration.ManifestsIndexesPlatforms
                      configuration.ManifestsIndexesPlatformList] in *.
  all: repeat split; try reflexivity;
    try (eexists; rewrite <- ?app_assoc; reflexivity);
    try (exists []; symmetry; apply app_nil_r).
  all: try (destruct (configuration.Enabled (configuration.Validation_ (cfg s))) eqn:?,
                     (configuration.Disabled (configuration.Validation_ (cfg s))) eqn:?;
            cbn in *; congruence).
  all: (eexists; split;
        [rewrite <- ?app_assoc; first [reflexivity | symmetry; apply app_nil_r]|]);
    intros He Ha Hd; rewrite ?Ha, ?Hd in *; cbn [length Nat.eqb andb] in *;
    try discriminate.
  all: try (eexists; split; [reflexivity|]; cbn [forallb isURLOption negb andb];
            try reflexivity;
            induction (configuration.ManifestsIndexesPlatformList _); cbn; auto; fail).
  destruct (configuration.Enabled _), (configuration.Disabled _); discriminate.
Qed.

Lemma NewRegistry_spec options s :
  wp (NewRegistry env options)
     (fun n s' => s' = s /\ regOptions n = options) s.
Proof. unfold NewRegistry. repeat wp_step. auto. Qed.

Lemma configureCache_spec st hasRedis options s :
  wp (configureCache env st hasRedis options)
     (fun cached s' =>
        logsOnly s s'
        /\ forall n, cached = Some n ->
                     exists provider,
                       regOptions n
                       = options ++ [storage.BlobDescriptorCacheProvider provider]) s.
Proof.
  unfold configureCache.
  repeat lazymatch goal with
         | |- wp (NewRegistry _ _) _ _ =>
             eapply wp_conseq; [apply NewRegistry_spec | cbn beta; intros ? ? [-> ?]]
         | _ => wp_step
         end.
  all: split; auto; try discriminate.
  all: try (intros ? [= <-]; eauto).
  solve_logsOnly.
Qed.

Lemma applyRegistryMiddleware_options n mws n' :
  applyRegistryMiddleware env n mws = inl n' -> regOptions n' = regOptions n.
Proof.
  revert n. induction mws as [|mw rest IH]; intros n; cbn [applyRegistryMiddleware].
  - intros [= <-]. reflexivity.
  - destruct (registrymiddleware_Get env mw); [discriminate|].
    intros H. apply IH in H. exact H.
Qed.

Lemma createDriver_spec st s : wp (createDriver env st) (fun _ s' => s' = s) s.
Proof. unfold createDriver. cbv zeta. repeat wp_step; reflexivity. Qed.

Lemma parseHost_spec host s : wp (parseHost env host) (fun _ s' => s' = s) s.
Proof. unfold parseHost. repeat wp_step; reflexivity. Qed.

Lemma baseOptions_digest st :
  In storage.DisableDigestResumption (baseOptions env true st).
Proof.
  unfold baseOptions. cbv zeta.
  destruct (st !! "delete") as [d|]; [destruct (d !! "enabled") as [[[[]| | |]|]|]|];
    rewrite ?in_app_iff; cbn; auto.
Qed.

Lemma tagOptions_spec st options s :
  wp (tagOptions env st options)
     (fun options' s' => s' = s /\ exists more, options' = options ++ more) s.
Proof.
  unfold tagOptions. repeat wp_step; split; eauto using app_nil_r.
  all: exists []; symmetry; apply app_nil_r.
Qed.

Lemma redirectOptions_spec st options s :
  wp (redirectOptions st options)
     (fun options' s' => logsOnly s s' /\ exists more, options' = options ++ more) s.
Proof.
  unfold redirectOptions. repeat wp_step; split; eauto; try solve_logsOnly.
  all: exists []; symmetry; apply app_nil_r.
Qed.

Lemma createRegistry_spec config hasRedis options s :
  wp (createRegistry env config hasRedis options)
     (fun n s' => logsOnly s s'
                  /\ exists more, regOptions n = options ++ more /\ pureOptions more) s.
Proof.
  unfold createRegistry. apply wp_bind. eapply wp_conseq; [apply configureCache_spec|].
  cbn beta. intros cached s1 [Hl Hc]. apply wp_bind.
  apply (wp_conseq _ (fun n s' => s' = s1
                                  /\ exists more, regOptions n = options ++ more
                                                  /\ pureOptions more)).
  - destruct cached as [n|].
    + wp_step. split; [reflexivity|]. destruct (Hc n eq_refl) as [p Hp].
      eexists. split; [exact Hp|reflexivity].
    + eapply wp_conseq; [apply NewRegistry_spec|]. cbn beta. intros n s' [-> Hn].
      split; [reflexivity|]. exists []. rewrite app_nil_r. split; [exact Hn|reflexivity].
  - intros n ? [-> (more & Hn & Hp)]. wp_step; [|wp_step].
    wp_step. split; [exact Hl|]. exists more. split; [|exact Hp].
    erewrite applyRegistryMiddleware_options by eassumption. exact Hn.
Qed.

Lemma configureAuth_spec config s :
  wp (configureAuth env config) (fun _ s' => logsOnly s s') s.
Proof. unfold configureAuth. cbv zeta. repeat wp_step; auto. Qed.

Lemma configureProxy_spec config n s :
  wp (configureProxy env config n)
     (fun n' s' => logsOnly s s' /\ regOptions n' = regOptions n) s.
Proof. unfold configureProxy. repeat wp_step; auto. Qed.

(** What a successful construction establishes. *)
Lemma NewApp_spec s : wp (NewApp env) (NewApp_post env s) s.
Proof.
  unfold NewApp. destruct s as [c l g].
  wp_step. wp_step. cbv beta zeta.
  change (cfg {| cfg := c; logs := l; goroutines := g |}) with c.
  remember (negb (bool_decide (configuration.RemoteURL (configuration.Proxy_ c) = "")))
    as proxy eqn:Hproxy.
  (* the storage driver *)
  apply wp_bind. eapply wp_conseq; [apply createDriver_spec|].
  cbn beta. intros d0 ? ->.
  (* maintenance and the purger *)
  apply wp_bind. eapply wp_conseq; [apply maintenanceConfig_spec|].
  cbn beta. intros [purgeConfig appReadOnly] ? [-> Hdefault]. cbn [fst] in Hdefault.
  apply wp_bind. eapply wp_conseq; [apply startUploadPurger_spec|].
  cbn beta. intros _ [c1 l1 g1]. cbn [cfg logs goroutines]. intros (-> & -> & Hpurger).
  apply wp_bind.
  apply (wp_conseq _ (fun _ s' => s' = {| cfg := c; logs := l; goroutines := g1 |}));
    [repeat wp_step; reflexivity|]. intros d1 ? ->.
  (* the secret *)
  apply wp_bind.
  apply (wp_conseq _ (fun _ s' =>
           goroutines s' = g1
           /\ configuration.Validation_ (cfg s') = configuration.Validation_ c
           /\ (exists lx, logs s' = l ++ lx)
           /\ if proxy then configuration.HTTP_ (cfg s') = configuration.HTTP_ c
              else if decide (configuration.Secret (configuration.HTTP_ c) = "") then
                     exists read,
                       rand_Read env randomSecretSize = (read, None)
                       /\ configuration.HTTP_ (cfg s')
                          = configuration.HTTP_ (configuration.setSecret (generatedSecret read) c)
                       /\ In secretWarning (logs s')
                   else configuration.HTTP_ (cfg s') = configuration.HTTP_ c)).
  { destruct proxy; cbn [negb].
    - wp_step. cbn. repeat split. exists []. symmetry. apply app_nil_r.
    - eapply wp_conseq; [apply configureSecret_spec|]. cbn beta. cbn [cfg logs goroutines].
      intros _ s' [Hg Hs]. split; [exact Hg|].
      destruct (decide (configuration.Secret (configuration.HTTP_ c) = "")).
      + destruct Hs as (read & Hr & -> & ->). repeat split; eauto.
        exists read. repeat split; auto. apply in_or_app. right. left. reflexivity.
      + subst s'. cbn. repeat split. exists []. symmetry. apply app_nil_r. }
  intros _ [c2 l2 g2]. cbn [cfg logs goroutines]. intros (-> & Hval & [lx ->] & Hsec).
  (* events, redis, host *)
  apply wp_bind. eapply wp_conseq; [apply configureEvents_spec|]. cbn beta.
  intros [sinks source] [c3 l3 g3] (Hc & Hg & ly & Hl); cbn [cfg logs goroutines] in Hc, Hg, Hl;
    subst c3 g3 l3.
  apply wp_bind. eapply wp_conseq; [apply configureRedis_spec|]. cbn beta.
  intros hasRedis [c3 l3 g3] (Hc & Hg & ly' & Hl); cbn [cfg logs goroutines] in Hc, Hg, Hl;
    subst c3 g3 l3.
  apply wp_bind. eapply wp_conseq; [apply parseHost_spec|]. cbn beta. intros host ? ->.
  (* the options *)
  apply wp_bind. eapply wp_conseq; [apply tagOptions_spec|]. cbn beta.
  intros options1 ? [-> [more1 ->]].
  apply wp_bind. eapply wp_conseq; [apply redirectOptions_spec|]. cbn beta.
  intros options2 [c3 l3 g3] [(Hc & Hg & ly'' & Hl) [more2 ->]];
    cbn [cfg logs goroutines] in Hc, Hg, Hl; subst c3 g3 l3.
  apply wp_bind. eapply wp_conseq; [apply configureValidation_spec|]. cbn beta zeta.
  intros options3 [c3 l3 g3]. cbn [cfg logs goroutines].
  intros (-> & [lz ->] & Hhttp & Hen & Hdis & post & -> & Hpost).
  (* the registry *)
  apply wp_bind. eapply wp_conseq; [apply createRegistry_spec|]. cbn beta.
  intros n [c4 l4 g4] [(Hc & Hg & lw & Hl) (more3 & Hn & Hpure)];
    cbn [cfg logs goroutines] in Hc, Hg, Hl; subst c4 g4 l4.
  apply wp_bind. eapply wp_conseq; [apply configureAuth_spec|]. cbn beta.
  intros controller [c4 l4 g4] (Hc & Hg & lw' & Hl);
    cbn [cfg logs goroutines] in Hc, Hg, Hl; subst c4 g4 l4.
  apply wp_bind. eapply wp_conseq; [apply configureProxy_spec|]. cbn beta.
  intros n' [c4 l4 g4] [(Hc & Hg & lw'' & Hl) Hn'];
    cbn [cfg logs goroutines] in Hc, Hg, Hl; subst c4 g4 l4.
  apply wp_bind.
  apply (wp_conseq _ (fun _ s' =>
           logsOnly {| cfg := c3;
                       logs := l ++ lx ++ ly ++ ly' ++ ly'' ++ lz ++ lw ++ lw' ++ lw'';
                       goroutines := g1 |} s')).
  { rewrite <- !app_assoc. repeat wp_step; auto. }
  intros _ [c4 l4 g4] (Hc & Hg & lv & Hl); cbn [cfg logs goroutines] in Hc, Hg, Hl;
    subst c4 g4 l4.
  wp_step. wp_step. wp_step. unfold NewApp_post.
  cbv beta zeta. cbn [cfg logs goroutines Config isCache registry]. rewrite <- Hproxy.
  rewrite Hval in *.
  split; [reflexivity|]. split; [reflexivity|]. split; [exact Hen|]. split; [exact Hdis|].
  split.
  { destruct proxy; [congruence|].
    destruct (decide (configuration.Secret (configuration.HTTP_ c) = "")); [|congruence].
    destruct Hsec as (read & Hr & Hh & Hin). exists read.
    split; [exact Hr|]. split; [congruence|].
    rewrite !in_app_iff in *. tauto. }
  split.
  { exists ((baseOptions env proxy (configuration.Storage_ c) ++ more1) ++ more2),
           (post ++ more3).
    split; [rewrite Hn', Hn, <- !app_assoc; reflexivity|]. split.
    - intros ->. rewrite !in_app_iff. left. left. apply baseOptions_digest.
    - intros He Ha Hd. destruct (Hpost He Ha Hd) as (post' & -> & Hp).
      exists (post' ++ more3). split; [reflexivity|].
      unfold pureOptions in *. rewrite forallb_app, Hp. exact Hpure. }
  exists purgeConfig. split; assumption.
Qed.

Lemma NewApp_run s app s' :
  run (NewApp env) s = Ok (app, s') -> NewApp_post env s app s'.
Proof. intros H. exact (wp_run _ _ _ _ _ (NewApp_spec s) H). Qed.

End ConstructionProperties.

(** *** The claims about construction *)

(** A concrete construction that ran into a panic is refuted by running
    it. *)
Ltac no_panic E :=
  exfalso;
  lazymatch type of E with
  | ?t = Panic _ =>
      let H := fresh in
      assert (H : isOk t = true) by (vm_compute; reflexivity);
      rewrite E in H; discriminate H
  end.




(** C6. With a non-empty proxy.remoteurl the application NewApp builds is
    a cache and the options its registry was created with contain
    DisableDigestResumption. *)
Theorem proxy_disables_digest_resumption (env : Env) (s : Boot) (app : App) (s' : Boot) :
  run (NewApp env) s = Ok (app, s') ->
  configuration.RemoteURL (configuration.Proxy_ (cfg s)) <> "" ->
  isCache app = true
  /\ In storage.DisableDigestResumption (regOptions (registry app)).
Proof.
  intros Hrun Hurl.
  destruct (NewApp_run env s app s' Hrun) as (_ & Hcache & _ & _ & _ & Hopts & _).
  destruct Hopts as (pre & post & Hreg & Hpre & _).
  rewrite bool_decide_eq_false_2 in * by exact Hurl. cbn [negb] in *.
  split; [exact Hcache|]. rewrite Hreg. apply in_or_app. left. apply Hpre. reflexivity.
Qed.

Lemma proxy_disables_digest_resumption_witness :
  match run (NewApp demo.env) (demo.boot "https://registry-1.docker.io") with
  | Ok (app, _) =>
      isCache app = true
      /\ In storage.DisableDigestResumption (regOptions (registry app))
  | Panic _ => False
  end.
Proof.
  destruct (run (NewApp demo.env) (demo.boot "https://registry-1.docker.io"))
    as [[app s']|msg] eqn:E.
  - apply (proxy_disables_digest_resumption demo.env _ app s' E). discriminate.
  - no_panic E.
Defined.

(** C10. After construction the enabled flag of the validation section
    is [enabled || !disabled] of the configuration given: true unless
    validation was disabled, and the negation of the disabled flag
    whenever enabled was false. *)
Theorem validation_enabled_by_default (env : Env) (s : Boot) (app : App) (s' : Boot) :
  run (NewApp env) s = Ok (app, s') ->
  let v := configuration.Validation_ (cfg s) in
  let v' := configuration.Validation_ (Config app) in
  configuration.Enabled v' = configuration.Enabled v || negb (configuration.Disabled v)
  /\ (configuration.Disabled v = false -> configuration.Enabled v' = true)
  /\ (configuration.Enabled v = false ->
      configuration.Enabled v' = negb (configuration.Disabled v)).
Proof.
  intros Hrun v v'.
  destruct (NewApp_run env s app s' Hrun) as (Hcfg & _ & Hen & _).
  assert (H : configuration.Enabled v' = effective v) by (unfold v'; rewrite Hcfg; exact Hen).
  unfold effective in H. split; [exact H|]. rewrite H.
  split; intros ->; [apply orb_true_r | reflexivity].
Qed.

Lemma validation_enabled_by_default_witness :
  match run (NewApp demo.env) (demo.boot "") with
  | Ok (app, _) => configuration.Enabled (configuration.Validation_ (Config app)) = true
  | Panic _ => False
  end.
Proof.
  destruct (run (NewApp demo.env) (demo.boot "")) as [[app s']|msg] eqn:E.
  - apply (validation_enabled_by_default demo.env (demo.boot "") app s' E). reflexivity.
  - no_panic E.
Defined.

Lemma length_string_of_list_byte (l : list Byte.byte) :
  String.length (string_of_list_byte l) = length l.
Proof.
  unfold string_of_list_byte. induction l as [|b l IH]; cbn; [reflexivity|].
  f_equal. exact IH.
Qed.

Lemma length_fill buf read : length (fill buf read) = length buf.
Proof.
  unfold fill. rewrite length_take, length_app, length_drop. lia.
Qed.

Lemma length_generatedSecret read : String.length (generatedSecret read) = 32%nat.
Proof.
  unfold generatedSecret. rewrite length_string_of_list_byte, length_fill.
  reflexivity.
Qed.

(** C5 as stated does not hold: for a pull-through cache with an empty
    http.secret, construction succeeds, leaves the secret empty and logs
    no warning about it. *)
Lemma secret_not_generated_for_proxy :
  configuration.Secret
    (configuration.HTTP_ (cfg (demo.boot "https://registry-1.docker.io"))) = ""
  /\ match run (NewApp demo.env) (demo.boot "https://registry-1.docker.io") with
     | Ok (app, s') =>
         configuration.Secret (configuration.HTTP_ (Config app)) = ""
         /\ String.length (configuration.Secret (configuration.HTTP_ (Config app))) <> 32%nat
         /\ ~ In secretWarning (logs s')
     | Panic _ => False
     end.
Proof.
  split; [reflexivity|].
  assert (H : exists l,
             match run (NewApp demo.env) (demo.boot "https://registry-1.docker.io") with
             | Ok (app, s') =>
                 Some (configuration.Secret (configuration.HTTP_ (Config app)), logs s')
             | Panic _ => None
             end = Some ("", l)
             /\ ~ In secretWarning l).
  { eexists. split; [vm_compute; reflexivity|].
    cbn. intros H. repeat (destruct H as [H|H]; [discriminate H|]). exact H. }
  destruct H as (l & H & Hl).
  destruct (run (NewApp demo.env) (demo.boot "https://registry-1.docker.io"))
    as [[app s']|msg]; [|discriminate H].
  injection H as -> ->. split; [reflexivity|]. split; [discriminate|exact Hl].
Qed.

(** C5, amended. For a configuration whose http.secret is empty and whose
    proxy.remoteurl is empty, a successful construction has read random
    bytes without error, stored as the HTTP secret the 32 bytes of the
    array they were read into, and logged the warning. *)
Theorem secret_generated_unless_proxy (env : Env) (s : Boot) (app : App) (s' : Boot) :
  run (NewApp env) s = Ok (app, s') ->
  configuration.Secret (configuration.HTTP_ (cfg s)) = "" ->
  configuration.RemoteURL (configuration.Proxy_ (cfg s)) = "" ->
  exists read,
    rand_Read env randomSecretSize = (read, None)
    /\ configuration.Secret (configuration.HTTP_ (Config app)) = generatedSecret read
    /\ String.length (configuration.Secret (configuration.HTTP_ (Config app))) = 32%nat
    /\ In secretWarning (logs s').
Proof.
  intros Hrun Hsecret Hurl.
  destruct (NewApp_run env s app s' Hrun) as (Hcfg & _ & _ & _ & Hsec & _).
  rewrite Hurl in Hsec. cbn in Hsec.
  rewrite decide_True in Hsec by exact Hsecret.
  destruct Hsec as (read & Hr & Hh & Hin). exists read.
  assert (E : configuration.Secret (configuration.HTTP_ (Config app)) = generatedSecret read).
  { rewrite Hcfg, Hh. reflexivity. }
  split; [exact Hr|]. split; [exact E|]. split; [|exact Hin].
  rewrite E. apply length_generatedSecret.
Qed.

Lemma secret_generated_unless_proxy_witness :
  match run (NewApp demo.env) (demo.boot "") with
  | Ok (app, s') =>
      String.length (configuration.Secret (configuration.HTTP_ (Config app))) = 32%nat
      /\ In secretWarning (logs s')
  | Panic _ => False
  end.
Proof.
  destruct (run (NewApp demo.env) (demo.boot "")) as [[app s']|msg] eqn:E.
  - destruct (secret_generated_unless_proxy demo.env (demo.boot "") app s' E)
      as (read & _ & _ & Hlen & Hin).
    + reflexivity.
    + reflexivity.
    + split; assumption.
  - no_panic E.
Defined.








(** * Properties beyond the design document *)

(** ** The request path *)

Lemma dispatches_app evs evs' : dispatches (evs ++ evs') = dispatches evs ++ dispatches evs'.
Proof. apply omap_app. Qed.

Lemma lookups_app evs evs' : lookups (evs ++ evs') = lookups evs ++ lookups evs'.
Proof. apply omap_app. Qed.

(** A request that passes authorization: the context gains the grant, the
    response is not touched, and the controller, if any, was called
    once. *)
Lemma authorized_passes app r ctx s :
  passes app r (getName ctx) ->
  getName ctx <> "" \/ nameRequired r = false ->
  exists evs,
    run (authorized app r ctx) s
    = Ok ((authorizedContext app r ctx, None), {| rw := rw s; events := events s ++ evs |})
    /\ callouts evs = consulted app r (getName ctx)
    /\ dispatches evs = [] /\ lookups evs = [].
Proof.
  unfold passes, authorizedContext, consulted. intros Hp Hcase.
  destruct (accessController app) as [controller|] eqn:Hac.
  - destruct Hp as [g Hg].
    rewrite (authorized_records app controller r ctx s Hac Hcase). cbv zeta.
    rewrite Hg. eexists. rewrite <- app_assoc. split; [reflexivity|].
    repeat split.
  - unfold authorized. rewrite Hac. mstep. cbn [rw events].
    eexists. split; [reflexivity|]. repeat split.
Qed.

(** X1. authorized always returns: the route, which appendCatalogAccessRecord
    dereferences without a nil check, is only reached behind nameRequired,
    which answers true for a missing route. The context comes back
    unchanged unless a grant was stored in it, a nil error leaves the
    response untouched, and authorization neither looks up a repository
    nor dispatches a handler. *)
Theorem authorized_never_panics (app : App) (r : Request) (ctx : Context) (s : RS) :
  exists res s',
    run (authorized app r ctx) s = Ok (res, s')
    /\ (res.1 = ctx \/ exists grant, res.2 = None /\ res.1 = setGrant grant ctx)
    /\ (res.2 = None -> rw s' = rw s)
    /\ (exists evs, events s' = events s ++ evs /\ dispatches evs = [] /\ lookups evs = []).
Proof.
  destruct (accessController app) as [controller|] eqn:Hac.
  - assert (K : getName ctx <> "" \/ nameRequired r = false ->
                exists res s',
                  run (authorized app r ctx) s = Ok (res, s')
                  /\ (res.1 = ctx \/ exists grant, res.2 = None /\ res.1 = setGrant grant ctx)
                  /\ (res.2 = None -> rw s' = rw s)
                  /\ (exists evs, events s' = events s ++ evs
                                  /\ dispatches evs = [] /\ lookups evs = [])).
    { intros Hcase. rewrite (authorized_records app controller r ctx s Hac Hcase). cbv zeta.
      destruct (controller r _) as [[g|] [[c|msg]|]]; do 2 eexists;
        (split; [reflexivity|]); cbn [fst snd rw events]; rewrite <- ?app_assoc;
        (split; [eauto|]); (split; [auto; discriminate|]); eexists; repeat split. }
    destruct (decide (getName ctx <> "")) as [Hn|Hn]; [apply K; auto|].
    destruct (nameRequired r) eqn:Hreq; [|apply K; auto].
    unfold authorized. rewrite Hac, Hreq.
    rewrite (decide_False (P := getName ctx <> "")) by exact Hn.
    mstep. cbn [rw events]. do 2 eexists. split; [reflexivity|]. cbn [fst snd events].
    split; [auto|]. split; [discriminate|]. eexists. repeat split.
  - unfold authorized. rewrite Hac. mstep. do 2 eexists. split; [reflexivity|].
    cbn [fst snd rw events]. split; [auto|]. split; [reflexivity|]. eexists. repeat split.
Qed.

(** X2. With an access controller and an empty repository name, the base
    route asks the controller about no record at all and the catalog route
    about exactly one record, of type registry, name catalog and any
    action; the method and the form value [from] play no part. *)
Theorem nameless_route_records
        (app : App) (controller : AccessController) (r : Request) (ctx : Context)
        (s : RS) (routeName : string) :
  accessController app = Some controller ->
  getName ctx = "" ->
  CurrentRoute r = Some routeName ->
  routeName = v2.RouteNameBase \/ routeName = v2.RouteNameCatalog ->
  exists res s',
    run (authorized app r ctx) s = Ok (res, s')
    /\ callouts (events s')
       = callouts (events s)
         ++ [if decide (routeName = v2.RouteNameCatalog) then
               [ {| auth.Resource_ := {| auth.Type_ := "registry"; auth.Name := "catalog" |};
                    auth.Action := "*" |} ]
             else []].
Proof.
  intros Hac Hname Hroute Hrn.
  assert (Hreq : nameRequired r = false).
  { unfold nameRequired. rewrite Hroute. destruct Hrn as [->| ->]; reflexivity. }
  rewrite (authorized_records app controller r ctx s Hac (or_intror Hreq)). cbv zeta.
  assert (Hrecs : requestRecords r (getName ctx)
                  = if decide (routeName = v2.RouteNameCatalog) then
                      [ {| auth.Resource_ := {| auth.Type_ := "registry"; auth.Name := "catalog" |};
                           auth.Action := "*" |} ]
                    else []).
  { unfold requestRecords, appendCatalogAccessRecord. rewrite Hname, Hroute.
    rewrite decide_False by auto. destruct (decide (routeName = _)); reflexivity. }
  rewrite Hrecs.
  destruct (controller r _) as [[g|] [[c|msg]|]]; do 2 eexists; (split; [reflexivity|]);
    cbn [events]; rewrite !callouts_app; cbn [callouts omap]; rewrite ?app_nil_r; reflexivity.
Qed.

Section DispatchOutcomes.

Variable reference_WithName : string -> option string.
Variable repositorymiddleware_Get : configuration.Middleware -> option string.

Lemma logError_run errs s :
  exists evs,
    run (logError errs) s = Ok (tt, {| rw := rw s; events := events s ++ evs |})
    /\ quiet evs.
Proof.
  revert s. induction errs as [|e errs IH]; intros s; cbn [logError fold_right].
  - exists []. rewrite app_nil_r. destruct s. split; [reflexivity|]. repeat split.
  - mstep. destruct (IH {| rw := rw s;
                           events := events s ++ [Logged {| level := Error;
                               message := "response completed with error" |}] |})
      as (evs & Hrun & Hc & Hd & Hl).
    fold (logError errs). rewrite Hrun. cbn [rw events]. rewrite <- app_assoc.
    eexists. split; [reflexivity|]. unfold quiet.
    rewrite callouts_app, dispatches_app, lookups_app, Hc, Hd, Hl. repeat split.
Qed.

(** The dispatcher from the outcome of its body on. *)
Lemma dispatcher_after app dispatch r s ctx' s1 :
  run (dispatcherBody reference_WithName repositorymiddleware_Get app dispatch
         (context app r) r)
      {| rw := withHeader (addHeaders (configuration.Headers
                                         (configuration.HTTP_ (Config app)))) (rw s);
         events := events s |} = Ok (ctx', s1) ->
  exists evs,
    run (dispatcher reference_WithName repositorymiddleware_Get app dispatch r) s
    = Ok (tt, {| rw := deferred ctx' (rw s1); events := events s1 ++ evs |})
    /\ quiet evs.
Proof.
  intros Hbody. unfold dispatcher. mstep. rewrite Hbody. unfold deferred.
  destruct (Errors ctx') as [|e errs] eqn:He; cbn [length Nat.ltb Nat.leb]; mstep.
  - assert (Q0 : quiet []) by (repeat split).
    assert (Q1 : quiet [Logged {| level := Info; message := "response completed" |}])
      by (repeat split).
    destruct (wrote (rw s1)) as [[status h]|];
      [destruct ((200 <=? status) && (status <=? 399))|]; mstep; cbn [rw events];
      try (exists []; rewrite app_nil_r; destruct s1; split; [reflexivity|exact Q0]).
    eexists. split; [reflexivity|exact Q1].
  - destruct (logError_run (e :: errs)
                {| rw := ServeJSON (e :: errs) (rw s1); events := events s1 |})
      as (evs & Hrun & Hq).
    rewrite Hrun. cbn [rw events]. exists evs. split; [reflexivity|exact Hq].
Qed.

Lemma initialWriter_eq app :
  withHeader (addHeaders (configuration.Headers (configuration.HTTP_ (Config app))))
    (withHeader (fun h => http.Header_Add h "Docker-Distribution-API-Version" "registry/2.0")
       newResponseWriter)
  = initialWriter app.
Proof. reflexivity. Qed.

(** Serving a request whose route has a handler, from the outcome of the
    dispatcher's body. *)
Lemma serve_after app r routeName vars dispatch ctx' s1 :
  router app r = Matched routeName vars ->
  handlers app !! routeName = Some dispatch ->
  run (dispatcherBody reference_WithName repositorymiddleware_Get app dispatch
         (context app (withRoute routeName vars r)) (withRoute routeName vars r))
      {| rw := initialWriter app; events := [] |} = Ok (ctx', s1) ->
  exists evs,
    serve reference_WithName repositorymiddleware_Get app r
    = Ok (finish (deferred ctx' (rw s1)), events s1 ++ evs)
    /\ quiet evs.
Proof.
  intros Hrouter Hhandler Hbody.
  unfold serve, ServeHTTP, routerServeHTTP. mstep. rewrite Hrouter, Hhandler.
  destruct (dispatcher_after app dispatch (withRoute routeName vars r)
              {| rw := withHeader (fun h => http.Header_Add h
                                     "Docker-Distribution-API-Version" "registry/2.0")
                                  newResponseWriter;
                 events := [] |} ctx' s1) as (evs & Hrun & Hq).
  { cbn [rw events]. rewrite initialWriter_eq. exact Hbody. }
  cbn [rw events]. rewrite Hrun. cbn [rw events]. exists evs. split; [reflexivity|exact Hq].
Qed.

Lemma nameRequired_withRoute routeName vars r :
  routeName <> v2.RouteNameBase -> routeName <> v2.RouteNameCatalog ->
  nameRequired (withRoute routeName vars r) = true.
Proof.
  intros Hb Hc. unfold nameRequired. cbn [CurrentRoute withRoute].
  rewrite !bool_decide_eq_true_2 by assumption. reflexivity.
Qed.

Ltac quiet_events Hq :=
  destruct Hq as (Hqc & Hqd & Hql);
  rewrite ?callouts_app, ?dispatches_app, ?lookups_app, ?Hqc, ?Hqd, ?Hql, ?app_nil_r.

(** X3. A request on a route that needs a name, whose name is not empty and
    parses, that passes authorization, whose repository resolves and whose
    repository middlewares all initialise: the controller (if any) is
    consulted once, the repository looked up once, and the handler
    dispatched once, on the context that carries the grant and the
    repository and on a writer that holds the API version and the
    configured headers. The response is what the handler wrote, followed
    by the envelope of the errors it left in the context, if any. *)
Theorem passed_request_dispatched
        (app : App) (r : Request) (routeName : string) (vars : gmap string string)
        (dispatch : dispatchFunc) :
  let r' := withRoute routeName vars r in
  let name := default "" (vars !! "name") in
  router app r = Matched routeName vars ->
  handlers app !! routeName = Some dispatch ->
  routeName <> v2.RouteNameBase ->
  routeName <> v2.RouteNameCatalog ->
  name <> "" ->
  passes app r' name ->
  reference_WithName name = None ->
  Repository_ (registry app) name = None ->
  applyRepoMiddleware repositorymiddleware_Get
    (default [] (configuration.Middleware_ (Config app) !! "repository")) = None ->
  let ctx := setRepository name (authorizedContext app r' (context app r')) in
  exists evs,
    serve reference_WithName repositorymiddleware_Get app r
    = Ok (finish (deferred (dispatch ctx r' (initialWriter app)).1
                           (dispatch ctx r' (initialWriter app)).2), evs)
    /\ callouts evs = consulted app r' name
    /\ lookups evs = [name]
    /\ dispatches evs = [Some routeName].
Proof.
  intros r' name Hrouter Hhandler Hb Hc Hname Hp Href Hrepo Hmw ctx.
  destruct (authorized_passes app r' (context app r') {| rw := initialWriter app; events := [] |})
    as (evs0 & Hauth & Hcall & Hdisp & Hlook); [exact Hp | left; exact Hname |].
  assert (Hn : getName (authorizedContext app r' (context app r')) = name).
  { unfold authorizedContext. destruct (accessController app) as [c|]; [|reflexivity].
    destruct (c r' _) as [[g|] [e|]]; reflexivity. }
  assert (Hreq : nameRequired r' = true) by (apply nameRequired_withRoute; assumption).
  destruct (dispatch ctx r' (initialWriter app)) as [ctx' w'] eqn:Hd.
  destruct (serve_after app r routeName vars dispatch ctx'
              {| rw := w';
                 events := evs0 ++ [RepositoryCall name; DispatchCall (Some routeName)] |}
              Hrouter Hhandler) as (evs & Hserve & Hq).
  { fold r'. unfold dispatcherBody. mstep. rewrite Hauth. mstep.
    rewrite Hreq, Hn, Href. mstep.
    rewrite Hrepo, Hmw. mstep. cbn [rw events]. fold ctx. rewrite Hd. mstep.
    cbn [rw events]. rewrite <- app_assoc. reflexivity. }
  eexists. split; [exact Hserve|]. cbn [fst snd rw events].
  quiet_events Hq. rewrite Hcall, Hdisp, Hlook. repeat split.
Qed.

Lemma Errors_authorizedContext app r ctx :
  Errors (authorizedContext app r ctx) = Errors ctx.
Proof.
  unfold authorizedContext. destruct (accessController app) as [c|]; [|reflexivity].
  destruct (c r _) as [[g|] [e|]]; reflexivity.
Qed.

Lemma getName_authorizedContext app r ctx :
  getName (authorizedContext app r ctx) = getName ctx.
Proof.
  unfold authorizedContext. destruct (accessController app) as [c|]; [|reflexivity].
  destruct (c r _) as [[g|] [e|]]; reflexivity.
Qed.

(** X4. On the base and the catalog route a request that passes
    authorization is dispatched without a repository: no name is parsed,
    no repository looked up, and the handler sees a context without one,
    whatever name variable the request carries. *)
Theorem base_and_catalog_skip_repository
        (app : App) (r : Request) (routeName : string) (vars : gmap string string)
        (dispatch : dispatchFunc) :
  let r' := withRoute routeName vars r in
  let name := default "" (vars !! "name") in
  router app r = Matched routeName vars ->
  handlers app !! routeName = Some dispatch ->
  routeName = v2.RouteNameBase \/ routeName = v2.RouteNameCatalog ->
  passes app r' name ->
  let ctx := authorizedContext app r' (context app r') in
  Repository ctx = None
  /\ exists evs,
      serve reference_WithName repositorymiddleware_Get app r
      = Ok (finish (deferred (dispatch ctx r' (initialWriter app)).1
                             (dispatch ctx r' (initialWriter app)).2), evs)
      /\ callouts evs = consulted app r' name
      /\ lookups evs = []
      /\ dispatches evs = [Some routeName].
Proof.
  intros r' name Hrouter Hhandler Hroute Hp ctx.
  assert (Hreq : nameRequired r' = false).
  { unfold nameRequired. cbn [CurrentRoute r' withRoute].
    destruct Hroute as [->| ->]; reflexivity. }
  split.
  { unfold ctx, authorizedContext. destruct (accessController app) as [c|]; [|reflexivity].
    destruct (c r' _) as [[g|] [e|]]; reflexivity. }
  destruct (authorized_passes app r' (context app r') {| rw := initialWriter app; events := [] |})
    as (evs0 & Hauth & Hcall & Hdisp & Hlook); [exact Hp | right; exact Hreq |].
  destruct (dispatch ctx r' (initialWriter app)) as [ctx' w'] eqn:Hd.
  destruct (serve_after app r routeName vars dispatch ctx'
              {| rw := w'; events := evs0 ++ [DispatchCall (Some routeName)] |}
              Hrouter Hhandler) as (evs & Hserve & Hq).
  { fold r'. unfold dispatcherBody. mstep. rewrite Hauth. mstep. rewrite Hreq. mstep.
    cbn [rw events]. fold ctx. rewrite Hd. mstep. reflexivity. }
  eexists. split; [exact Hserve|]. cbn [fst snd rw events].
  quiet_events Hq. rewrite Hcall, Hdisp, Hlook. repeat split.
Qed.

(** X5. When the name of an authorized request does not parse as a
    reference, no repository is looked up and no handler dispatched; the
    error is appended to the context and served at once, and served again
    by the deferred function, so the body holds the envelope twice. The
    error carries no error code, so the status, written by the first call,
    is the 500 of the envelope model. *)
Theorem invalid_name_not_looked_up
        (app : App) (r : Request) (routeName : string) (vars : gmap string string)
        (dispatch : dispatchFunc) (reason : string) :
  let r' := withRoute routeName vars r in
  let name := default "" (vars !! "name") in
  router app r = Matched routeName vars ->
  handlers app !! routeName = Some dispatch ->
  routeName <> v2.RouteNameBase ->
  routeName <> v2.RouteNameCatalog ->
  name <> "" ->
  passes app r' name ->
  reference_WithName name = Some reason ->
  exists resp evs,
    serve reference_WithName repositorymiddleware_Get app r = Ok (resp, evs)
    /\ callouts evs = consulted app r' name
    /\ lookups evs = []
    /\ dispatches evs = []
    /\ StatusCode resp = 500
    /\ RespBody resp = [JSONErrors [errcode.Plain reason]; JSONErrors [errcode.Plain reason]].
Proof.
  intros r' name Hrouter Hhandler Hb Hc Hname Hp Href.
  destruct (authorized_passes app r' (context app r') {| rw := initialWriter app; events := [] |})
    as (evs0 & Hauth & Hcall & Hdisp & Hlook); [exact Hp | left; exact Hname |].
  assert (Hreq : nameRequired r' = true) by (apply nameRequired_withRoute; assumption).
  pose proof (getName_authorizedContext app r' (context app r')) as Hn.
  pose proof (Errors_authorizedContext app r' (context app r')) as He.
  change (getName (context app r')) with name in Hn.
  change (Errors (context app r')) with (@nil errcode.Error) in He.
  destruct (serve_after app r routeName vars dispatch
              (appendErrors (errcode.Plain reason) (authorizedContext app r' (context app r')))
              {| rw := ServeJSON [errcode.Plain reason] (initialWriter app);
                 events := evs0 ++ [Logged {| level := Error;
                     message := "error parsing reference from context: %v" |}] |}
              Hrouter Hhandler) as (evs & Hserve & Hq).
  { fold r'. unfold dispatcherBody. mstep. rewrite Hauth. mstep. rewrite Hreq, Hn, Href. mstep.
    cbn [rw events appendErrors Errors]. rewrite He. reflexivity. }
  do 2 eexists. split; [exact Hserve|]. cbn [rw events].
  quiet_events Hq. rewrite Hcall, Hdisp, Hlook.
  unfold deferred. cbn [appendErrors Errors]. rewrite He. repeat split.
Qed.

(** X6. When the repository lookup fails, the repository was asked for once
    and no handler is dispatched. An unknown repository is answered 404
    NAME_UNKNOWN and an invalid name 400 NAME_INVALID, an errcode error
    with the status of its code, each with the envelope written twice (at
    once and by the deferred function); any other error is appended
    nowhere, so the envelope is served once, empty, with status 500. *)
Theorem repository_error_blocks_dispatch
        (app : App) (r : Request) (routeName : string) (vars : gmap string string)
        (dispatch : dispatchFunc) (err : RepositoryError) :
  let r' := withRoute routeName vars r in
  let name := default "" (vars !! "name") in
  router app r = Matched routeName vars ->
  handlers app !! routeName = Some dispatch ->
  routeName <> v2.RouteNameBase ->
  routeName <> v2.RouteNameCatalog ->
  name <> "" ->
  passes app r' name ->
  reference_WithName name = None ->
  Repository_ (registry app) name = Some err ->
  exists resp evs,
    serve reference_WithName repositorymiddleware_Get app r = Ok (resp, evs)
    /\ callouts evs = consulted app r' name
    /\ lookups evs = [name]
    /\ dispatches evs = []
    /\ (err = ErrRepositoryUnknown ->
        let e := errcode.WithDetail errcode.ErrorCodeNameUnknown
                   (errcode.DetailError "repository unknown") in
        StatusCode resp = 404 /\ RespBody resp = [JSONErrors [e]; JSONErrors [e]])
    /\ (err = ErrRepositoryNameInvalid ->
        let e := errcode.WithDetail errcode.ErrorCodeNameInvalid
                   (errcode.DetailError "repository name invalid") in
        StatusCode resp = 400 /\ RespBody resp = [JSONErrors [e]; JSONErrors [e]])
    /\ (forall c d, err = ErrErrcode c d ->
        let e := errcode.WithDetail c d in
        StatusCode resp = errcode.HTTPStatusCode c
        /\ RespBody resp = [JSONErrors [e]; JSONErrors [e]])
    /\ (forall msg, err = ErrOther msg ->
        StatusCode resp = 500 /\ RespBody resp = [JSONErrors []]).
Proof.
  intros r' name Hrouter Hhandler Hb Hc Hname Hp Href Hrepo.
  destruct (authorized_passes app r' (context app r') {| rw := initialWriter app; events := [] |})
    as (evs0 & Hauth & Hcall & Hdisp & Hlook); [exact Hp | left; exact Hname |].
  assert (Hreq : nameRequired r' = true) by (apply nameRequired_withRoute; assumption).
  pose proof (getName_authorizedContext app r' (context app r')) as Hn.
  pose proof (Errors_authorizedContext app r' (context app r')) as He.
  change (getName (context app r')) with name in Hn.
  change (Errors (context app r')) with (@nil errcode.Error) in He.
  set (ctx := authorizedContext app r' (context app r')) in *.
  set (ctx' := match err with
               | ErrRepositoryUnknown =>
                   appendErrors (errcode.WithDetail errcode.ErrorCodeNameUnknown
                                   (errcode.DetailError "repository unknown")) ctx
               | ErrRepositoryNameInvalid =>
                   appendErrors (errcode.WithDetail errcode.ErrorCodeNameInvalid
                                   (errcode.DetailError "repository name invalid")) ctx
               | ErrErrcode c d => appendErrors (errcode.WithDetail c d) ctx
               | ErrOther _ => ctx
               end).
  destruct (serve_after app r routeName vars dispatch ctx'
              {| rw := ServeJSON (Errors ctx') (initialWriter app);
                 events := evs0 ++ [RepositoryCall name;
                                    Logged {| level := Error;
                                              message := "error resolving repository: %v" |}] |}
              Hrouter Hhandler) as (evs & Hserve & Hq).
  { fold r'. unfold dispatcherBody. mstep. rewrite Hauth. mstep. fold ctx.
    rewrite Hreq, Hn, Href. mstep. rewrite Hrepo. mstep. cbn [rw events].
    rewrite <- app_assoc. reflexivity. }
  do 2 eexists. split; [exact Hserve|]. cbn [rw events].
  quiet_events Hq. rewrite Hcall, Hdisp, Hlook.
  do 3 (split; [reflexivity|]).
  unfold deferred, ctx'.
  repeat split; intros; subst err; cbn [appendErrors Errors]; rewrite He; reflexivity.
Qed.

(** X8. An access controller that returns neither a grant nor an error
    stops the request: no handler is dispatched and no repository looked
    up. authorized writes nothing in this case and the errors of the
    context stay empty, so the client receives status 200 with an empty
    body and the initial headers. *)
Theorem empty_verdict_blocks_request
        (app : App) (r : Request) (routeName : string) (vars : gmap string string)
        (dispatch : dispatchFunc) (controller : AccessController) :
  let r' := withRoute routeName vars r in
  let name := default "" (vars !! "name") in
  router app r = Matched routeName vars ->
  handlers app !! routeName = Some dispatch ->
  accessController app = Some controller ->
  name <> "" \/ routeName = v2.RouteNameBase \/ routeName = v2.RouteNameCatalog ->
  controller r' (requestRecords r' name) = (None, None) ->
  exists evs,
    serve reference_WithName repositorymiddleware_Get app r
    = Ok ({| StatusCode := 200; RespHeader := initialHeader app; RespBody := [] |}, evs)
    /\ callouts evs = [requestRecords r' name]
    /\ lookups evs = []
    /\ dispatches evs = [].
Proof.
  intros r' name Hrouter Hhandler Hac Hcase Hctl.
  assert (Hcase' : getName (context app r') <> "" \/ nameRequired r' = false).
  { destruct Hcase as [H|[->| ->]]; [left; exact H | right; reflexivity ..]. }
  pose proof (authorized_records app controller r' (context app r')
                {| rw := initialWriter app; events := [] |} Hac Hcase') as Hauth.
  cbv zeta in Hauth. change (getName (context app r')) with name in Hauth.
  rewrite Hctl in Hauth.
  destruct (serve_after app r routeName vars dispatch (context app r')
              {| rw := initialWriter app;
                 events := [Logged {| level := Debug; message := "authorizing request" |};
                            AuthorizedCall (requestRecords r' name);
                            Logged {| level := Warn;
                                      message := "error authorizing context: %v" |}] |}
              Hrouter Hhandler) as (evs & Hserve & Hq).
  { fold r'. unfold dispatcherBody. mstep. rewrite Hauth. mstep. reflexivity. }
  eexists. split; [exact Hserve|]. cbn [rw events].
  quiet_events Hq. repeat split.
Qed.

End DispatchOutcomes.

Lemma fold_Add_values vs (h : http.Header) n k :
  http.Header_Values (fold_left (fun h value => http.Header_Add h n value) vs h) k
  = http.Header_Values h k
    ++ (if decide (http.CanonicalHeaderKey n = http.CanonicalHeaderKey k) then vs else []).
Proof.
  revert h. induction vs as [|v vs IH]; intros h; cbn [fold_left].
  - destruct (decide _); rewrite app_nil_r; reflexivity.
  - rewrite IH. unfold http.Header_Values, http.Header_Add.
    destruct (decide (http.CanonicalHeaderKey n = http.CanonicalHeaderKey k)) as [E|E].
    + rewrite E, lookup_insert_eq. cbn [default]. unfold id.
      rewrite <- app_assoc. reflexivity.
    + rewrite lookup_insert_ne by exact E. reflexivity.
Qed.

(** X10. The header loop of the dispatcher appends: after it, the values of
    a header are those it had before, followed by the configured values of
    every entry whose name has the same canonical form, in the order of
    the entries. Values already present (the API version) are never
    replaced. *)
Theorem configured_headers_appended
        (hs : list (string * list string)) (h : http.Header) (k : string) :
  http.Header_Values (addHeaders hs h) k
  = http.Header_Values h k
    ++ flat_map (fun entry =>
                   if decide (http.CanonicalHeaderKey entry.1 = http.CanonicalHeaderKey k)
                   then entry.2 else []) hs.
Proof.
  revert h. induction hs as [|[n vs] hs IH]; intros h; cbn [addHeaders flat_map fst snd].
  - rewrite app_nil_r. reflexivity.
  - rewrite IH, fold_Add_values, <- app_assoc. reflexivity.
Qed.

(** X11. applyRepoMiddleware succeeds iff every configured middleware
    initialises, and otherwise returns the error of the first one that
    fails, all the middlewares before it having initialised. *)
Theorem applyRepoMiddleware_first_error
        (Get : configuration.Middleware -> option string)
        (middlewares : list configuration.Middleware) :
  (applyRepoMiddleware Get middlewares = None
   <-> Forall (fun mw => Get mw = None) middlewares)
  /\ (forall err,
         applyRepoMiddleware Get middlewares = Some err
         <-> exists pre mw post,
               middlewares = pre ++ mw :: post
               /\ Forall (fun mw => Get mw = None) pre
               /\ Get mw = Some err).
Proof.
  induction middlewares as [|mw rest [IHn IHs]]; cbn [applyRepoMiddleware].
  - split; [split; auto|]. intros err. split; [discriminate|].
    intros (pre & mw & post & E & _). destruct pre; discriminate E.
  - destruct (Get mw) as [e|] eqn:Hg.
    + split.
      * split; [discriminate|]. intros H. inversion H; congruence.
      * intros err. split.
        -- intros [= <-]. exists [], mw, rest. auto.
        -- intros (pre & mw' & post & E & Hpre & Hmw). destruct pre as [|p pre].
           ++ injection E as <- _. congruence.
           ++ injection E as <- _. inversion Hpre; congruence.
    + split.
      * rewrite IHn. split; [intros H; constructor; assumption|].
        intros H. inversion H; assumption.
      * intros err. rewrite IHs. split.
        -- intros (pre & mw' & post & -> & Hpre & Hmw). exists (mw :: pre), mw', post.
           split; [reflexivity|]. split; [constructor; assumption|exact Hmw].
        -- intros (pre & mw' & post & E & Hpre & Hmw). destruct pre as [|p pre].
           ++ injection E as <- _. congruence.
           ++ injection E as <- ->. exists pre, mw', post. inversion Hpre; auto.
Qed.

Section DispatchMore.

Variable reference_WithName : string -> option string.
Variable repositorymiddleware_Get : configuration.Middleware -> option string.

(** X9. With the handlers NewApp registers, a request on the base route
    that passes authorization is answered by apiBase: status 200, body {},
    the headers Content-Type: application/json and Content-Length: 2 set
    on top of the API version and the configured headers; no repository is
    looked up. *)
Theorem base_route_answers_empty_json
        (env : Env) (app : App) (r : Request) (vars : gmap string string) :
  handlers app = registered env ->
  router app r = Matched v2.RouteNameBase vars ->
  passes app (withRoute v2.RouteNameBase vars r) (default "" (vars !! "name")) ->
  exists evs,
    serve reference_WithName repositorymiddleware_Get app r
    = Ok ({| StatusCode := 200;
             RespHeader := http.Header_Set
                             (http.Header_Set (initialHeader app)
                                              "Content-Type" "application/json")
                             "Content-Length" "2";
             RespBody := [Text "{}"] |}, evs)
    /\ lookups evs = []
    /\ dispatches evs = [Some v2.RouteNameBase].
Proof.
  intros Hh Hrouter Hp.
  set (r' := withRoute v2.RouteNameBase vars r) in *.
  destruct (authorized_passes app r' (context app r') {| rw := initialWriter app; events := [] |})
    as (evs0 & Hauth & Hcall & Hdisp & Hlook); [exact Hp | right; reflexivity |].
  destruct (serve_after reference_WithName repositorymiddleware_Get app r v2.RouteNameBase vars
              (fun ctx _ w => (ctx, apiBase w))
              (authorizedContext app r' (context app r'))
              {| rw := apiBase (initialWriter app);
                 events := evs0 ++ [DispatchCall (Some v2.RouteNameBase)] |}
              Hrouter) as (evs & Hserve & Hq).
  { rewrite Hh. reflexivity. }
  { fold r'. unfold dispatcherBody. mstep. rewrite Hauth. mstep. reflexivity. }
  eexists. split; [rewrite Hserve|].
  - cbn [rw events]. unfold deferred. rewrite Errors_authorizedContext. reflexivity.
  - destruct Hq as (Hqc & Hqd & Hql).
    rewrite ?dispatches_app, ?lookups_app, ?Hqd, ?Hql, ?app_nil_r, Hdisp, Hlook. split; reflexivity.
Qed.

(** X7. When a repository middleware fails to initialise, after the
    repository was resolved, the request is answered with status 500 and
    the UNKNOWN envelope that carries the error of the middleware (written
    twice), and no handler is dispatched. *)
Theorem repository_middleware_error_blocks_dispatch
        (app : App) (r : Request) (routeName : string) (vars : gmap string string)
        (dispatch : dispatchFunc) (err : string) :
  let r' := withRoute routeName vars r in
  let name := default "" (vars !! "name") in
  router app r = Matched routeName vars ->
  handlers app !! routeName = Some dispatch ->
  routeName <> v2.RouteNameBase ->
  routeName <> v2.RouteNameCatalog ->
  name <> "" ->
  passes app r' name ->
  reference_WithName name = None ->
  Repository_ (registry app) name = None ->
  applyRepoMiddleware repositorymiddleware_Get
    (default [] (configuration.Middleware_ (Config app) !! "repository")) = Some err ->
  let e := errcode.WithDetail errcode.ErrorCodeUnknown (errcode.DetailError err) in
  exists resp evs,
    serve reference_WithName repositorymiddleware_Get app r = Ok (resp, evs)
    /\ lookups evs = [name]
    /\ dispatches evs = []
    /\ StatusCode resp = 500
    /\ RespBody resp = [JSONErrors [e]; JSONErrors [e]].
Proof.
  intros r' name Hrouter Hhandler Hb Hc Hname Hp Href Hrepo Hmw e.
  destruct (authorized_passes app r' (context app r') {| rw := initialWriter app; events := [] |})
    as (evs0 & Hauth & Hcall & Hdisp & Hlook); [exact Hp | left; exact Hname |].
  assert (Hreq : nameRequired r' = true) by (apply nameRequired_withRoute; assumption).
  pose proof (getName_authorizedContext app r' (context app r')) as Hn.
  pose proof (Errors_authorizedContext app r' (context app r')) as He.
  change (getName (context app r')) with name in Hn.
  change (Errors (context app r')) with (@nil errcode.Error) in He.
  set (ctx := authorizedContext app r' (context app r')) in *.
  destruct (serve_after reference_WithName repositorymiddleware_Get app r routeName vars dispatch
              (appendErrors e (setRepository name ctx))
              {| rw := ServeJSON [e] (initialWriter app);
                 events := evs0 ++ [RepositoryCall name;
                                    Logged {| level := Error;
                                              message := "error initializing repository middleware: %v" |}] |}
              Hrouter Hhandler) as (evs & Hserve & Hq).
  { fold r'. unfold dispatcherBody. mstep. rewrite Hauth. mstep. fold ctx.
    rewrite Hreq, Hn, Href. mstep. rewrite Hrepo, Hmw. mstep. cbn [rw events].
    cbn [appendErrors setRepository Errors]. rewrite He, <- app_assoc. reflexivity. }
  do 2 eexists. split; [exact Hserve|]. cbn [rw events].
  destruct Hq as (Hqc & Hqd & Hql).
  rewrite ?dispatches_app, ?lookups_app, ?Hqd, ?Hql, ?app_nil_r, Hdisp, Hlook.
  unfold deferred. cbn [appendErrors setRepository Errors]. rewrite He. repeat split.
Qed.

End DispatchMore.

Lemma nameless_route_records_witness :
  let r := withRoute v2.RouteNameCatalog ∅ (demo.request "GET" "/v2/_catalog" ∅) in
  exists res s',
    run (authorized demo.app r (context demo.app r))
        {| rw := newResponseWriter; events := [] |} = Ok (res, s')
    /\ callouts (events s')
       = [[ {| auth.Resource_ := {| auth.Type_ := "registry"; auth.Name := "catalog" |};
               auth.Action := "*" |} ]].
Proof.
  intros r.
  destruct (nameless_route_records demo.app demo.controller r (context demo.app r)
              {| rw := newResponseWriter; events := [] |} v2.RouteNameCatalog)
    as (res & s' & Hrun & Hcalls).
  - reflexivity.
  - reflexivity.
  - reflexivity.
  - right. reflexivity.
  - exists res, s'. split; [exact Hrun|]. rewrite Hcalls. reflexivity.
Defined.

Lemma passed_request_dispatched_witness :
  exists evs,
    serve sample.WithName (fun _ => None) demo.app
          (demo.request "GET" "/v2/alice/app/tags/list" sample.alice)
    = Ok ({| StatusCode := 200;
             RespHeader := {[ "Docker-Distribution-Api-Version" := ["registry/2.0"];
                              "X-Content-Type-Options" := ["nosniff"] ]};
             RespBody := [Text "ok"] |}, evs)
    /\ callouts evs = [[repositoryAccess "alice/app" "pull"]]
    /\ lookups evs = ["alice/app"]
    /\ dispatches evs = [Some v2.RouteNameTags].
Proof.
  destruct (passed_request_dispatched sample.WithName (fun _ => None) demo.app
              (demo.request "GET" "/v2/alice/app/tags/list" sample.alice)
              v2.RouteNameTags {[ "name" := "alice/app" ]} demo.dispatch)
    as (evs & Hserve & Hcall & Hlook & Hdisp).
  - vm_compute. reflexivity.
  - vm_compute. reflexivity.
  - vm_compute. discriminate.
  - vm_compute. discriminate.
  - vm_compute. discriminate.
  - eexists. vm_compute. reflexivity.
  - reflexivity.
  - reflexivity.
  - reflexivity.
  - exists evs. split; [rewrite Hserve; vm_compute; reflexivity|].
    split; [rewrite Hcall; vm_compute; reflexivity|]. split; assumption.
Defined.

Lemma base_and_catalog_skip_repository_witness :
  exists evs,
    serve sample.WithName (fun _ => None) demo.app
          (demo.request "GET" "/v2/_catalog" sample.alice)
    = Ok ({| StatusCode := 200;
             RespHeader := {[ "Docker-Distribution-Api-Version" := ["registry/2.0"];
                              "X-Content-Type-Options" := ["nosniff"] ]};
             RespBody := [Text "ok"] |}, evs)
    /\ lookups evs = []
    /\ dispatches evs = [Some v2.RouteNameCatalog].
Proof.
  destruct (base_and_catalog_skip_repository sample.WithName (fun _ => None) demo.app
              (demo.request "GET" "/v2/_catalog" sample.alice)
              v2.RouteNameCatalog ∅ demo.dispatch)
    as (_ & evs & Hserve & _ & Hlook & Hdisp).
  - vm_compute. reflexivity.
  - vm_compute. reflexivity.
  - right. reflexivity.
  - eexists. vm_compute. reflexivity.
  - exists evs. split; [rewrite Hserve; vm_compute; reflexivity|]. split; assumption.
Defined.

Lemma invalid_name_not_looked_up_witness :
  exists resp evs,
    serve sample.WithName (fun _ => None) demo.app
          (demo.request "POST" "/v2/bob/app/blobs/uploads/" sample.alice) = Ok (resp, evs)
    /\ lookups evs = [] /\ dispatches evs = []
    /\ StatusCode resp = 500
    /\ RespBody resp = [JSONErrors [errcode.Plain "invalid reference format"];
                        JSONErrors [errcode.Plain "invalid reference format"]].
Proof.
  destruct (invalid_name_not_looked_up sample.WithName (fun _ => None) demo.app
              (demo.request "POST" "/v2/bob/app/blobs/uploads/" sample.alice)
              v2.RouteNameBlobUpload {[ "name" := "bob/app" ]} demo.dispatch
              "invalid reference format")
    as (resp & evs & Hserve & _ & Hlook & Hdisp & Hst & Hbody).
  - vm_compute. reflexivity.
  - vm_compute. reflexivity.
  - vm_compute. discriminate.
  - vm_compute. discriminate.
  - vm_compute. discriminate.
  - eexists. vm_compute. reflexivity.
  - reflexivity.
  - exists resp, evs. auto.
Defined.

Lemma repository_error_blocks_dispatch_witness :
  let app := sample.appWith (demo.config "") None (fun _ => Some ErrRepositoryUnknown)
                            (registered demo.env) in
  exists resp evs,
    serve sample.WithName (fun _ => None) app
          (demo.request "GET" "/v2/alice/app/tags/list" ∅) = Ok (resp, evs)
    /\ lookups evs = ["alice/app"] /\ dispatches evs = []
    /\ StatusCode resp = 404.
Proof.
  intros app.
  destruct (repository_error_blocks_dispatch sample.WithName (fun _ => None) app
              (demo.request "GET" "/v2/alice/app/tags/list" ∅)
              v2.RouteNameTags {[ "name" := "alice/app" ]} demo.dispatch ErrRepositoryUnknown)
    as (resp & evs & Hserve & _ & Hlook & Hdisp & Hunknown & _).
  - vm_compute. reflexivity.
  - vm_compute. reflexivity.
  - vm_compute. discriminate.
  - vm_compute. discriminate.
  - vm_compute. discriminate.
  - exact I.
  - reflexivity.
  - reflexivity.
  - exists resp, evs. destruct (Hunknown eq_refl) as [Hst _]. auto.
Defined.

Lemma empty_verdict_blocks_request_witness :
  let app := sample.appWith (demo.config "") (Some sample.silent) (fun _ => None)
                            (registered demo.env) in
  exists evs,
    serve sample.WithName (fun _ => None) app
          (demo.request "GET" "/v2/alice/app/tags/list" ∅)
    = Ok ({| StatusCode := 200; RespHeader := initialHeader app; RespBody := [] |}, evs)
    /\ callouts evs = [[repositoryAccess "alice/app" "pull"]]
    /\ dispatches evs = [].
Proof.
  intros app.
  destruct (empty_verdict_blocks_request sample.WithName (fun _ => None) app
              (demo.request "GET" "/v2/alice/app/tags/list" ∅)
              v2.RouteNameTags {[ "name" := "alice/app" ]} demo.dispatch sample.silent)
    as (evs & Hserve & Hcall & _ & Hdisp).
  - vm_compute. reflexivity.
  - vm_compute. reflexivity.
  - reflexivity.
  - left. vm_compute. discriminate.
  - reflexivity.
  - exists evs. split; [exact Hserve|]. split; [rewrite Hcall; vm_compute; reflexivity|].
    exact Hdisp.
Defined.

Lemma base_route_answers_empty_json_witness :
  exists evs,
    serve sample.WithName (fun _ => None) demo.app (demo.request "GET" "/v2/" sample.alice)
    = Ok ({| StatusCode := 200;
             RespHeader := {[ "Docker-Distribution-Api-Version" := ["registry/2.0"];
                              "X-Content-Type-Options" := ["nosniff"];
                              "Content-Type" := ["application/json"];
                              "Content-Length" := ["2"] ]};
             RespBody := [Text "{}"] |}, evs)
    /\ lookups evs = []
    /\ dispatches evs = [Some v2.RouteNameBase].
Proof.
  destruct (base_route_answers_empty_json sample.WithName (fun _ => None) demo.env demo.app
              (demo.request "GET" "/v2/" sample.alice) ∅)
    as (evs & Hserve & Hlook & Hdisp).
  - reflexivity.
  - vm_compute. reflexivity.
  - eexists. vm_compute. reflexivity.
  - exists evs. split; [rewrite Hserve; vm_compute; reflexivity|]. split; assumption.
Defined.

Lemma repository_middleware_error_blocks_dispatch_witness :
  let app := sample.appWith sample.withRepositoryMiddleware None (fun _ => None)
                            (registered demo.env) in
  exists resp evs,
    serve sample.WithName (fun _ => Some "unknown middleware") app
          (demo.request "GET" "/v2/alice/app/tags/list" ∅) = Ok (resp, evs)
    /\ lookups evs = ["alice/app"] /\ dispatches evs = []
    /\ StatusCode resp = 500.
Proof.
  intros app.
  destruct (repository_middleware_error_blocks_dispatch sample.WithName
              (fun _ => Some "unknown middleware") app
              (demo.request "GET" "/v2/alice/app/tags/list" ∅)
              v2.RouteNameTags {[ "name" := "alice/app" ]} demo.dispatch "unknown middleware")
    as (resp & evs & Hserve & Hlook & Hdisp & Hst & _).
  - vm_compute. reflexivity.
  - vm_compute. reflexivity.
  - vm_compute. discriminate.
  - vm_compute. discriminate.
  - vm_compute. discriminate.
  - exact I.
  - reflexivity.
  - reflexivity.
  - reflexivity.
  - exists resp, evs. auto.
Defined.

Lemma authorized_never_panics_witness :
  exists res s',
    run (authorized demo.app (demo.request "GET" "/v2/tags/list" ∅)
           (context demo.app (demo.request "GET" "/v2/tags/list" ∅)))
        {| rw := newResponseWriter; events := [] |} = Ok (res, s').
Proof.
  destruct (authorized_never_panics demo.app (demo.request "GET" "/v2/tags/list" ∅)
              (context demo.app (demo.request "GET" "/v2/tags/list" ∅))
              {| rw := newResponseWriter; events := [] |}) as (res & s' & Hrun & _).
  exists res, s'. exact Hrun.
Defined.

Lemma configured_headers_appended_witness :
  http.Header_Values
    (addHeaders [("x-frame-options", ["DENY"]); ("Cache-Control", ["no-store"]);
                 ("X-Frame-Options", ["SAMEORIGIN"])]
                (http.Header_Add ∅ "X-Frame-Options" "ALLOWALL"))
    "X-FRAME-OPTIONS"
  = ["ALLOWALL"; "DENY"; "SAMEORIGIN"].
Proof. rewrite configured_headers_appended. vm_compute. reflexivity. Defined.

Lemma applyRepoMiddleware_first_error_witness :
  let Get := fun mw => if decide (configuration.MwName mw = "audit")
                       then Some "no such middleware" else None in
  let named := fun name => {| configuration.MwName := name; configuration.MwOptions := ∅ |} in
  applyRepoMiddleware Get [named "cloudfront"; named "audit"; named "mirror"]
  = Some "no such middleware".
Proof.
  intros Get named.
  apply (proj2 (applyRepoMiddleware_first_error Get
                  [named "cloudfront"; named "audit"; named "mirror"])).
  exists [named "cloudfront"], (named "audit"), [named "mirror"].
  split; [reflexivity|]. split; [repeat constructor|reflexivity].
Defined.

(** ** Construction, phase by phase *)

Lemma configFrame_refl c : configFrame c c.
Proof. repeat split. Qed.

Lemma configFrame_trans c1 c2 c3 : configFrame c1 c2 -> configFrame c2 c3 -> configFrame c1 c3.
Proof. unfold configFrame. intuition congruence. Qed.

Section ConstructionFacts.

Variable env : Env.

Lemma maintenanceConfig_facts st s :
  wp (maintenanceConfig st)
     (fun pr s' => s' = s /\ pr.1 = purgeSection st
                   /\ (pr.2 = true <-> readOnlyEnabled st)) s.
Proof.
  unfold maintenanceConfig, purgeSection, readOnlyEnabled.
  destruct (st !! "maintenance") as [mc|] eqn:Hmc.
  - repeat wp_step; cbn [fst snd]; (split; [reflexivity|]); (split; [reflexivity|]).
    all: try (split; [discriminate|];
              intros (mc' & m' & [= <-] & Hm & He); congruence).
    all: destruct b.
    all: try (split; [|reflexivity]; intros _; eauto; fail).
    all: try (split; [discriminate|]; intros (mc' & m' & [= <-] & Hm & He); congruence).
  - wp_step. cbn. split; [reflexivity|]. split; [reflexivity|].
    split; [discriminate|]. intros (mc' & m' & E & _). discriminate E.
Qed.

Lemma createDriver_facts st s :
  wp (createDriver env st)
     (fun d s' =>
        let p := default ∅ (Storage_Parameters env st) in
        let empty := configuration.VScalar (configuration.SString "") in
        s' = s
        /\ driverType d = Storage_Type env st
        /\ driverMiddleware d = []
        /\ factory_Create env (Storage_Type env st) (driverParameters d) = None
        /\ (p !! "useragent" = Some empty ->
            driverParameters d
            = <["useragent" := configuration.VScalar (configuration.SString (userAgent env))]> p)
        /\ (p !! "useragent" <> Some empty -> driverParameters d = p)) s.
Proof.
  unfold createDriver. cbv zeta.
  set (p := default ∅ (Storage_Parameters env st)).
  destruct (p !! "useragent") as [[[b|[|a u]|n|]|m]|] eqn:Hua;
    (destruct (factory_Create env _ _) eqn:Hf; [apply wp_panic|]); wp_step;
    cbn [driverType driverParameters driverMiddleware];
    repeat split; auto; try discriminate; try congruence.
Qed.

Lemma applyStorageMiddleware_inl d mws d' :
  applyStorageMiddleware env d mws = inl d' ->
  Forall (fun mw => storagemiddleware_Get env mw = None) mws
  /\ driverType d' = driverType d
  /\ driverParameters d' = driverParameters d
  /\ driverMiddleware d' = driverMiddleware d ++ map configuration.MwName mws.
Proof.
  revert d. induction mws as [|mw rest IH]; intros d; cbn [applyStorageMiddleware map].
  - intros [= <-]. rewrite app_nil_r. auto.
  - destruct (storagemiddleware_Get env mw) eqn:Hg; [discriminate|].
    intros H. apply IH in H as (Hall & Ht & Hp & Hm).
    cbn [driverType driverParameters driverMiddleware] in *.
    rewrite <- app_assoc in Hm. auto.
Qed.

Lemma applyRegistryMiddleware_inl n mws n' :
  applyRegistryMiddleware env n mws = inl n' ->
  Forall (fun mw => registrymiddleware_Get env mw = None) mws
  /\ regOptions n' = regOptions n
  /\ regProxy n' = regProxy n
  /\ Repository_ n' = Repository_ n
  /\ regMiddleware n' = regMiddleware n ++ map configuration.MwName mws.
Proof.
  revert n. induction mws as [|mw rest IH]; intros n; cbn [applyRegistryMiddleware map].
  - intros [= <-]. rewrite app_nil_r. auto.
  - destruct (registrymiddleware_Get env mw) eqn:Hg; [discriminate|].
    intros H. apply IH in H as (Hall & Ho & Hp & Hr & Hm).
    cbn [regOptions regProxy Repository_ regMiddleware] in *.
    rewrite <- app_assoc in Hm. auto.
Qed.

Lemma endpointSinks_facts endpoints s :
  wp (endpointSinks endpoints)
     (fun sinks s' =>
        logsOnly s s'
        /\ sinks = map configuration.EndpointName
                       (List.filter (fun e => negb (configuration.EndpointDisabled e))
                                    endpoints)) s.
Proof.
  revert s. induction endpoints as [|e rest IH]; intros s; cbn [endpointSinks List.filter map].
  - wp_step. auto.
  - destruct (configuration.EndpointDisabled e); cbn [negb];
      wp_step; wp_step; [|wp_step];
      (eapply wp_conseq; [apply IH|]); cbn beta; intros a s' [H ->].
    + split; [|reflexivity]. eapply logsOnly_trans; [|exact H]. auto.
    + wp_step. split; [|reflexivity]. eapply logsOnly_trans; [|exact H]. auto.
Qed.

Lemma configureEvents_facts s :
  wp (configureEvents env)
     (fun a s' =>
        let c := cfg s in
        let addr := configuration.Addr (configuration.HTTP_ c) in
        logsOnly s s'
        /\ a.1 = map configuration.EndpointName
                     (List.filter (fun e => negb (configuration.EndpointDisabled e))
                                  (configuration.NotificationsEndpoints c))
        /\ (forall h e, os_Hostname env = (h, Some e) -> a.2 = addr)
        /\ (forall h, os_Hostname env = (h, None) ->
                      a.2 = match net_SplitHostPort env addr with
                            | Some port => h +:+ ":" +:+ port
                            | None => h
                            end)) s.
Proof.
  unfold configureEvents. wp_step. wp_step. wp_step.
  eapply wp_conseq; [apply endpointSinks_facts|]. cbn beta. intros a s' [H ->]. wp_step.
  cbn [fst snd]. split; [exact H|]. split; [reflexivity|].
  destruct (os_Hostname env) as [h [e|]]; (split; [intros ? ? [=] | intros ? [=]]);
    subst; reflexivity.
Qed.

Lemma loadClientCAs_facts cas s :
  wp (loadClientCAs env cas)
     (fun b s' => logsOnly s s'
                  /\ (b = true <-> Forall (fun ca => loadClientCA env ca = CAAdded) cas)) s.
Proof.
  revert s. induction cas as [|ca rest IH]; intros s; cbn [loadClientCAs].
  - wp_step. split; [auto|]. split; auto.
  - destruct (loadClientCA env ca) eqn:Hca.
    + wp_step. wp_step. wp_step. split; [auto|].
      split; [discriminate|]. intros H. inversion H; congruence.
    + wp_step. wp_step. wp_step. split; [auto|].
      split; [discriminate|]. intros H. inversion H; congruence.
    + eapply wp_conseq; [apply IH|]. cbn beta. intros b s' [H Hb]. split; [exact H|].
      rewrite Hb. split; [intros; constructor; assumption|].
      intros HF. inversion HF; assumption.
Qed.

Lemma configureRedis_facts s :
  wp (configureRedis env)
     (fun b s' => logsOnly s s'
                  /\ (b = true <-> redisConfigured env (configuration.Redis_ (cfg s)))) s.
Proof.
  unfold configureRedis, redisConfigured. wp_step. wp_step. cbv zeta.
  set (rc := configuration.Redis_ (cfg s)).
  destruct (configuration.RedisAddrs rc) as [|a addrs] eqn:Haddrs; cbn [length Nat.eqb].
  - wp_step. wp_step. wp_step. split; [auto|]. split; [discriminate|]. intros [H _]. congruence.
  - apply wp_bind.
    apply (wp_conseq _ (fun tlsOk s' =>
             logsOnly s s'
             /\ (tlsOk = true <->
                 (configuration.RedisTLSCertificate rc = ""
                  /\ configuration.RedisTLSKey rc = "")
                 \/ Forall (fun ca => loadClientCA env ca = CAAdded)
                           (configuration.RedisTLSClientCAs rc)))).
    + destruct (decide (configuration.RedisTLSCertificate rc = "")) as [Ec|Ec];
        destruct (decide (configuration.RedisTLSKey rc = "")) as [Ek|Ek];
        rewrite ?(bool_decide_eq_true_2 _ Ec), ?(bool_decide_eq_false_2 _ Ec),
                ?(bool_decide_eq_true_2 _ Ek), ?(bool_decide_eq_false_2 _ Ek);
        cbn [negb orb].
      1: { wp_step. split; [auto|]. split; auto. }
      all: destruct (tls_LoadX509KeyPair env _ _); [apply wp_panic|].
      all: destruct (configuration.RedisTLSClientCAs rc) as [|ca cas] eqn:Hcas;
        cbn [length Nat.eqb negb].
      all: try (wp_step; split; [auto|]; split; auto; fail).
      all: eapply wp_conseq; [apply loadClientCAs_facts|]; cbn beta; intros b s' [H Hb];
        (split; [exact H|]); rewrite Hb; split; [auto|]; intros [[? ?]|?]; [congruence|auto].
    + intros tlsOk s1 [H Hb]. destruct tlsOk.
      * wp_step. 
        apply (wp_conseq _ (fun _ s' => logsOnly s s')).
        { repeat wp_step; [eapply logsOnly_trans; [exact H|]; auto | exact H]. }
        intros _ s2 H2. wp_step. split; [exact H2|].
        split; [intros _; split; [discriminate|apply Hb; reflexivity]|reflexivity].
      * wp_step. split; [exact H|]. split; [discriminate|].
        intros [_ Hc]. apply Hb in Hc. discriminate Hc.
Qed.

Lemma parseHost_facts host s :
  wp (parseHost env host)
     (fun u s' => s' = s
                  /\ (host = "" -> u = ("", ""))
                  /\ (host <> "" -> url_Parse env host = inl u)) s.
Proof.
  unfold parseHost. destruct (decide (host = "")) as [E|E].
  - rewrite (bool_decide_eq_true_2 _ E). cbn [negb]. wp_step. repeat split; auto. contradiction.
  - rewrite (bool_decide_eq_false_2 _ E). cbn [negb]. destruct (url_Parse env host) eqn:Hu.
    + wp_step. repeat split; auto. contradiction.
    + apply wp_panic.
Qed.

Lemma tagOptions_facts st options s :
  wp (tagOptions env st options)
     (fun options' s' =>
        s' = s /\ exists more, options' = options ++ more /\ tagOption env st more) s.
Proof.
  unfold tagOptions, tagOption.
  destruct (Storage_TagParameters env st) as [p|] eqn:Hp.
  - destruct (p !! "concurrencylimit") as [[[b|x|limit|]|m]|] eqn:Hl; try apply wp_panic.
    + destruct (limit <? 0) eqn:Hneg; [apply wp_panic|]. wp_step.
      split; [reflexivity|]. eexists. split; [reflexivity|]. right.
      exists p, limit. apply Z.ltb_ge in Hneg. auto.
    + wp_step. split; [reflexivity|]. exists []. rewrite app_nil_r. split; [reflexivity|].
      left. split; [reflexivity|]. intros p' [= <-]. exact Hl.
  - wp_step. split; [reflexivity|]. exists []. rewrite app_nil_r. split; [reflexivity|].
    left. split; [reflexivity|]. intros p' E. discriminate E.
Qed.

Lemma redirectOptions_facts st options s :
  wp (redirectOptions st options)
     (fun options' s' =>
        logsOnly s s' /\ exists more, options' = options ++ more /\ redirectOption st more) s.
Proof.
  unfold redirectOptions, redirectOption, redirectDisabled.
  destruct (st !! "redirect") as [rc|] eqn:Hrc.
  - destruct (rc !! "disable") as [[[[]|x|n|]|m]|] eqn:Hd;
      try (apply wp_bind; apply wp_panic).
    + wp_step. wp_step. wp_step. wp_step. wp_step. split; [auto|].
      exists []. rewrite app_nil_r. split; [reflexivity|]. left. eauto.
    + wp_step. wp_step. wp_step. split; [auto|].
      eexists. split; [reflexivity|]. right. eauto.
  - wp_step. wp_step. wp_step. split; [auto|].
    eexists. split; [reflexivity|]. right. auto.
Qed.

End ConstructionFacts.

Section PatternFacts.

Variable env : Env.

Lemma wrapPatterns_facts field patterns s :
  wp (wrapPatterns env field patterns)
     (fun wrapped s' =>
        s' = s /\ wrapped = map wrapPattern patterns
        /\ Forall (fun p => regexp_Compile env p <> None) patterns) s.
Proof.
  revert s. induction patterns as [|p rest IH]; intros s; cbn [wrapPatterns map].
  - wp_step. auto.
  - destruct (regexp_Compile env p) eqn:Hp; [|apply wp_panic].
    wp_step. eapply wp_conseq; [apply IH|]. cbn beta. intros a s' (-> & -> & Hall).
    wp_step. split; [reflexivity|]. split; [reflexivity|].
    constructor; [congruence|exact Hall].
Qed.

(** One list of patterns: validated, wrapped in place, compiled as an
    alternation. *)
Lemma wrapBlock_facts field patterns
      (set : list string -> configuration.Validation -> configuration.Validation)
      (mk : regexp.Regexp -> storage.RegistryOption) options s :
  patterns <> [] ->
  wp (wrapped ← wrapPatterns env field patterns;
      _ ← updateConfig (fun c => configuration.setValidation
             (set wrapped (configuration.Validation_ c)) c);
      re ← MustCompile env (join "|" wrapped);
      mret (options ++ [mk re]))
     (fun options' s' =>
        s' = {| cfg := configuration.setValidation
                         (set (map wrapPattern patterns)
                              (configuration.Validation_ (cfg s))) (cfg s);
                logs := logs s; goroutines := goroutines s |}
        /\ exists opts, options' = options ++ opts /\ urlOption env patterns mk opts) s.
Proof.
  intros Hne. wp_step.
  eapply wp_conseq; [apply wrapPatterns_facts|]. cbn beta. intros a s' (-> & -> & Hall).
  wp_step. wp_step. wp_step. unfold MustCompile.
  destruct (regexp_Compile env (join "|" (map wrapPattern patterns))) as [re|] eqn:Hre;
    [|apply wp_panic].
  wp_step. wp_step. split; [reflexivity|]. eexists. split; [reflexivity|].
  unfold urlOption. destruct patterns; [contradiction|]. eauto.
Qed.

Ltac conj_split :=
  repeat match goal with
         | |- configFrame _ _ => fail 1
         | |- _ /\ _ => split
         end.

Lemma configureValidation_facts options s :
  wp (configureValidation env options)
     (fun options' s' =>
        let v := configuration.Validation_ (cfg s) in
        let v' := configuration.Validation_ (cfg s') in
        goroutines s' = goroutines s
        /\ (exists l, logs s' = logs s ++ l)
        /\ configuration.HTTP_ (cfg s') = configuration.HTTP_ (cfg s)
        /\ configFrame (cfg s) (cfg s')
        /\ configuration.Enabled v' = effective v
        /\ configuration.ManifestsURLsAllow v'
           = (if effective v then map wrapPattern (configuration.ManifestsURLsAllow v)
              else configuration.ManifestsURLsAllow v)
        /\ configuration.ManifestsURLsDeny v'
           = (if effective v then map wrapPattern (configuration.ManifestsURLsDeny v)
              else configuration.ManifestsURLsDeny v)
        /\ exists post, options' = options ++ post /\ validationOptions env v post) s.
Proof.
  unfold configureValidation. destruct s as [c l g]. wp_step. wp_step.
  cbv zeta. cbn [cfg logs goroutines].
  set (v := configuration.Validation_ c).
  (* the flag *)
  apply wp_bind.
  apply (wp_conseq _ (fun _ s1 =>
           goroutines s1 = g /\ logs s1 = l
           /\ configuration.HTTP_ (cfg s1) = configuration.HTTP_ c
           /\ configFrame c (cfg s1)
           /\ configuration.Enabled (configuration.Validation_ (cfg s1)) = effective v
           /\ configuration.ManifestsURLsAllow (configuration.Validation_ (cfg s1))
              = configuration.ManifestsURLsAllow v
           /\ configuration.ManifestsURLsDeny (configuration.Validation_ (cfg s1))
              = configuration.ManifestsURLsDeny v)).
  { unfold effective. destruct (configuration.Enabled v) eqn:Hen; cbn [negb orb]; wp_step;
      cbn [cfg logs goroutines]; repeat split; auto. }
  intros _ [c1 l1 g1]. cbn [cfg logs goroutines].
  intros (-> & -> & Hhttp & Hframe & Hen & Ha & Hd).
  wp_step. wp_step. cbv zeta. cbn [cfg]. rewrite Hen.
  unfold validationOptions.
  destruct (effective v) eqn:He.
  2: { wp_step. cbn [cfg logs goroutines]. conj_split; auto.
       - exists []. symmetry. apply app_nil_r.
       - exists []. rewrite app_nil_r. auto. }
  (* the URL policy *)
  apply wp_bind.
  apply (wp_conseq _ (fun opts s2 =>
           goroutines s2 = g /\ logs s2 = l
           /\ configuration.HTTP_ (cfg s2) = configuration.HTTP_ c
           /\ configFrame c (cfg s2)
           /\ configuration.Enabled (configuration.Validation_ (cfg s2)) = true
           /\ configuration.ManifestsURLsAllow (configuration.Validation_ (cfg s2))
              = map wrapPattern (configuration.ManifestsURLsAllow v)
           /\ configuration.ManifestsURLsDeny (configuration.Validation_ (cfg s2))
              = map wrapPattern (configuration.ManifestsURLsDeny v)
           /\ exists urls, opts = options ++ urls /\ urlOptions env v urls)).
  { unfold urlOptions. rewrite Ha, Hd.
    destruct (configuration.ManifestsURLsAllow v) as [|a al] eqn:HA;
      destruct (configuration.ManifestsURLsDeny v) as [|d dl] eqn:HD;
      cbn [length Nat.eqb Nat.ltb Nat.leb andb].
    - wp_step. cbn [cfg logs goroutines map]. rewrite Ha, Hd. conj_split; auto. eauto.
    - wp_step. wp_step.
      eapply wp_conseq;
        [apply (wrapBlock_facts _ _ configuration.setDeny storage.ManifestURLsDenyRegexp);
         discriminate|].
      cbn beta. intros opts s2 [-> (d' & -> & Hd')]. cbn [cfg logs goroutines].
      cbn [configuration.Validation_ configuration.setValidation configuration.setDeny
           configuration.HTTP_ configuration.Enabled configuration.ManifestsURLsAllow
           configuration.ManifestsURLsDeny map].
      rewrite Ha. conj_split; auto.
      exists d'. split; [reflexivity|]. exists [], d'.
      split; [reflexivity|]. split; [reflexivity|exact Hd'].
    - wp_step.
      eapply wp_conseq;
        [apply (wrapBlock_facts _ _ configuration.setAllow storage.ManifestURLsAllowRegexp);
         discriminate|].
      cbn beta. intros opts s2 [-> (a' & -> & Ha')]. wp_step. cbn [cfg logs goroutines].
      cbn [configuration.Validation_ configuration.setValidation configuration.setAllow
           configuration.HTTP_ configuration.Enabled configuration.ManifestsURLsAllow
           configuration.ManifestsURLsDeny map].
      rewrite Hd. conj_split; auto.
      exists a'. split; [reflexivity|]. exists a', [].
      rewrite app_nil_r. split; [reflexivity|]. split; [exact Ha'|reflexivity].
    - wp_step.
      eapply wp_conseq;
        [apply (wrapBlock_facts _ _ configuration.setAllow storage.ManifestURLsAllowRegexp);
         discriminate|].
      cbn beta. intros opts s2 [-> (a' & -> & Ha')].
      eapply wp_conseq;
        [apply (wrapBlock_facts _ _ configuration.setDeny storage.ManifestURLsDenyRegexp);
         discriminate|].
      cbn beta. intros opts s3 [-> (d' & -> & Hd')]. cbn [cfg logs goroutines].
      cbn [configuration.Validation_ configuration.setValidation configuration.setAllow
           configuration.setDeny
           configuration.HTTP_ configuration.Enabled configuration.ManifestsURLsAllow
           configuration.ManifestsURLsDeny map].
      conj_split; auto.
      exists (a' ++ d'). rewrite app_assoc. split; [reflexivity|]. exists a', d'. auto. }
  intros opts [c2 l2 g2]. cbn [cfg logs goroutines].
  intros (-> & -> & Hhttp2 & Hframe2 & Hen2 & Ha2 & Hd2 & urls & -> & Hurls).
  (* the image indexes *)
  assert (Hp : configuration.ManifestsIndexesPlatforms (configuration.Validation_ c1)
               = configuration.ManifestsIndexesPlatforms v) by apply Hframe.
  assert (Hpl : configuration.ManifestsIndexesPlatformList (configuration.Validation_ c1)
                = configuration.ManifestsIndexesPlatformList v) by apply Hframe.
  rewrite Hp, Hpl. unfold indexOptions.
  destruct (decide (configuration.ManifestsIndexesPlatforms v = "list")) as [El|El];
    [|destruct (decide (configuration.ManifestsIndexesPlatforms v = "none")) as [En|En]];
    repeat wp_step; cbn [cfg logs goroutines]; conj_split; auto;
    try (eexists; reflexivity); try (exists []; symmetry; apply app_nil_r).
  all: eexists; split; [|exists urls; split; [reflexivity|exact Hurls]];
    rewrite <- ?app_assoc, ?app_nil_r; reflexivity.
Qed.

End PatternFacts.

Section RegistryFacts.

Variable env : Env.

Lemma NewRegistry_facts options s :
  wp (NewRegistry env options)
     (fun n s' => s' = s /\ regOptions n = options /\ regMiddleware n = []
                  /\ regProxy n = None /\ Repository_ n = namespace_Repository env
                  /\ storage_NewRegistry env options = None) s.
Proof. unfold NewRegistry. repeat wp_step. auto 10. Qed.

Ltac wp_registry :=
  lazymatch goal with
  | |- wp (NewRegistry _ _) _ _ =>
      eapply wp_conseq; [apply NewRegistry_facts | cbn beta; intros ? ? (-> & ? & ? & ? & ? & ?)]
  | _ => wp_step
  end.

Lemma configureCache_facts st hasRedis options s :
  wp (configureCache env st hasRedis options)
     (fun cached s' =>
        logsOnly s s'
        /\ exists opts,
            cacheOption env st hasRedis opts
            /\ match cached with
               | Some n =>
                   opts <> [] /\ regOptions n = options ++ opts /\ regMiddleware n = []
                   /\ regProxy n = None /\ Repository_ n = namespace_Repository env
               | None => opts = []
               end) s.
Proof.
  unfold configureCache, cacheOption, cacheKind.
  destruct (st !! "cache") as [cc|] eqn:Hcc.
  2: { wp_step. split; [auto|]. exists []. repeat split; try discriminate. }
  cbv zeta.
  set (kind := match cc !! "blobdescriptor" with
               | Some v => Some v
               | None => cc !! "layerinfo"
               end).
  destruct kind as [[[b|k|n|]|m]|] eqn:Hk.
  2: { destruct (decide (k = "redis")) as [->|Hr];
         [|destruct (decide (k = "inmemory")) as [->|Hi]].
       - destruct hasRedis; cbn [negb]; [|apply wp_panic].
         wp_step.
         apply (wp_conseq _ (fun _ s1 => logsOnly s s1));
           [destruct (cc !! "blobdescriptorsize"); wp_step; auto|].
         intros _ s1 H1. repeat wp_registry.
         split; [eapply logsOnly_trans; [exact H1|]; auto|].
         eexists. split; [|split; [|split; [eassumption|auto]]]; [|discriminate].
         repeat split; try discriminate; try congruence.
       - wp_step.
         apply (wp_conseq _ (fun size s1 =>
                  s1 = s
                  /\ match cc !! "blobdescriptorsize" with
                     | Some configuredSize => parseSize env configuredSize = Some size
                     | None => size = memorycache_DefaultSize env
                     end)).
         { destruct (cc !! "blobdescriptorsize") as [sz|];
             [destruct (parseSize env sz) eqn:Hsz; [|apply wp_panic]|]; wp_step; auto. }
         intros size ? [-> Hsize]. repeat wp_registry.
         split; [auto|].
         eexists. split; [|split; [|split; [eassumption|auto]]]; [|discriminate].
         split; [discriminate|]. split; [|congruence].
         intros _. exists size. split; [reflexivity|]. intros cc' [= <-]. exact Hsize.
       - destruct (decide (k = "")); repeat wp_step; (split; [auto|]); exists [];
           (split; [|reflexivity]); repeat split; congruence. }
  all: repeat wp_step; (split; [auto|]); exists []; (split; [|reflexivity]);
    repeat split; try discriminate; congruence.
Qed.

Lemma createRegistry_facts config hasRedis options s :
  wp (createRegistry env config hasRedis options)
     (fun n s' =>
        let middlewares := default [] (configuration.Middleware_ config !! "registry") in
        logsOnly s s'
        /\ regProxy n = None
        /\ Repository_ n = namespace_Repository env
        /\ regMiddleware n = map configuration.MwName middlewares
        /\ Forall (fun mw => registrymiddleware_Get env mw = None) middlewares
        /\ exists opts,
            regOptions n = options ++ opts
            /\ cacheOption env (configuration.Storage_ config) hasRedis opts) s.
Proof.
  unfold createRegistry. apply wp_bind. eapply wp_conseq; [apply configureCache_facts|].
  cbn beta. intros cached s1 (Hl & opts & Hopts & Hc). apply wp_bind.
  apply (wp_conseq _ (fun n s' =>
           s' = s1 /\ regOptions n = options ++ opts /\ regMiddleware n = []
           /\ regProxy n = None /\ Repository_ n = namespace_Repository env)).
  - destruct cached as [n|].
    + wp_step. destruct Hc as (_ & ? & ? & ? & ?). auto.
    + subst opts. rewrite app_nil_r. wp_registry. auto.
  - intros n ? (-> & Ho & Hm & Hp & Hr).
    destruct (applyRegistryMiddleware env n _) as [n'|err] eqn:Hmw; [|apply wp_panic].
    apply applyRegistryMiddleware_inl in Hmw as (Hall & Ho' & Hp' & Hr' & Hm').
    wp_step. cbv zeta. rewrite Hm in Hm'. cbn [app] in Hm'.
    split; [exact Hl|]. split; [congruence|]. split; [congruence|].
    split; [exact Hm'|]. split; [exact Hall|]. exists opts. split; [congruence|exact Hopts].
Qed.

Lemma configureAuth_facts config s :
  wp (configureAuth env config)
     (fun controller s' =>
        let authType := configuration.AuthType (configuration.Auth_ config) in
        logsOnly s s'
        /\ (controller = None <-> authType = "" \/ EqualFold authType "none" = true)
        /\ (forall c, controller = Some c ->
                      auth_GetAccessController env authType
                        (configuration.AuthParameters (configuration.Auth_ config)) = inl c)) s.
Proof.
  unfold configureAuth. cbv zeta.
  set (authType := configuration.AuthType (configuration.Auth_ config)).
  destruct (decide (authType = "")) as [E|E].
  - rewrite (bool_decide_eq_true_2 _ E). cbn [negb andb]. wp_step.
    split; [auto|]. split; [tauto|discriminate].
  - rewrite (bool_decide_eq_false_2 _ E). cbn [negb andb].
    destruct (EqualFold authType "none") eqn:Hf; cbn [negb].
    + wp_step. split; [auto|]. split; [tauto|discriminate].
    + destruct (auth_GetAccessController env authType _) as [c|err] eqn:Hg; [|apply wp_panic].
      wp_step. wp_step. wp_step. split; [auto|]. split.
      * split; [discriminate|]. intros [?|?]; [contradiction|discriminate].
      * intros c' [= <-]. reflexivity.
Qed.

Lemma configureProxy_facts config n s :
  wp (configureProxy env config n)
     (fun n' s' =>
        let url := configuration.RemoteURL (configuration.Proxy_ config) in
        logsOnly s s'
        /\ regOptions n' = regOptions n
        /\ regMiddleware n' = regMiddleware n
        /\ Repository_ n' = Repository_ n
        /\ regProxy n' = (if decide (url = "") then regProxy n else Some url)) s.
Proof.
  unfold configureProxy. cbv zeta.
  destruct (decide (configuration.RemoteURL (configuration.Proxy_ config) = "")) as [E|E].
  - rewrite (bool_decide_eq_true_2 _ E). cbn [negb]. wp_step. auto 10.
  - rewrite (bool_decide_eq_false_2 _ E). cbn [negb].
    destruct (proxy_NewRegistryPullThroughCache env); [apply wp_panic|].
    wp_step. wp_step. wp_step. cbn [regOptions regMiddleware Repository_ regProxy]. auto 10.
Qed.

End RegistryFacts.

Section NewAppFacts.

Variable env : Env.

Lemma configFrame_setSecret secret c : configFrame c (configuration.setSecret secret c).
Proof. repeat split. Qed.

Ltac logs_only s H :=
  let Hc := fresh "Hc" in let Hg := fresh "Hg" in let Hl := fresh "Hl" in
  let lx := fresh "lx" in
  destruct s as [? ? ?]; destruct H as (Hc & Hg & lx & Hl);
  cbn [cfg logs goroutines] in Hc, Hg, Hl; subst.

Lemma NewApp_facts_spec s : wp (NewApp env) (NewApp_facts env s) s.
Proof.
  unfold NewApp. destruct s as [c l g].
  wp_step. wp_step. cbv beta zeta.
  change (cfg {| cfg := c; logs := l; goroutines := g |}) with c.
  set (st := configuration.Storage_ c).
  remember (negb (bool_decide (configuration.RemoteURL (configuration.Proxy_ c) = "")))
    as proxy eqn:Hproxy.
  (* the storage driver *)
  apply wp_bind. eapply wp_conseq; [apply createDriver_facts|].
  cbn beta zeta. intros d0 ? (-> & Hdt & Hdm & Hdf & Hua1 & Hua2).
  (* maintenance and the purger *)
  apply wp_bind. eapply wp_conseq; [apply maintenanceConfig_facts|].
  cbn beta. intros [purgeConfig appReadOnly] ? (-> & Hpurge & Hro). cbn [fst snd] in Hpurge, Hro.
  subst purgeConfig.
  apply wp_bind. eapply wp_conseq; [apply startUploadPurger_spec|].
  cbn beta. intros _ [c1 l1 g1]. cbn [cfg logs goroutines]. intros (-> & -> & Hpurger).
  apply wp_bind.
  destruct (applyStorageMiddleware env d0 _) as [d1|err] eqn:Hsm; [|apply wp_panic].
  apply applyStorageMiddleware_inl in Hsm as (Hsall & Hst & Hsp & Hsmw).
  wp_step.
  (* the secret *)
  apply wp_bind.
  apply (wp_conseq _ (fun _ s' =>
           goroutines s' = g1
           /\ (exists lx, logs s' = l ++ lx)
           /\ configFrame c (cfg s')
           /\ configuration.Validation_ (cfg s') = configuration.Validation_ c)).
  { destruct proxy; cbn [negb].
    - wp_step. cbn [cfg logs goroutines]. split; [reflexivity|].
      split; [exists []; symmetry; apply app_nil_r|]. split; [apply configFrame_refl|reflexivity].
    - eapply wp_conseq; [apply configureSecret_spec|]. cbn beta. cbn [cfg logs goroutines].
      intros _ s' [Hg Hs]. split; [exact Hg|].
      destruct (decide (configuration.Secret (configuration.HTTP_ c) = "")).
      + destruct Hs as (read & Hr & -> & ->). split; [eauto|].
        split; [apply configFrame_setSecret|reflexivity].
      + subst s'. cbn [cfg logs]. split; [exists []; symmetry; apply app_nil_r|].
        split; [apply configFrame_refl|reflexivity]. }
  intros _ [c2 l2 g2]. cbn [cfg logs goroutines]. intros (-> & [lx ->] & Hframe2 & Hval2).
  (* events, redis, host *)
  apply wp_bind. eapply wp_conseq; [apply configureEvents_facts|]. cbn beta zeta.
  intros [sinks source] s3 (Hl3 & Hsinks & Hsrc1 & Hsrc2). logs_only s3 Hl3.
  cbn [fst snd cfg] in Hsinks, Hsrc1, Hsrc2.
  apply wp_bind. eapply wp_conseq; [apply configureRedis_facts|]. cbn beta.
  intros hasRedis s3 (Hl3 & Hredis). logs_only s3 Hl3. cbn [cfg] in Hredis.
  apply wp_bind. eapply wp_conseq; [apply parseHost_facts|]. cbn beta.
  intros host ? (-> & Hhost1 & Hhost2).
  (* the options *)
  apply wp_bind. eapply wp_conseq; [apply tagOptions_facts|]. cbn beta.
  intros options1 ? [-> (tag & -> & Htag)].
  apply wp_bind. eapply wp_conseq; [apply redirectOptions_facts|]. cbn beta.
  intros options2 s3 [Hl3 (redirect & -> & Hredirect)]. logs_only s3 Hl3.
  apply wp_bind. eapply wp_conseq; [apply configureValidation_facts|]. cbn beta zeta.
  intros options3 [c3 l3 g3]. cbn [cfg logs goroutines].
  intros (-> & [lz ->] & Hhttp & Hframe3 & Hen & Hallow & Hdeny & vopts & -> & Hvopts).
  rewrite Hval2 in Hen, Hallow, Hdeny, Hvopts.
  (* the registry *)
  apply wp_bind. eapply wp_conseq; [apply createRegistry_facts|]. cbn beta zeta.
  intros n s4 (Hl4 & Hnp & Hnr & Hnm & Hnall & cache & Hno & Hcache). logs_only s4 Hl4.
  apply wp_bind. eapply wp_conseq; [apply configureAuth_facts|]. cbn beta zeta.
  intros controller s4 (Hl4 & Hctl1 & Hctl2). logs_only s4 Hl4.
  apply wp_bind. eapply wp_conseq; [apply configureProxy_facts|]. cbn beta zeta.
  intros n' s4 (Hl4 & Hno' & Hnm' & Hnr' & Hnp'). logs_only s4 Hl4.
  apply wp_bind.
  apply (wp_conseq _ (fun _ s' =>
           cfg s' = c3 /\ goroutines s' = g1 /\ exists l', logs s' = l ++ l')).
  { destruct (implementsRepositoryRemover env); wp_step; cbn [cfg logs goroutines];
      (split; [reflexivity|]); (split; [reflexivity|]); rewrite <- ?app_assoc;
      eexists; reflexivity. }
  intros _ [c4 l4 g4]. cbn [cfg logs goroutines]. intros (-> & -> & l' & ->).
  wp_step. wp_step. wp_step.
  assert (Hf : configFrame c c3) by (eapply configFrame_trans; eassumption).
  pose proof Hframe2 as (_ & _ & _ & Hne & Hre & _ & Haddr & _).
  constructor; cbn [Config router handlers driver registry repoRemover accessController
                    httpHost eventsSink eventsSource redis isCache readOnly
                    cfg logs goroutines].
  - reflexivity.
  - reflexivity.
  - reflexivity.
  - exact Hf.
  - eexists. reflexivity.
  - unfold builtDriver. cbv zeta. fold st. rewrite Hst, Hsp, Hsmw, Hdm. auto 10.
  - exact Hro.
  - exact Hpurger.
  - rewrite Hne. reflexivity.
  - cbv zeta. rewrite <- Haddr. split; assumption.
  - rewrite <- Hre. exact Hredis.
  - split; assumption.
  - cbv zeta. auto.
  - cbv zeta. fold st. exists tag, redirect, vopts, cache.
    split; [rewrite Hno', Hno, <- !app_assoc; reflexivity|]. auto.
  - cbv zeta. rewrite Hnm', Hnr', Hnp', Hnm, Hnr, Hnp. repeat split; auto.
    destruct (decide _) as [E|E];
      [rewrite (bool_decide_eq_true_2 _ E) | rewrite (bool_decide_eq_false_2 _ E)]; reflexivity.
  - split; assumption.
Qed.

Lemma NewApp_facts_run s app s' :
  run (NewApp env) s = Ok (app, s') -> NewApp_facts env s app s'.
Proof. intros H. exact (wp_run _ _ _ _ _ (NewApp_facts_spec s) H). Qed.

End NewAppFacts.

(** ** Construction: what the application is made of *)

Lemma baseOptions_In env proxy st o :
  In o (baseOptions env proxy st)
  <-> In o (GetRegistryOptions env)
      \/ (o = storage.DisableDigestResumption /\ proxy = true)
      \/ (o = storage.EnableDelete /\ deleteEnabled st).
Proof.
  unfold baseOptions, deleteEnabled. cbv zeta.
  assert (K : In o (if proxy then GetRegistryOptions env ++ [storage.DisableDigestResumption]
                    else GetRegistryOptions env)
              <-> In o (GetRegistryOptions env)
                  \/ (o = storage.DisableDigestResumption /\ proxy = true)).
  { destruct proxy; rewrite ?in_app_iff; cbn [In]; intuition congruence. }
  destruct (st !! "delete") as [d|] eqn:Hd.
  - destruct (d !! "enabled") as [[[[]|x|n|]|m]|] eqn:He; rewrite ?in_app_iff, K; cbn [In].
    1: { split; [intros [H|[H|[]]]; [tauto|]; right; right; eauto|].
         intros [H|[H|[H _]]]; auto. }
    all: split; [tauto|]; intros [H|[H|[_ (d' & [= <-] & H)]]]; auto; congruence.
  - rewrite K. split; [tauto|]. intros [H|[H|[_ (d' & E & _)]]]; auto. discriminate E.
Qed.

Lemma tagOption_In env st opts o :
  tagOption env st opts -> In o opts ->
  exists p limit,
    Storage_TagParameters env st = Some p
    /\ p !! "concurrencylimit" = Some (configuration.VScalar (configuration.SInt limit))
    /\ 0 <= limit /\ o = storage.TagLookupConcurrencyLimit limit.
Proof.
  intros [[-> _]|(p & limit & Hp & Hl & Hpos & ->)] Hin; [destruct Hin|].
  destruct Hin as [<-|[]]. eauto 10.
Qed.

Lemma redirectOption_In st opts o :
  redirectOption st opts -> (In o opts <-> o = storage.EnableRedirect /\ ~ redirectDisabled st).
Proof.
  unfold redirectDisabled.
  intros [[-> Hdis]|[-> Hen]]; cbn [In].
  - split; [tauto|]. intros [_ H]. contradiction.
  - split.
    + intros [<-|[]]. split; [reflexivity|]. intros (rc & Hrc & Hd).
      destruct Hen as [E|(rc' & E & Hd')]; congruence.
    + intros [-> _]. auto.
Qed.

Lemma indexOptions_In v o :
  In o (indexOptions v) ->
  isValidationOption o = true /\ isURLOption o = false.
Proof.
  unfold indexOptions. repeat destruct (decide _); cbn [In].
  - intros [<-|H]; [auto|]. apply in_map_iff in H as (p & <- & _). auto.
  - intros [].
  - intros [<-|[]]. auto.
Qed.

Lemma urlOption_In env patterns mk opts o :
  urlOption env patterns mk opts -> In o opts ->
  patterns <> []
  /\ Forall (fun p => regexp_Compile env p <> None) patterns
  /\ exists re, regexp_Compile env (join "|" (map wrapPattern patterns)) = Some re
                /\ o = mk re.
Proof.
  unfold urlOption. destruct patterns as [|p ps].
  - intros -> [].
  - intros (Hall & re & Hre & ->) [<-|[]]. split; [discriminate|]. eauto.
Qed.

Lemma urlOptions_In env v opts o :
  urlOptions env v opts -> In o opts -> isURLOption o = true.
Proof.
  unfold urlOptions.
  assert (K : (exists a d, opts = a ++ d
                 /\ urlOption env (configuration.ManifestsURLsAllow v)
                              storage.ManifestURLsAllowRegexp a
                 /\ urlOption env (configuration.ManifestsURLsDeny v)
                              storage.ManifestURLsDenyRegexp d) ->
              In o opts -> isURLOption o = true).
  { intros (a & d & -> & Ha & Hd) Hin. apply in_app_iff in Hin as [Hin|Hin].
    - apply (urlOption_In _ _ _ _ _ Ha) in Hin as (_ & _ & re & _ & ->). reflexivity.
    - apply (urlOption_In _ _ _ _ _ Hd) in Hin as (_ & _ & re & _ & ->). reflexivity. }
  destruct (configuration.ManifestsURLsAllow v) as [|a al];
    [destruct (configuration.ManifestsURLsDeny v) as [|d dl]|]; try exact K.
  intros -> [<-|[]]. reflexivity.
Qed.

Lemma validationOptions_In env v opts o :
  validationOptions env v opts -> In o opts ->
  effective v = true /\ isValidationOption o = true.
Proof.
  unfold validationOptions. destruct (effective v); [|intros -> []].
  intros (urls & -> & Hurls) Hin. split; [reflexivity|].
  apply in_app_iff in Hin as [Hin|Hin].
  - apply (urlOptions_In _ _ _ _ Hurls) in Hin. destruct o; try discriminate Hin; reflexivity.
  - apply indexOptions_In in Hin. tauto.
Qed.

Lemma cacheOption_In env st hasRedis opts o :
  cacheOption env st hasRedis opts -> In o opts ->
  exists provider, o = storage.BlobDescriptorCacheProvider provider.
Proof.
  unfold cacheOption. cbv zeta. intros (Hr & Hi & Hn) Hin.
  destruct (cacheKind st) as [[[b|k|n|]|m]|].
  2: { destruct (decide (k = "redis")) as [->|Er].
       - destruct (Hr eq_refl) as [_ ->]. destruct Hin as [<-|[]]. eauto.
       - destruct (decide (k = "inmemory")) as [->|Ei].
         + destruct (Hi eq_refl) as (size & -> & _). destruct Hin as [<-|[]]. eauto.
         + rewrite Hn in Hin by congruence. destruct Hin. }
  all: rewrite Hn in Hin by discriminate; destruct Hin.
Qed.

(** X12. The application is read-only exactly when
    storage.maintenance.readonly is a section whose enabled key is the
    boolean true; without the maintenance section, the readonly section or
    the enabled key it is not. *)
Theorem readonly_mode_by_section (env : Env) (s : Boot) (app : App) (s' : Boot) :
  run (NewApp env) s = Ok (app, s') ->
  (readOnly app = true
   <-> exists mc m,
         configuration.Storage_ (cfg s) !! "maintenance" = Some mc
         /\ mc !! "readonly" = Some (configuration.VMap m)
         /\ m !! "enabled" = Some (configuration.SBool true)).
Proof. intros Hrun. exact (facts_readOnly _ _ _ _ (NewApp_facts_run env s app s' Hrun)). Qed.

Lemma readonly_mode_by_section_witness :
  match run (NewApp demo.env) (sample.bootOf (sample.withStorage sample.maintenance)) with
  | Ok (app, _) => readOnly app = true
  | Panic _ => False
  end.
Proof.
  destruct (run (NewApp demo.env) (sample.bootOf (sample.withStorage sample.maintenance)))
    as [[app s']|msg] eqn:E.
  - apply (readonly_mode_by_section demo.env _ app s' E).
    eexists _, _. split; [reflexivity|]. split; reflexivity.
  - no_panic E.
Defined.

(** X13. An uploadpurging section replaces the default purge configuration
    as a whole: with enabled false in it NewApp starts no goroutine, and
    with any other enabled value (or none) a section that lacks age,
    interval or dryrun makes NewApp panic; the defaults are not consulted
    for the missing keys. *)
Theorem uploadpurging_section_replaces_defaults
        (env : Env) (s : Boot)
        (mc : gmap string configuration.Value) (m : gmap string configuration.Scalar) :
  configuration.Storage_ (cfg s) !! "maintenance" = Some mc ->
  mc !! "uploadpurging" = Some (configuration.VMap m) ->
  (m !! "enabled" = Some (configuration.SBool false) ->
   forall app s', run (NewApp env) s = Ok (app, s') -> goroutines s' = goroutines s)
  /\ (m !! "enabled" <> Some (configuration.SBool false) ->
      m !! "age" = None \/ m !! "interval" = None \/ m !! "dryrun" = None ->
      exists msg, run (NewApp env) s = Panic msg).
Proof.
  intros Hmc Hup.
  assert (Hsec : purgeSection (configuration.Storage_ (cfg s)) = m).
  { unfold purgeSection. rewrite Hmc, Hup. reflexivity. }
  split.
  - intros Hoff app s' Hrun.
    pose proof (facts_purger _ _ _ _ (NewApp_facts_run env s app s' Hrun)) as [H _].
    rewrite Hsec in H. auto.
  - intros Hon Hmiss. destruct (run (NewApp env) s) as [[app s']|msg] eqn:Hrun; [|eauto].
    pose proof (facts_purger _ _ _ _ (NewApp_facts_run env s app s' Hrun)) as [_ H].
    rewrite Hsec in H.
    destruct (H Hon) as (a & i & age & interval & dry & Ha & _ & Hi & _ & Hd & _).
    destruct Hmiss as [E|[E|E]]; congruence.
Qed.

Lemma uploadpurging_section_replaces_defaults_witness :
  (match run (NewApp demo.env) (sample.bootOf (sample.withStorage sample.maintenance)) with
   | Ok (_, s') => goroutines s' = []
   | Panic _ => False
   end)
  /\ exists msg,
      run (NewApp demo.env) (sample.bootOf (sample.withStorage sample.onlyAge)) = Panic msg.
Proof.
  split.
  - destruct (run (NewApp demo.env) (sample.bootOf (sample.withStorage sample.maintenance)))
      as [[app s']|msg] eqn:E; [|no_panic E].
    destruct (uploadpurging_section_replaces_defaults demo.env
                (sample.bootOf (sample.withStorage sample.maintenance))
                {[ "readonly" := configuration.VMap {[ "enabled" := configuration.SBool true ]};
                   "uploadpurging" := configuration.VMap {[ "enabled" := configuration.SBool false ]} ]}
                {[ "enabled" := configuration.SBool false ]}) as [Hoff _].
    + reflexivity.
    + reflexivity.
    + apply (Hoff eq_refl app s' E).
  - destruct (uploadpurging_section_replaces_defaults demo.env
                (sample.bootOf (sample.withStorage sample.onlyAge))
                {[ "uploadpurging" := configuration.VMap {[ "age" := configuration.SString "72h" ]} ]}
                {[ "age" := configuration.SString "72h" ]}) as [_ Hon].
    + reflexivity.
    + reflexivity.
    + apply Hon; [vm_compute; discriminate|]. right. left. reflexivity.
Defined.

(** Where an option of the registry comes from. *)
Lemma regOptions_In env s app s' o :
  NewApp_facts env s app s' ->
  In o (regOptions (registry app)) ->
  let st := configuration.Storage_ (cfg s) in
  In o (baseOptions env (isCache app) st)
  \/ (exists p limit,
         Storage_TagParameters env st = Some p
         /\ p !! "concurrencylimit" = Some (configuration.VScalar (configuration.SInt limit))
         /\ 0 <= limit /\ o = storage.TagLookupConcurrencyLimit limit)
  \/ (o = storage.EnableRedirect /\ ~ redirectDisabled st)
  \/ (effective (configuration.Validation_ (cfg s)) = true /\ isValidationOption o = true)
  \/ (exists provider, o = storage.BlobDescriptorCacheProvider provider).
Proof.
  intros F Hin st.
  destruct (facts_options _ _ _ _ F) as (tag & redirect & vopts & cache & Hreg & Ht & Hr & Hv & Hc).
  fold st in Hreg, Ht, Hr, Hc. rewrite Hreg, !in_app_iff in Hin.
  destruct Hin as [H|[H|[H|[H|H]]]].
  - auto.
  - right. left. exact (tagOption_In _ _ _ _ Ht H).
  - right. right. left. apply (redirectOption_In _ _ _ Hr). exact H.
  - right. right. right. left. exact (validationOptions_In _ _ _ _ Hv H).
  - right. right. right. right. exact (cacheOption_In _ _ _ _ _ Hc H).
Qed.

(** X14. The registry is created with EnableRedirect unless
    storage.redirect.disable is the boolean true (the registry middleware
    contributing no such option); and a redirect section in a
    configuration NewApp accepts always holds a boolean disable: a section
    without the key, or with a value of another type, panics. *)
Theorem redirect_enabled_unless_disabled (env : Env) (s : Boot) (app : App) (s' : Boot) :
  run (NewApp env) s = Ok (app, s') ->
  ~ In storage.EnableRedirect (GetRegistryOptions env) ->
  let st := configuration.Storage_ (cfg s) in
  (In storage.EnableRedirect (regOptions (registry app))
   <-> ~ exists rc, st !! "redirect" = Some rc
                    /\ rc !! "disable" = Some (configuration.VScalar (configuration.SBool true)))
  /\ (forall rc, st !! "redirect" = Some rc ->
                 exists b, rc !! "disable" = Some (configuration.VScalar (configuration.SBool b))).
Proof.
  intros Hrun Hmw st. pose proof (NewApp_facts_run env s app s' Hrun) as F.
  destruct (facts_options _ _ _ _ F) as (tag & redirect & vopts & cache & Hreg & Ht & Hr & Hv & Hc).
  fold st in Hreg, Ht, Hr, Hc. split; [split|].
  - intros Hin. destruct (regOptions_In _ _ _ _ _ F Hin) as [H|[H|[H|[H|H]]]].
    + apply baseOptions_In in H as [H|[[H _]|[H _]]]; [contradiction|discriminate H..].
    + destruct H as (p & limit & _ & _ & _ & H). discriminate H.
    + exact (proj2 H).
    + destruct H as [_ H]. discriminate H.
    + destruct H as [p H]. discriminate H.
  - intros Hen. rewrite Hreg, !in_app_iff. right. right. left.
    apply (redirectOption_In _ _ _ Hr). auto.
  - intros rc Hrc. destruct Hr as [[_ (rc' & E & Hd)]|[_ [E|(rc' & E & Hd)]]].
    + exists true. congruence.
    + congruence.
    + exists false. congruence.
Qed.

Lemma redirect_enabled_unless_disabled_witness :
  (match run (NewApp demo.env) (sample.bootOf (sample.withStorage sample.redirectOff)) with
   | Ok (app, _) => ~ In storage.EnableRedirect (regOptions (registry app))
   | Panic _ => False
   end)
  /\ match run (NewApp demo.env) (demo.boot "") with
     | Ok (app, _) => In storage.EnableRedirect (regOptions (registry app))
     | Panic _ => False
     end.
Proof.
  split.
  - destruct (run (NewApp demo.env) (sample.bootOf (sample.withStorage sample.redirectOff)))
      as [[app s']|msg] eqn:E; [|no_panic E].
    destruct (redirect_enabled_unless_disabled demo.env _ app s' E) as [Hiff _].
    + cbn. tauto.
    + intros Hin. apply Hiff in Hin. apply Hin.
      exists (sample.flag "disable" true). split; reflexivity.
  - destruct (run (NewApp demo.env) (demo.boot "")) as [[app s']|msg] eqn:E; [|no_panic E].
    destruct (redirect_enabled_unless_disabled demo.env _ app s' E) as [Hiff _].
    + cbn. tauto.
    + apply Hiff. intros (rc & Hrc & _). discriminate Hrc.
Defined.

(** X15. Whenever NewApp returns, the registry was created with
    EnableDelete exactly when storage.delete.enabled is the boolean true
    (the registry middleware contributing no such option); with false, a
    value of another type or no such key the option is not installed. *)
Theorem delete_enabled_by_boolean_true (env : Env) (s : Boot) (app : App) (s' : Boot) :
  run (NewApp env) s = Ok (app, s') ->
  ~ In storage.EnableDelete (GetRegistryOptions env) ->
  (In storage.EnableDelete (regOptions (registry app))
   <-> exists d, configuration.Storage_ (cfg s) !! "delete" = Some d
                 /\ d !! "enabled" = Some (configuration.VScalar (configuration.SBool true))).
Proof.
  intros Hrun Hmw. pose proof (NewApp_facts_run env s app s' Hrun) as F. split.
  - intros Hin. destruct (regOptions_In _ _ _ _ _ F Hin) as [H|[H|[H|[H|H]]]].
    + apply baseOptions_In in H as [H|[[H _]|[_ H]]]; [contradiction|discriminate H|exact H].
    + destruct H as (p & limit & _ & _ & _ & H). discriminate H.
    + destruct H as [H _]. discriminate H.
    + destruct H as [_ H]. discriminate H.
    + destruct H as [p H]. discriminate H.
  - intros Hd.
    destruct (facts_options _ _ _ _ F) as (tag & redirect & vopts & cache & Hreg & _).
    rewrite Hreg, !in_app_iff. left. apply baseOptions_In. right. right. split; [reflexivity|].
    exact Hd.
Qed.

Lemma delete_enabled_by_boolean_true_witness :
  (match run (NewApp demo.env) (sample.bootOf (sample.withStorage sample.deleteOn)) with
   | Ok (app, _) => In storage.EnableDelete (regOptions (registry app))
   | Panic _ => False
   end)
  /\ (match run (NewApp demo.env)
                (sample.bootOf (sample.withStorage
                                  (sample.deleteAs (configuration.SString "true")))) with
      | Ok (app, _) => ~ In storage.EnableDelete (regOptions (registry app))
      | Panic _ => False
      end).
Proof.
  split.
  - destruct (run (NewApp demo.env) (sample.bootOf (sample.withStorage sample.deleteOn)))
      as [[app s']|msg] eqn:E; [|no_panic E].
    apply (delete_enabled_by_boolean_true demo.env _ app s' E).
    + cbn. tauto.
    + exists (sample.flag "enabled" true). split; reflexivity.
  - destruct (run (NewApp demo.env)
                (sample.bootOf (sample.withStorage
                                  (sample.deleteAs (configuration.SString "true")))))
      as [[app s']|msg] eqn:E; [|no_panic E].
    intros Hin.
    apply (delete_enabled_by_boolean_true demo.env _ app s' E) in Hin as (d & Hd & He);
      [|cbn; tauto].
    vm_compute in Hd. injection Hd as <-. vm_compute in He. discriminate He.
Defined.

(** X16. Without proxy.remoteurl the application is not a cache, its
    registry is not wrapped by a pull-through cache, and digest resumption
    is not disabled by NewApp; with a remote URL the application is a cache
    and its registry is wrapped by the pull-through cache of that URL. *)
Theorem pull_through_cache_by_remote_url (env : Env) (s : Boot) (app : App) (s' : Boot) :
  run (NewApp env) s = Ok (app, s') ->
  let url := configuration.RemoteURL (configuration.Proxy_ (cfg s)) in
  (url = "" ->
   isCache app = false
   /\ regProxy (registry app) = None
   /\ (~ In storage.DisableDigestResumption (GetRegistryOptions env) ->
       ~ In storage.DisableDigestResumption (regOptions (registry app))))
  /\ (url <> "" -> isCache app = true /\ regProxy (registry app) = Some url).
Proof.
  intros Hrun url. pose proof (NewApp_facts_run env s app s' Hrun) as F.
  destruct (facts_registry _ _ _ _ F) as (_ & _ & _ & Hp & Hc). fold url in Hp, Hc.
  split; intros Hurl.
  - rewrite decide_True in Hp by exact Hurl. rewrite decide_True in Hc by exact Hurl. split; [exact Hc|]. split; [exact Hp|].
    intros Hmw Hin. destruct (regOptions_In _ _ _ _ _ F Hin) as [H|[H|[H|[H|H]]]].
    + apply baseOptions_In in H as [H|[[_ H]|[H _]]]; [contradiction|congruence|discriminate H].
    + destruct H as (p & limit & _ & _ & _ & H). discriminate H.
    + destruct H as [H _]. discriminate H.
    + destruct H as [_ H]. discriminate H.
    + destruct H as [p H]. discriminate H.
  - rewrite decide_False in Hp by exact Hurl. rewrite decide_False in Hc by exact Hurl. auto.
Qed.

Lemma pull_through_cache_by_remote_url_witness :
  (match run (NewApp demo.env) (demo.boot "") with
   | Ok (app, _) =>
       isCache app = false /\ regProxy (registry app) = None
       /\ ~ In storage.DisableDigestResumption (regOptions (registry app))
   | Panic _ => False
   end)
  /\ match run (NewApp demo.env) (demo.boot "https://registry-1.docker.io") with
     | Ok (app, _) => regProxy (registry app) = Some "https://registry-1.docker.io"
     | Panic _ => False
     end.
Proof.
  split.
  - destruct (run (NewApp demo.env) (demo.boot "")) as [[app s']|msg] eqn:E; [|no_panic E].
    destruct (pull_through_cache_by_remote_url demo.env _ app s' E) as [H _].
    destruct (H eq_refl) as (Hc & Hp & Hd). split; [exact Hc|]. split; [exact Hp|].
    apply Hd. cbn. tauto.
  - destruct (run (NewApp demo.env) (demo.boot "https://registry-1.docker.io"))
      as [[app s']|msg] eqn:E; [|no_panic E].
    destruct (pull_through_cache_by_remote_url demo.env _ app s' E) as [_ H].
    apply H. discriminate.
Defined.

(** X17. NewApp never installs a negative tag lookup concurrency limit; a
    concurrencylimit key of the tag parameters in a configuration NewApp
    accepts holds a non-negative integer, which is the limit the registry
    is created with. *)
Theorem tag_limit_never_negative (env : Env) (s : Boot) (app : App) (s' : Boot) :
  run (NewApp env) s = Ok (app, s') ->
  (forall limit, In (storage.TagLookupConcurrencyLimit limit) (GetRegistryOptions env) ->
                 0 <= limit) ->
  (forall limit, In (storage.TagLookupConcurrencyLimit limit) (regOptions (registry app)) ->
                 0 <= limit)
  /\ (forall p v,
         Storage_TagParameters env (configuration.Storage_ (cfg s)) = Some p ->
         p !! "concurrencylimit" = Some v ->
         exists limit,
           v = configuration.VScalar (configuration.SInt limit)
           /\ 0 <= limit
           /\ In (storage.TagLookupConcurrencyLimit limit) (regOptions (registry app))).
Proof.
  intros Hrun Hmw. pose proof (NewApp_facts_run env s app s' Hrun) as F. split.
  - intros limit Hin. destruct (regOptions_In _ _ _ _ _ F Hin) as [H|[H|[H|[H|H]]]].
    + apply baseOptions_In in H as [H|[[H _]|[H _]]]; [auto|discriminate H..].
    + destruct H as (p & limit' & _ & _ & Hpos & [= ->]). exact Hpos.
    + destruct H as [H _]. discriminate H.
    + destruct H as [_ H]. discriminate H.
    + destruct H as [p H]. discriminate H.
  - intros p v Hp Hv.
    destruct (facts_options _ _ _ _ F) as (tag & redirect & vopts & cache & Hreg & Ht & _).
    destruct Ht as [[_ Hnone]|(p' & limit & Hp' & Hl & Hpos & ->)].
    + rewrite (Hnone p Hp) in Hv. discriminate Hv.
    + exists limit. rewrite Hp in Hp'. injection Hp' as <-. rewrite Hv in Hl.
      injection Hl as ->. split; [reflexivity|]. split; [exact Hpos|].
      rewrite Hreg, !in_app_iff. right. left. left. reflexivity.
Qed.

Lemma tag_limit_never_negative_witness :
  match run (NewApp demo.env)
            (sample.bootOf (sample.withStorage (sample.tagLimit (configuration.SInt 8)))) with
  | Ok (app, _) => In (storage.TagLookupConcurrencyLimit 8) (regOptions (registry app))
  | Panic _ => False
  end.
Proof.
  destruct (run (NewApp demo.env)
                (sample.bootOf (sample.withStorage (sample.tagLimit (configuration.SInt 8)))))
    as [[app s']|msg] eqn:E; [|no_panic E].
  destruct (tag_limit_never_negative demo.env _ app s' E) as [_ H].
  - intros limit [].
  - destruct (H {[ "concurrencylimit" := configuration.VScalar (configuration.SInt 8) ]}
                (configuration.VScalar (configuration.SInt 8)))
      as (limit & Hv & _ & Hin); [reflexivity..|].
    injection Hv as <-. exact Hin.
Defined.

(** X18. The blob descriptor cache by the value of cache.blobdescriptor (or,
    without it, cache.layerinfo): the string redis needs a configured redis
    client and adds the redis provider; inmemory adds the in-memory
    provider whose size is the parsed blobdescriptorsize, or the default
    size without the key; with any other value NewApp adds no cache
    provider. *)
Theorem cache_provider_by_kind (env : Env) (s : Boot) (app : App) (s' : Boot) :
  run (NewApp env) s = Ok (app, s') ->
  let st := configuration.Storage_ (cfg s) in
  let kind := cacheKind st in
  let ofKind k := Some (configuration.VScalar (configuration.SString k)) in
  (kind = ofKind "redis" ->
   redis app = true
   /\ configuration.RedisAddrs (configuration.Redis_ (cfg s)) <> []
   /\ In (storage.BlobDescriptorCacheProvider storage.RedisBlobDescriptorCacheProvider)
         (regOptions (registry app)))
  /\ (kind = ofKind "inmemory" ->
      exists size,
        In (storage.BlobDescriptorCacheProvider
              (storage.InMemoryBlobDescriptorCacheProvider size))
           (regOptions (registry app))
        /\ forall cc, st !! "cache" = Some cc ->
                      match cc !! "blobdescriptorsize" with
                      | Some configuredSize => parseSize env configuredSize = Some size
                      | None => size = memorycache_DefaultSize env
                      end)
  /\ (kind <> ofKind "redis" -> kind <> ofKind "inmemory" ->
      forall provider,
        In (storage.BlobDescriptorCacheProvider provider) (regOptions (registry app)) ->
        In (storage.BlobDescriptorCacheProvider provider) (GetRegistryOptions env)).
Proof.
  intros Hrun st kind ofKind. pose proof (NewApp_facts_run env s app s' Hrun) as F.
  destruct (facts_options _ _ _ _ F) as (tag & redirect & vopts & cache & Hreg & Ht & Hr & Hv & Hc).
  fold st in Hreg, Ht, Hr, Hc. destruct Hc as (Hcr & Hci & Hcn). fold kind in Hcr, Hci, Hcn.
  split; [|split].
  - intros Hk. destruct (Hcr Hk) as [Hred ->]. split; [exact Hred|]. split.
    + apply (facts_redis _ _ _ _ F) in Hred. exact (proj1 Hred).
    + rewrite Hreg, !in_app_iff. do 4 right. left. reflexivity.
  - intros Hk. destruct (Hci Hk) as (size & -> & Hsize). exists size. split; [|exact Hsize].
    rewrite Hreg, !in_app_iff. do 4 right. left. reflexivity.
  - intros Hnr Hni provider Hin. rewrite (Hcn Hnr Hni) in Hreg.
    rewrite Hreg, !in_app_iff in Hin. destruct Hin as [H|[H|[H|[H|[]]]]].
    + apply baseOptions_In in H as [H|[[H _]|[H _]]]; [exact H|discriminate H..].
    + destruct (tagOption_In _ _ _ _ Ht H) as (p & limit & _ & _ & _ & E). discriminate E.
    + apply (redirectOption_In _ _ _ Hr) in H as [E _]. discriminate E.
    + destruct (validationOptions_In _ _ _ _ Hv H) as [_ E]. discriminate E.
Qed.

Lemma cache_provider_by_kind_witness :
  match run (NewApp demo.env)
            (sample.bootOf (sample.withStorage (sample.cacheOf "layerinfo" "inmemory"))) with
  | Ok (app, _) =>
      In (storage.BlobDescriptorCacheProvider
            (storage.InMemoryBlobDescriptorCacheProvider 10000))
         (regOptions (registry app))
  | Panic _ => False
  end.
Proof.
  destruct (run (NewApp demo.env)
                (sample.bootOf (sample.withStorage (sample.cacheOf "layerinfo" "inmemory"))))
    as [[app s']|msg] eqn:E; [|no_panic E].
  destruct (cache_provider_by_kind demo.env _ app s' E) as (_ & Hin & _).
  destruct Hin as (size & Hin & Hsize); [reflexivity|].
  specialize (Hsize _ eq_refl). vm_compute in Hsize. subst size. exact Hin.
Defined.

(** X19. In the cache section layerinfo is read only in the absence of
    blobdescriptor: a section that has only layerinfo behaves as if the
    value were given as blobdescriptor, and a section with blobdescriptor
    behaves the same with layerinfo removed. *)
Theorem layerinfo_is_blobdescriptor
        (env : Env) (st : gmap string (gmap string configuration.Value))
        (cc : gmap string configuration.Value) (v : configuration.Value)
        (hasRedis : bool) (options : list storage.RegistryOption) (s : Boot) :
  st !! "cache" = Some cc ->
  (cc !! "blobdescriptor" = None -> cc !! "layerinfo" = Some v ->
   run (configureCache env st hasRedis options) s
   = run (configureCache env (<["cache" := <["blobdescriptor" := v]> cc]> st)
                         hasRedis options) s)
  /\ (cc !! "blobdescriptor" = Some v ->
      run (configureCache env st hasRedis options) s
      = run (configureCache env (<["cache" := delete "layerinfo" cc]> st)
                            hasRedis options) s).
Proof.
  intros Hcc. unfold configureCache. rewrite Hcc, !lookup_insert_eq. cbv zeta. split.
  - intros Hb Hl. rewrite Hb, Hl.
    rewrite !(lookup_insert_ne _ "blobdescriptor" "blobdescriptorsize") by discriminate.
    reflexivity.
  - intros Hb. rewrite Hb.
    rewrite (lookup_delete_ne _ "layerinfo" "blobdescriptor") by discriminate.
    rewrite !(lookup_delete_ne _ "layerinfo" "blobdescriptorsize") by discriminate.
    rewrite Hb. reflexivity.
Qed.

Lemma layerinfo_is_blobdescriptor_witness :
  run (configureCache demo.env (sample.cacheOf "layerinfo" "inmemory") false [])
      (demo.boot "")
  = run (configureCache demo.env (sample.cacheOf "blobdescriptor" "inmemory") false [])
        (demo.boot "").
Proof.
  destruct (layerinfo_is_blobdescriptor demo.env (sample.cacheOf "layerinfo" "inmemory")
              {[ "layerinfo" := configuration.VScalar (configuration.SString "inmemory") ]}
              (configuration.VScalar (configuration.SString "inmemory")) false []
              (demo.boot "")) as [H _]; [reflexivity|].
  rewrite H by reflexivity. vm_compute. reflexivity.
Defined.

(** An option that is not among those of the registry middleware and is
    no validation option stems from neither. *)
Lemma regOptions_validation env s app s' o :
  NewApp_facts env s app s' ->
  isValidationOption o = true ->
  ~ In o (GetRegistryOptions env) ->
  (In o (regOptions (registry app))
   <-> exists vopts,
         validationOptions env (configuration.Validation_ (cfg s)) vopts /\ In o vopts).
Proof.
  intros F Hv Hmw.
  destruct (facts_options _ _ _ _ F) as (tag & redirect & vopts & cache & Hreg & Ht & Hr & Hvo & Hc).
  split.
  - intros Hin. exists vopts. split; [exact Hvo|].
    rewrite Hreg, !in_app_iff in Hin. destruct Hin as [H|[H|[H|[H|H]]]].
    + apply baseOptions_In in H as [H|[[-> _]|[-> _]]]; [contradiction|discriminate Hv..].
    + destruct (tagOption_In _ _ _ _ Ht H) as (p & limit & _ & _ & _ & ->). discriminate Hv.
    + apply (redirectOption_In _ _ _ Hr) in H as [-> _]. discriminate Hv.
    + exact H.
    + destruct (cacheOption_In _ _ _ _ _ Hc H) as [p ->]. discriminate Hv.
  - intros (vopts' & Hvo' & Hin). rewrite Hreg, !in_app_iff. do 3 right. left.
    unfold validationOptions in Hvo, Hvo'.
    destruct (effective _); [|subst vopts'; destruct Hin].
    destruct Hvo as (urls & -> & Hurls). destruct Hvo' as (urls' & -> & Hurls').
    rewrite in_app_iff in *. destruct Hin as [Hin|Hin]; [|auto].
    (* the URL options are determined by the configuration *)
    left. unfold urlOptions in *.
    assert (K : forall patterns mk a a',
               urlOption env patterns mk a -> urlOption env patterns mk a' -> a = a').
    { intros patterns mk a a'. unfold urlOption. destruct patterns; [congruence|].
      intros (_ & re & Hre & ->) (_ & re' & Hre' & ->). congruence. }
    destruct (configuration.ManifestsURLsAllow _) as [|x xs];
      [destruct (configuration.ManifestsURLsDeny _) as [|y ys]|].
    + subst. exact Hin.
    + destruct Hurls as (a & d & -> & Ha & Hd). destruct Hurls' as (a' & d' & -> & Ha' & Hd').
      rewrite (K _ _ _ _ Ha Ha'), (K _ _ _ _ Hd Hd'). exact Hin.
    + destruct Hurls as (a & d & -> & Ha & Hd). destruct Hurls' as (a' & d' & -> & Ha' & Hd').
      rewrite (K _ _ _ _ Ha Ha'), (K _ _ _ _ Hd Hd'). exact Hin.
Qed.

(** X20. With no validation option among those of the registry middleware:
    the registry checks that the images of an index exist iff validation
    is on (enabled, or not disabled) and indexes.platforms is not none; the
    check is restricted to a platform iff validation is on, platforms is
    list, and the platform is in the platform list. *)
Theorem index_validation_by_platforms (env : Env) (s : Boot) (app : App) (s' : Boot) :
  run (NewApp env) s = Ok (app, s') ->
  (forall o, In o (GetRegistryOptions env) -> isValidationOption o = false) ->
  let v := configuration.Validation_ (cfg s) in
  let platforms := configuration.ManifestsIndexesPlatforms v in
  let on := configuration.Enabled v = true \/ configuration.Disabled v = false in
  (In storage.EnableValidateImageIndexImagesExist (regOptions (registry app))
   <-> on /\ platforms <> "none")
  /\ (forall architecture os,
         In (storage.AddValidateImageIndexImagesExistPlatform architecture os)
            (regOptions (registry app))
         <-> on /\ platforms = "list"
             /\ exists platform,
                 In platform (configuration.ManifestsIndexesPlatformList v)
                 /\ configuration.Architecture platform = architecture
                 /\ configuration.OS platform = os).
Proof.
  intros Hrun Hmw v platforms on. pose proof (NewApp_facts_run env s app s' Hrun) as F.
  assert (Hon : effective v = true <-> on).
  { unfold effective, on. destruct (configuration.Enabled v), (configuration.Disabled v);
      cbn; intuition congruence. }
  assert (K : forall o, isValidationOption o = true -> isURLOption o = false ->
                        (In o (regOptions (registry app))
                         <-> on /\ In o (indexOptions v))).
  { intros o Hv Hu. rewrite (regOptions_validation env s app s' o F Hv).
    2: { intros H. apply Hmw in H. congruence. }
    fold v. rewrite <- Hon. unfold validationOptions. split.
    - intros (vopts & Hvo & Hin). destruct (effective v); [|subst; destruct Hin].
      destruct Hvo as (urls & -> & Hurls). split; [reflexivity|].
      apply in_app_iff in Hin as [Hin|Hin]; [|exact Hin].
      apply (urlOptions_In _ _ _ _ Hurls) in Hin. congruence.
    - intros [He Hin].
      destruct (facts_options _ _ _ _ F) as (_ & _ & vopts & _ & _ & _ & _ & Hvo & _).
      fold v in Hvo. exists vopts. split; [exact Hvo|].
      unfold validationOptions in Hvo. rewrite He in Hvo. destruct Hvo as (urls & -> & _).
      apply in_app_iff. auto. }
  split.
  - rewrite K by reflexivity. unfold indexOptions. fold platforms.
    destruct (decide (platforms = "list")) as [El|El];
      [|destruct (decide (platforms = "none")) as [En|En]]; cbn [In].
    + split; [intros [H _]; split; [exact H|rewrite El; discriminate]|].
      intros [H _]. auto.
    + split; [intros [_ []]|]. intros [_ H]. contradiction.
    + split; [intros [H _]; auto|]. intros [H _]. auto.
  - intros architecture os. rewrite K by reflexivity. unfold indexOptions. fold platforms.
    destruct (decide (platforms = "list")) as [El|El];
      [|destruct (decide (platforms = "none")) as [En|En]]; cbn [In].
    + rewrite in_map_iff. split.
      * intros [H [E|(p & [= <- <-] & Hp)]]; [discriminate E|]. eauto 10.
      * intros (H & _ & p & Hp & <- & <-). split; [exact H|]. right. eauto.
    + split; [intros [_ []]|]. intros (_ & H & _). congruence.
    + split; [intros [_ [E|[]]]; discriminate E|]. intros (_ & H & _). congruence.
Qed.

Lemma index_validation_by_platforms_witness :
  match run (NewApp demo.env)
            (sample.bootOf (sample.configOf (sample.validationOf true false [] [] "list")
                                              "" [] [] ∅ ∅)) with
  | Ok (app, _) =>
      In storage.EnableValidateImageIndexImagesExist (regOptions (registry app))
      /\ In (storage.AddValidateImageIndexImagesExistPlatform "amd64" "linux")
            (regOptions (registry app))
  | Panic _ => False
  end.
Proof.
  destruct (run (NewApp demo.env)
                (sample.bootOf (sample.configOf (sample.validationOf true false [] [] "list")
                                                  "" [] [] ∅ ∅)))
    as [[app s']|msg] eqn:E; [|no_panic E].
  destruct (index_validation_by_platforms demo.env _ app s' E) as [He Ha].
  - intros o [].
  - split.
    + apply He. split; [left; reflexivity|discriminate].
    + apply Ha. split; [left; reflexivity|]. split; [reflexivity|].
      eexists. split; [left; reflexivity|]. split; reflexivity.
Defined.

(** X21. With validation off (enabled false and disabled true) NewApp
    installs no URL policy and no image index check, and leaves the allow
    and deny lists of the configuration as they are: the patterns are
    neither compiled nor wrapped. *)
Theorem disabled_validation_installs_nothing
        (env : Env) (s : Boot) (app : App) (s' : Boot) :
  run (NewApp env) s = Ok (app, s') ->
  let v := configuration.Validation_ (cfg s) in
  let v' := configuration.Validation_ (Config app) in
  configuration.Enabled v = false ->
  configuration.Disabled v = true ->
  (forall o, In o (regOptions (registry app)) -> isValidationOption o = true ->
             In o (GetRegistryOptions env))
  /\ configuration.Enabled v' = false
  /\ configuration.ManifestsURLsAllow v' = configuration.ManifestsURLsAllow v
  /\ configuration.ManifestsURLsDeny v' = configuration.ManifestsURLsDeny v.
Proof.
  intros Hrun v v' Hen Hdis. pose proof (NewApp_facts_run env s app s' Hrun) as F.
  assert (He : effective v = false) by (unfold effective; rewrite Hen, Hdis; reflexivity).
  destruct (facts_options _ _ _ _ F) as (tag & redirect & vopts & cache & Hreg & Ht & Hr & Hvo & Hc).
  destruct (facts_validation _ _ _ _ F) as (Hen' & Hallow & Hdeny).
  fold v in Hvo, Hen', Hallow, Hdeny. unfold validationOptions in Hvo.
  rewrite He in Hvo, Hen', Hallow, Hdeny. subst vopts.
  unfold v'. rewrite (facts_Config _ _ _ _ F).
  split; [|auto].
  intros o Hin Hv. rewrite Hreg, !in_app_iff in Hin. destruct Hin as [H|[H|[H|[[]|H]]]].
  - apply baseOptions_In in H as [H|[[-> _]|[-> _]]]; [exact H|discriminate Hv..].
  - destruct (tagOption_In _ _ _ _ Ht H) as (p & limit & _ & _ & _ & ->). discriminate Hv.
  - apply (redirectOption_In _ _ _ Hr) in H as [-> _]. discriminate Hv.
  - destruct (cacheOption_In _ _ _ _ _ Hc H) as [p ->]. discriminate Hv.
Qed.

Lemma disabled_validation_installs_nothing_witness :
  match run (NewApp sample.env)
            (sample.bootOf
               (sample.configOf
                  (sample.validationOf false true ["^https://cdn\.example\.com/"] [] "")
                  "" [] [] ∅ ∅)) with
  | Ok (app, _) =>
      configuration.ManifestsURLsAllow (configuration.Validation_ (Config app))
      = ["^https://cdn\.example\.com/"]
      /\ forall o, In o (regOptions (registry app)) -> isValidationOption o = false
  | Panic _ => False
  end.
Proof.
  destruct (run (NewApp sample.env)
                (sample.bootOf
                   (sample.configOf
                      (sample.validationOf false true ["^https://cdn\.example\.com/"] [] "")
                      "" [] [] ∅ ∅)))
    as [[app s']|msg] eqn:E; [|no_panic E].
  destruct (disabled_validation_installs_nothing sample.env _ app s' E)
    as (Hopts & _ & Hallow & _); [reflexivity..|].
  split; [exact Hallow|]. intros o Hin.
  destruct (isValidationOption o) eqn:Hv; [|reflexivity].
  destruct (Hopts o Hin Hv).
Defined.

(** X22. With validation on, NewApp rewrites the allow and the deny list of
    the configuration in place, each pattern wrapped in a non-capturing
    group; for a non-empty list every pattern compiles by itself and the
    registry is created with the expression compiled from the wrapped
    patterns joined by a bar. *)
Theorem url_patterns_wrapped_and_compiled
        (env : Env) (s : Boot) (app : App) (s' : Boot) :
  run (NewApp env) s = Ok (app, s') ->
  let v := configuration.Validation_ (cfg s) in
  let v' := configuration.Validation_ (Config app) in
  let wrap := fun pattern => "(?:" +:+ pattern +:+ ")" in
  configuration.Enabled v = true \/ configuration.Disabled v = false ->
  configuration.ManifestsURLsAllow v' = map wrap (configuration.ManifestsURLsAllow v)
  /\ configuration.ManifestsURLsDeny v' = map wrap (configuration.ManifestsURLsDeny v)
  /\ (configuration.ManifestsURLsAllow v <> [] ->
      Forall (fun p => regexp_Compile env p <> None) (configuration.ManifestsURLsAllow v)
      /\ exists re,
          regexp_Compile env (join "|" (map wrap (configuration.ManifestsURLsAllow v)))
          = Some re
          /\ In (storage.ManifestURLsAllowRegexp re) (regOptions (registry app)))
  /\ (configuration.ManifestsURLsDeny v <> [] ->
      Forall (fun p => regexp_Compile env p <> None) (configuration.ManifestsURLsDeny v)
      /\ exists re,
          regexp_Compile env (join "|" (map wrap (configuration.ManifestsURLsDeny v)))
          = Some re
          /\ In (storage.ManifestURLsDenyRegexp re) (regOptions (registry app))).
Proof.
  intros Hrun v v' wrap Hon. pose proof (NewApp_facts_run env s app s' Hrun) as F.
  assert (He : effective v = true).
  { unfold effective. destruct Hon as [->| ->]; [reflexivity|apply orb_true_r]. }
  destruct (facts_options _ _ _ _ F) as (tag & redirect & vopts & cache & Hreg & Ht & Hr & Hvo & Hc).
  destruct (facts_validation _ _ _ _ F) as (Hen' & Hallow & Hdeny).
  fold v in Hvo, Hen', Hallow, Hdeny. unfold validationOptions in Hvo.
  rewrite He in Hvo, Hallow, Hdeny. destruct Hvo as (urls & -> & Hurls).
  unfold v'. rewrite (facts_Config _ _ _ _ F).
  split; [exact Hallow|]. split; [exact Hdeny|].
  assert (Hsub : forall o, In o urls -> In o (regOptions (registry app))).
  { intros o H. rewrite Hreg, !in_app_iff. auto 10. }
  unfold urlOptions in Hurls.
  split; intros Hne.
  - destruct (configuration.ManifestsURLsAllow v) as [|x xs] eqn:HA; [contradiction|].
    destruct Hurls as (a & d & -> & (Hall & re & Hre & ->) & _).
    split; [exact Hall|]. exists re. split; [exact Hre|]. apply Hsub, in_app_iff. left. left.
    reflexivity.
  - destruct (configuration.ManifestsURLsDeny v) as [|y ys] eqn:HD; [contradiction|].
    assert (Hd : exists a d, urls = a ++ d
                   /\ urlOption env (y :: ys) storage.ManifestURLsDenyRegexp d).
    { destruct (configuration.ManifestsURLsAllow v);
        destruct Hurls as (a & d & -> & _ & Hd); eauto. }
    destruct Hd as (a & d & -> & (Hall & re & Hre & ->)).
    split; [exact Hall|]. exists re. split; [exact Hre|]. apply Hsub, in_app_iff. right. left.
    reflexivity.
Qed.

Lemma url_patterns_wrapped_and_compiled_witness :
  match run (NewApp sample.env)
            (sample.bootOf
               (sample.configOf
                  (sample.validationOf true false
                     ["^https://cdn\.example\.com/"; "^https://mirror\.example\.org/"] [] "")
                  "" [] [] ∅ ∅)) with
  | Ok (app, _) =>
      configuration.ManifestsURLsAllow (configuration.Validation_ (Config app))
      = ["(?:^https://cdn\.example\.com/)"; "(?:^https://mirror\.example\.org/)"]
      /\ In (storage.ManifestURLsAllowRegexp regexp.AnyChar) (regOptions (registry app))
  | Panic _ => False
  end.
Proof.
  destruct (run (NewApp sample.env)
                (sample.bootOf
                   (sample.configOf
                      (sample.validationOf true false
                         ["^https://cdn\.example\.com/"; "^https://mirror\.example\.org/"] [] "")
                      "" [] [] ∅ ∅)))
    as [[app s']|msg] eqn:E; [|no_panic E].
  destruct (url_patterns_wrapped_and_compiled sample.env _ app s' E)
    as (Hallow & _ & Ha & _); [left; reflexivity|].
  split; [exact Hallow|].
  destruct Ha as (_ & re & Hre & Hin); [discriminate|].
  injection Hre as <-. exact Hin.
Defined.

(** X23. The configuration the application keeps is the one it was given,
    written to in place; besides the HTTP secret, the validation flag and
    the allow and deny lists (and the storage parameters, which are left
    out here), NewApp leaves every part of it as it was. The log only
    grows. *)
Theorem construction_writes_secret_and_validation_only
        (env : Env) (s : Boot) (app : App) (s' : Boot) :
  run (NewApp env) s = Ok (app, s') ->
  Config app = cfg s'
  /\ configFrame (cfg s) (Config app)
  /\ exists entries, logs s' = logs s ++ entries.
Proof.
  intros Hrun. pose proof (NewApp_facts_run env s app s' Hrun) as F.
  split; [exact (facts_Config _ _ _ _ F)|]. rewrite (facts_Config _ _ _ _ F).
  split; [exact (facts_frame _ _ _ _ F) | exact (facts_logs _ _ _ _ F)].
Qed.

Lemma construction_writes_secret_and_validation_only_witness :
  match run (NewApp demo.env) (demo.boot "") with
  | Ok (app, _) =>
      configuration.Headers (configuration.HTTP_ (Config app))
      = [("X-Content-Type-Options", ["nosniff"])]
      /\ configuration.Auth_ (Config app) = configuration.Auth_ (demo.config "")
  | Panic _ => False
  end.
Proof.
  destruct (run (NewApp demo.env) (demo.boot "")) as [[app s']|msg] eqn:E; [|no_panic E].
  destruct (construction_writes_secret_and_validation_only demo.env _ app s' E)
    as (_ & Hf & _).
  split; [apply Hf|apply Hf].
Defined.

(** X24. The application has no access controller exactly when the auth
    type is empty or equals none up to case; otherwise the controller is
    the one auth.GetAccessController returned for the type and the
    parameters. *)
Theorem access_controller_by_auth_type (env : Env) (s : Boot) (app : App) (s' : Boot) :
  run (NewApp env) s = Ok (app, s') ->
  let authType := configuration.AuthType (configuration.Auth_ (cfg s)) in
  (accessController app = None <-> authType = "" \/ EqualFold authType "none" = true)
  /\ (forall controller,
         accessController app = Some controller ->
         auth_GetAccessController env authType
           (configuration.AuthParameters (configuration.Auth_ (cfg s))) = inl controller).
Proof.
  intros Hrun authType. pose proof (NewApp_facts_run env s app s' Hrun) as F.
  exact (facts_controller _ _ _ _ F).
Qed.

Lemma access_controller_by_auth_type_witness :
  match run (NewApp demo.env)
            (sample.bootOf (sample.configOf demo.validation "NONE" [] [] ∅ ∅)) with
  | Ok (app, _) => accessController app = None
  | Panic _ => False
  end.
Proof.
  destruct (run (NewApp demo.env)
                (sample.bootOf (sample.configOf demo.validation "NONE" [] [] ∅ ∅)))
    as [[app s']|msg] eqn:E; [|no_panic E].
  destruct (access_controller_by_auth_type demo.env _ app s' E) as (H & _).
  apply H. right. reflexivity.
Defined.

Section OpenRegistry.

Variable reference_WithName : string -> option string.
Variable repositorymiddleware_Get : configuration.Middleware -> option string.

(** X25. Construction and request path together: the application NewApp
    builds from a configuration without authorization answers a request
    that its router matches to the base route with status 200 and body {},
    carrying the API version, the headers of the configuration it was given
    and the JSON content type, without calling an access controller or the
    repository lookup. *)
Theorem open_registry_answers_base_route
        (env : Env) (s : Boot) (app : App) (s' : Boot)
        (r : Request) (vars : gmap string string) :
  run (NewApp env) s = Ok (app, s') ->
  let c := cfg s in
  let authType := configuration.AuthType (configuration.Auth_ c) in
  authType = "" \/ EqualFold authType "none" = true ->
  RouterWithPrefix env (configuration.Prefix (configuration.HTTP_ c)) r
  = Matched v2.RouteNameBase vars ->
  exists evs,
    serve reference_WithName repositorymiddleware_Get app r
    = Ok ({| StatusCode := 200;
             RespHeader :=
               http.Header_Set
                 (http.Header_Set
                    (addHeaders (configuration.Headers (configuration.HTTP_ c))
                       (http.Header_Add ∅ "Docker-Distribution-API-Version" "registry/2.0"))
                    "Content-Type" "application/json")
                 "Content-Length" "2";
             RespBody := [Text "{}"] |}, evs)
    /\ callouts evs = [] /\ lookups evs = []
    /\ dispatches evs = [Some v2.RouteNameBase].
Proof.
  intros Hrun c authType Hnone Hroute.
  pose proof (NewApp_facts_run env s app s' Hrun) as F.
  assert (Hac : accessController app = None) by (apply (facts_controller _ _ _ _ F); exact Hnone).
  assert (Hheaders : configuration.Headers (configuration.HTTP_ (Config app))
                     = configuration.Headers (configuration.HTTP_ c)).
  { rewrite (facts_Config _ _ _ _ F). apply (facts_frame _ _ _ _ F). }
  set (r' := withRoute v2.RouteNameBase vars r).
  destruct (serve_after reference_WithName repositorymiddleware_Get app r v2.RouteNameBase vars
              (fun ctx _ w => (ctx, apiBase w)) (context app r')
              {| rw := apiBase (initialWriter app);
                 events := [Logged {| level := Debug; message := "authorizing request" |};
                            DispatchCall (Some v2.RouteNameBase)] |})
    as (evs & Hserve & Hqc & Hqd & Hql).
  - rewrite (facts_router _ _ _ _ F). exact Hroute.
  - rewrite (facts_handlers _ _ _ _ F). reflexivity.
  - fold r'. unfold dispatcherBody, authorized. rewrite Hac. mstep. reflexivity.
  - eexists. split; [rewrite Hserve|].
    + cbn [rw events]. unfold deferred, initialWriter, initialHeader. rewrite Hheaders.
      reflexivity.
    + rewrite ?callouts_app, ?dispatches_app, ?lookups_app, Hqc, Hqd, Hql. repeat split.
Qed.

End OpenRegistry.

Lemma open_registry_answers_base_route_witness :
  match run (NewApp demo.env)
            (sample.bootOf (sample.configOf demo.validation "none" [] [] ∅ ∅)) with
  | Ok (app, _) =>
      exists evs,
        serve sample.WithName (fun _ => None) app (demo.request "GET" "/v2/" ∅)
        = Ok ({| StatusCode := 200;
                 RespHeader := {[ "Docker-Distribution-Api-Version" := ["registry/2.0"];
                                  "X-Content-Type-Options" := ["nosniff"];
                                  "Content-Type" := ["application/json"];
                                  "Content-Length" := ["2"] ]};
                 RespBody := [Text "{}"] |}, evs)
  | Panic _ => False
  end.
Proof.
  destruct (run (NewApp demo.env)
                (sample.bootOf (sample.configOf demo.validation "none" [] [] ∅ ∅)))
    as [[app s']|msg] eqn:E; [|no_panic E].
  destruct (open_registry_answers_base_route sample.WithName (fun _ => None)
              demo.env _ app s' (demo.request "GET" "/v2/" ∅) ∅ E)
    as (evs & Hserve & _).
  - right. reflexivity.
  - reflexivity.
  - exists evs. rewrite Hserve. f_equal.
Defined.

(** X26. The event sinks are those of the endpoints that are not disabled,
    in the order of the configuration. The source address is http.addr
    when the host name cannot be determined, and the bare host name when
    http.addr has no port to pick. *)
Theorem event_sinks_skip_disabled_endpoints
        (env : Env) (s : Boot) (app : App) (s' : Boot) :
  run (NewApp env) s = Ok (app, s') ->
  let c := cfg s in
  let addr := configuration.Addr (configuration.HTTP_ c) in
  eventsSink app
  = map configuration.EndpointName
        (List.filter (fun endpoint => negb (configuration.EndpointDisabled endpoint))
                     (configuration.NotificationsEndpoints c))
  /\ (forall hostname err, os_Hostname env = (hostname, Some err) -> eventsSource app = addr)
  /\ (forall hostname,
         os_Hostname env = (hostname, None) ->
         net_SplitHostPort env addr = None ->
         eventsSource app = hostname).
Proof.
  intros Hrun c addr. pose proof (NewApp_facts_run env s app s' Hrun) as F.
  destruct (facts_source _ _ _ _ F) as [H1 H2]. fold c addr in H1, H2.
  split; [exact (facts_sinks _ _ _ _ F)|]. split; [exact H1|].
  intros hostname Hh Hp. rewrite (H2 hostname Hh), Hp. reflexivity.
Qed.

Lemma event_sinks_skip_disabled_endpoints_witness :
  match run (NewApp demo.env)
            (sample.bootOf (sample.configOf demo.validation "" sample.endpoints [] ∅ ∅)) with
  | Ok (app, _) => eventsSink app = ["audit"; "mirror"]
  | Panic _ => False
  end.
Proof.
  destruct (run (NewApp demo.env)
                (sample.bootOf (sample.configOf demo.validation "" sample.endpoints [] ∅ ∅)))
    as [[app s']|msg] eqn:E; [|no_panic E].
  destruct (event_sinks_skip_disabled_endpoints demo.env _ app s' E) as (Hs & _).
  exact Hs.
Defined.

(** X27. app.redis is set exactly when redis addresses are configured and,
    if a TLS certificate or key is configured, every client CA was read and
    added; in particular it is unset without addresses. A key pair that
    fails to load panics instead. *)
Theorem redis_client_configured_iff (env : Env) (s : Boot) (app : App) (s' : Boot) :
  run (NewApp env) s = Ok (app, s') ->
  let rc := configuration.Redis_ (cfg s) in
  (redis app = true
   <-> configuration.RedisAddrs rc <> []
       /\ ((configuration.RedisTLSCertificate rc = "" /\ configuration.RedisTLSKey rc = "")
           \/ Forall (fun ca => loadClientCA env ca = CAAdded)
                     (configuration.RedisTLSClientCAs rc)))
  /\ (configuration.RedisAddrs rc = [] -> redis app = false).
Proof.
  intros Hrun rc. pose proof (NewApp_facts_run env s app s' Hrun) as F.
  pose proof (facts_redis _ _ _ _ F) as H. split; [exact H|].
  intros Ha. destruct (redis app); [|reflexivity]. destruct H as [H _].
  destruct (H eq_refl) as [Hne _]. contradiction.
Qed.

Lemma redis_client_configured_iff_witness :
  match run (NewApp demo.env)
            (sample.bootOf (sample.configOf demo.validation "" [] ["redis-0:6379"] ∅
                                              (sample.cacheOf "blobdescriptor" "redis"))) with
  | Ok (app, _) => redis app = true
  | Panic _ => False
  end.
Proof.
  destruct (run (NewApp demo.env)
                (sample.bootOf (sample.configOf demo.validation "" [] ["redis-0:6379"] ∅
                                                  (sample.cacheOf "blobdescriptor" "redis"))))
    as [[app s']|msg] eqn:E; [|no_panic E].
  destruct (redis_client_configured_iff demo.env _ app s' E) as [H _].
  apply H. split; [discriminate|]. left. split; reflexivity.
Defined.

(** X28. The storage driver is created for the configured type with the
    storage parameters, in which a useragent parameter that is the empty
    string is replaced by the user agent of the registry; a missing
    useragent parameter, or one of another value, is passed on as it
    is. *)
Theorem useragent_replaced_only_when_empty
        (env : Env) (s : Boot) (app : App) (s' : Boot) :
  run (NewApp env) s = Ok (app, s') ->
  let st := configuration.Storage_ (cfg s) in
  let params := default ∅ (Storage_Parameters env st) in
  let empty := configuration.VScalar (configuration.SString "") in
  driverType (driver app) = Storage_Type env st
  /\ factory_Create env (Storage_Type env st) (driverParameters (driver app)) = None
  /\ (params !! "useragent" = Some empty ->
      driverParameters (driver app)
      = <["useragent" := configuration.VScalar (configuration.SString (userAgent env))]> params)
  /\ (params !! "useragent" <> Some empty -> driverParameters (driver app) = params).
Proof.
  intros Hrun st params empty. pose proof (NewApp_facts_run env s app s' Hrun) as F.
  destruct (facts_driver _ _ _ _ F) as (H1 & H2 & H3 & H4 & _). auto.
Qed.

Lemma useragent_replaced_only_when_empty_witness :
  (match run (NewApp sample.env)
             (sample.bootOf
                (sample.withStorage
                   {[ "inmemory" := {[ "useragent" := configuration.VScalar
                                                        (configuration.SString "") ]} ]})) with
   | Ok (app, _) =>
       driverParameters (driver app) !! "useragent"
       = Some (configuration.VScalar (configuration.SString "distribution/v3 go1.22"))
   | Panic _ => False
   end)
  /\ match run (NewApp sample.env) (sample.bootOf (sample.withStorage ∅)) with
     | Ok (app, _) => driverParameters (driver app) !! "useragent" = None
     | Panic _ => False
     end.
Proof.
  split.
  - destruct (run (NewApp sample.env)
                  (sample.bootOf
                     (sample.withStorage
                        {[ "inmemory" := {[ "useragent" := configuration.VScalar
                                                             (configuration.SString "") ]} ]})))
      as [[app s']|msg] eqn:E; [|no_panic E].
    destruct (useragent_replaced_only_when_empty sample.env _ app s' E) as (_ & _ & H & _).
    rewrite H by reflexivity. reflexivity.
  - destruct (run (NewApp sample.env) (sample.bootOf (sample.withStorage ∅)))
      as [[app s']|msg] eqn:E; [|no_panic E].
    destruct (useragent_replaced_only_when_empty sample.env _ app s' E) as (_ & _ & _ & H).
    rewrite H by discriminate. reflexivity.
Defined.

(** X29. The storage driver and the registry of the application are wrapped
    by exactly the configured storage and registry middlewares, in the
    order of the configuration; every one of them initialised without
    error. *)
Theorem middlewares_applied_in_order (env : Env) (s : Boot) (app : App) (s' : Boot) :
  run (NewApp env) s = Ok (app, s') ->
  let configured kind := default [] (configuration.Middleware_ (cfg s) !! kind) in
  driverMiddleware (driver app) = map configuration.MwName (configured "storage")
  /\ Forall (fun mw => storagemiddleware_Get env mw = None) (configured "storage")
  /\ regMiddleware (registry app) = map configuration.MwName (configured "registry")
  /\ Forall (fun mw => registrymiddleware_Get env mw = None) (configured "registry").
Proof.
  intros Hrun configured. pose proof (NewApp_facts_run env s app s' Hrun) as F.
  destruct (facts_driver _ _ _ _ F) as (_ & _ & _ & _ & H1 & H2).
  destruct (facts_registry _ _ _ _ F) as (H3 & H4 & _). auto.
Qed.

Lemma middlewares_applied_in_order_witness :
  match run (NewApp demo.env)
            (sample.bootOf (sample.configOf demo.validation "" [] [] sample.middlewares ∅)) with
  | Ok (app, _) =>
      driverMiddleware (driver app) = ["cloudfront"; "redirect"]
      /\ regMiddleware (registry app) = ["audit"]
  | Panic _ => False
  end.
Proof.
  destruct (run (NewApp demo.env)
                (sample.bootOf (sample.configOf demo.validation "" [] [] sample.middlewares ∅)))
    as [[app s']|msg] eqn:E; [|no_panic E].
  destruct (middlewares_applied_in_order demo.env _ app s' E) as (Hd & _ & Hr & _).
  split; [exact Hd|exact Hr].
Defined.

(** ** Health checks *)

Section HealthProperties.

Variable env : Env.
Variable Register_panics :
  list (HealthRegistry * string * Updater) -> HealthRegistry -> string -> option string.

Lemma wp_check target name updater checker interval (Q : unit -> HS -> Prop) s :
  (forall s', added target [(name, {| pollUpdater := updater; pollChecker := checker;
                                      pollInterval := interval |})] [] s s' -> Q tt s') ->
  wp (_ ← Register Register_panics target name updater; goPoll updater checker interval) Q s.
Proof.
  intros H. unfold wp, Register, goPoll. rewrite !run_bind, run_gets. cbn beta iota.
  destruct (Register_panics _ _ _); [exact I|]. rewrite run_modify, run_modify.
  apply H. repeat split. cbn. symmetry. apply app_nil_r.
Qed.

Lemma added_refl target s : added target [] [] s s.
Proof. unfold added. cbn. rewrite !app_nil_r. auto. Qed.

Lemma added_trans target e1 e2 l1 l2 s1 s2 s3 :
  added target e1 l1 s1 s2 -> added target e2 l2 s2 s3 ->
  added target (e1 ++ e2) (l1 ++ l2) s1 s3.
Proof.
  intros (Hr1 & Hp1 & Hl1) (Hr2 & Hp2 & Hl2). unfold added.
  rewrite Hr2, Hr1, Hp2, Hp1, Hl2, Hl1, !map_app, <- !app_assoc. auto.
Qed.

Lemma added_log target l msg s :
  added target [] [ {| level := l; message := msg |} ] s
        {| registrations := registrations s; polls := polls s;
           healthLogs := healthLogs s ++ [ {| level := l; message := msg |} ] |}.
Proof. unfold added. cbn. rewrite !app_nil_r. auto. Qed.

(** The loop rule: the invariant holds of the elements visited so far. *)
Lemma wp_forEach {A} (l : list A) (body : A -> M HS unit)
      (I : list A -> HS -> Prop) (visited : list A) s :
  I visited s ->
  (forall visited x s1, I visited s1 ->
                        wp (body x) (fun _ s2 => I (visited ++ [x]) s2) s1) ->
  wp (forEach l body) (fun _ s' => I (visited ++ l) s') s.
Proof.
  intros H0 Hstep. revert visited s H0.
  induction l as [|x l IH]; intros visited s H0; cbn [forEach].
  - apply wp_ret. rewrite app_nil_r. exact H0.
  - apply wp_bind. eapply wp_conseq; [apply Hstep, H0|]. cbn beta. intros _ s1 H1.
    replace (visited ++ x :: l) with ((visited ++ [x]) ++ l) by (rewrite <- app_assoc; reflexivity).
    apply IH, H1.
Qed.

Lemma wp_logH l msg (Q : unit -> HS -> Prop) s :
  Q tt {| registrations := registrations s; polls := polls s;
          healthLogs := healthLogs s ++ [ {| level := l; message := msg |} ] |} ->
  wp (logH l msg) Q s.
Proof. auto. Qed.

(** A loop over checkers, each logged, registered and polled. *)
Lemma wp_checkers {A} (l : list A) (entry : A -> string * Poll) (logged : LogEntry)
      (body : A -> M HS unit) target s :
  (forall x (Q : unit -> HS -> Prop) s1,
      (forall s2, added target [entry x] [logged] s1 s2 -> Q tt s2) -> wp (body x) Q s1) ->
  wp (forEach l body)
     (fun _ s' => added target (map entry l) (map (fun _ => logged) l) s s') s.
Proof.
  intros Hbody.
  apply (wp_forEach l body
           (fun visited s' => added target (map entry visited)
                                    (map (fun _ => logged) visited) s s') []);
    [apply added_refl|].
  intros visited x s1 H1. apply Hbody. intros s2 H2.
  rewrite !map_app. eapply added_trans; [exact H1|exact H2].
Qed.

Lemma RegisterHealthChecks_spec health app healthRegistries s :
  wp (RegisterHealthChecks env Register_panics health app healthRegistries)
     (fun _ s' =>
        (length healthRegistries <= 1)%nat
        /\ added (match healthRegistries with [r] => r | _ => DefaultRegistry end)
                 (healthEntries env health app) (healthEntriesLogged health) s s') s.
Proof.
  unfold RegisterHealthChecks.
  destruct (1 <? length healthRegistries)%nat eqn:Hlen; [apply wp_panic|].
  apply Nat.ltb_ge in Hlen. cbv zeta.
  set (target := match healthRegistries with [r] => r | _ => DefaultRegistry end).
  apply wp_bind.
  apply (wp_conseq _ (fun _ s1 => added target (storageDriverEntries env health app) [] s s1)).
  { unfold storageDriverEntries. destruct (healthcfg.SDEnabled _).
    - apply wp_check. intros s1 Hc. exact Hc.
    - apply wp_ret, added_refl. }
  intros _ s1 H1. apply wp_bind.
  eapply wp_conseq.
  { apply (wp_checkers _ fileEntry
             {| level := Info;
                message := "configuring file health check path=%s, interval=%d" |} _ target).
    intros x Q s2 HQ. apply wp_bind, wp_logH. apply wp_check. intros s3 Hc.
    apply HQ. eapply (added_trans _ [] _ [_] []); [apply added_log|exact Hc]. }
  cbn beta. intros _ s2 H2. apply wp_bind.
  eapply wp_conseq.
  { apply (wp_checkers _ httpEntry
             {| level := Info;
                message := "configuring HTTP health check uri=%s, interval=%d, threshold=%d" |}
             _ target).
    intros x Q s3 HQ. apply wp_bind, wp_logH. apply wp_check. intros s4 Hc.
    apply HQ. eapply (added_trans _ [] _ [_] []); [apply added_log|exact Hc]. }
  cbn beta. intros _ s3 H3.
  eapply wp_conseq.
  { apply (wp_checkers _ tcpEntry
             {| level := Info;
                message := "configuring TCP health check addr=%s, interval=%d, threshold=%d" |}
             _ target).
    intros x Q s4 HQ. apply wp_bind, wp_logH. apply wp_check. intros s5 Hc.
    apply HQ. eapply (added_trans _ [] _ [_] []); [apply added_log|exact Hc]. }
  cbn beta. intros _ s4 H4. split; [exact Hlen|].
  unfold healthEntries, healthEntriesLogged.
  eapply (added_trans _ _ _ [] _); [exact H1|].
  eapply added_trans; [exact H2|]. eapply added_trans; [exact H3|exact H4].
Qed.

(** X30. When RegisterHealthChecks returns, it was given at most one
    registry and registered with it (or with the default registry) exactly
    the checks of the configuration: the storage driver check, if enabled,
    under the name of the storage type, then the file, the HTTP and the
    TCP checks under their path, URI and address, in this order. Each
    registration comes with one poller, which has the registered updater
    (a plain one for a file check, otherwise one with the configured
    threshold), the check of the configured target, timeout and headers,
    and the configured interval, 10 s where that is 0; an HTTP check
    expects the configured status, 200 where that is 0. One entry is
    logged per file, HTTP and TCP check. *)
Theorem health_checks_registered_and_polled
        (health : healthcfg.Health) (app : App)
        (healthRegistries : list HealthRegistry) (s s' : HS) :
  run (RegisterHealthChecks env Register_panics health app healthRegistries) s
  = Ok (tt, s') ->
  let target := match healthRegistries with [r] => r | _ => DefaultRegistry end in
  let sd := healthcfg.StorageDriver_ health in
  let orDefault (interval : Z) := if decide (interval = 0) then 10 * time.Second else interval in
  let entries :=
    (if healthcfg.SDEnabled sd then
       [ ("storagedriver_" +:+ Storage_Type env (configuration.Storage_ (Config app)),
          {| pollUpdater := NewThresholdStatusUpdater (healthcfg.SDThreshold sd);
             pollChecker := storageDriverCheck;
             pollInterval := orDefault (healthcfg.SDInterval sd) |}) ]
     else [])
    ++ map (fun c => (healthcfg.File c,
                      {| pollUpdater := NewStatusUpdater;
                         pollChecker := FileChecker (healthcfg.File c);
                         pollInterval := orDefault (healthcfg.FileInterval c) |}))
           (healthcfg.FileCheckers health)
    ++ map (fun c => (healthcfg.URI c,
                      {| pollUpdater := NewThresholdStatusUpdater (healthcfg.HTTPThreshold c);
                         pollChecker :=
                           HTTPChecker (healthcfg.URI c)
                                       (if decide (healthcfg.HTTPStatusCode c = 0) then 200
                                        else healthcfg.HTTPStatusCode c)
                                       (healthcfg.HTTPTimeout c) (healthcfg.HTTPHeaders c);
                         pollInterval := orDefault (healthcfg.HTTPInterval c) |}))
           (healthcfg.HTTPCheckers health)
    ++ map (fun c => (healthcfg.TCPAddr c,
                      {| pollUpdater := NewThresholdStatusUpdater (healthcfg.TCPThreshold c);
                         pollChecker := TCPChecker (healthcfg.TCPAddr c) (healthcfg.TCPTimeout c);
                         pollInterval := orDefault (healthcfg.TCPInterval c) |}))
           (healthcfg.TCPCheckers health) in
  (length healthRegistries <= 1)%nat
  /\ registrations s'
     = registrations s ++ map (fun e => (target, e.1, pollUpdater e.2)) entries
  /\ polls s' = polls s ++ map snd entries
  /\ length (healthLogs s')
     = (length (healthLogs s) + length (healthcfg.FileCheckers health)
        + length (healthcfg.HTTPCheckers health) + length (healthcfg.TCPCheckers health))%nat
  /\ Forall (fun p => pollInterval p <> 0) (map snd entries).
Proof.
  intros Hrun target sd orDefault entries.
  destruct (wp_run _ _ _ _ _ (RegisterHealthChecks_spec health app healthRegistries s) Hrun)
    as [Hlen (Hr & Hp & Hl)].
  change (healthEntries env health app) with entries in Hr, Hp.
  split; [exact Hlen|]. split; [exact Hr|]. split; [exact Hp|]. split.
  - rewrite Hl. unfold healthEntriesLogged. rewrite !length_app, !length_map. lia.
  - assert (Hnz : forall z, orDefault z <> 0).
    { intros z. unfold orDefault. destruct (decide (z = 0)); [discriminate|assumption]. }
    unfold entries. rewrite !map_app, !map_map. cbn [snd].
    repeat apply Forall_app_2.
    + destruct (healthcfg.SDEnabled sd); repeat constructor. apply Hnz.
    + apply Forall_map, Forall_forall. intros c _. apply Hnz.
    + apply Forall_map, Forall_forall. intros c _. apply Hnz.
    + apply Forall_map, Forall_forall. intros c _. apply Hnz.
Qed.

End HealthProperties.

Lemma health_checks_registered_and_polled_witness :
  match run (RegisterHealthChecks demo.env sample.Register_panics sample.health demo.app [])
            sample.fresh with
  | Ok (_, s') =>
      map (fun e => e.1.2) (registrations s')
      = ["storagedriver_inmemory"; "/etc/maintenance"; "https://auth.example.com/healthz";
         "redis:6379"]
      /\ polls s'
         = [ {| pollUpdater := NewThresholdStatusUpdater 3; pollChecker := storageDriverCheck;
                pollInterval := 10 * time.Second |};
             {| pollUpdater := NewStatusUpdater; pollChecker := FileChecker "/etc/maintenance";
                pollInterval := 5 * time.Second |};
             {| pollUpdater := NewThresholdStatusUpdater 2;
                pollChecker := HTTPChecker "https://auth.example.com/healthz" 200
                                           (3 * time.Second) [];
                pollInterval := 10 * time.Second |};
             {| pollUpdater := NewThresholdStatusUpdater 5;
                pollChecker := TCPChecker "redis:6379" (2 * time.Second);
                pollInterval := 30 * time.Second |} ]
  | Panic _ => False
  end.
Proof.
  destruct (run (RegisterHealthChecks demo.env sample.Register_panics sample.health
                   demo.app []) sample.fresh) as [[[] s']|msg] eqn:E.
  - destruct (health_checks_registered_and_polled demo.env sample.Register_panics
                sample.health demo.app [] sample.fresh s' E)
      as (_ & Hr & Hp & _).
    rewrite Hr, Hp. split; reflexivity.
  - vm_compute in E. discriminate E.
Defined.
